(** * RealityFirewall — the AMAF detection core, embedded and verified

    A shallow embedding of the TypeScript sources under [src/lib/detection]
    (scoring engine, confidence manager, change detector, the audio and
    video metric extractors and the pipeline orchestrator), followed by the
    properties the specification states about them.

    Numbers.  A JavaScript [number] is modelled by [JS.number]: an exact
    rational, one of the two infinities, or NaN.  Arithmetic on finite values
    is exact (IEEE-754 rounding and the sign of zero are not modelled); the
    special values follow IEEE-754, so [0/0] is NaN, [x/0] is an infinity
    and every comparison with NaN is false.  Finite results are kept in
    lowest terms.  [Math.exp], [Math.sqrt], [Math.log], [Math.cos] are
    implementation-approximated in ECMAScript and are taken as parameters. *)

From Stdlib Require Import QArith Qround Qabs ZArith List Lia Lqa String.
From stdpp Require Import gmap strings list pretty sorting.

Local Open Scope Q_scope.

(* ===================================================================== *)
(** ** JavaScript numbers                                                 *)
(* ===================================================================== *)

Module JS.

Inductive number : Type :=
| Fin (q : Q)
| PosInf
| NegInf
| NaN.

Definition Qltb (x y : Q) : bool := negb (Qle_bool y x).

(** The infinity (or NaN) whose sign is that of a rational [x], given the
    comparison of [x] with 0. *)
Definition signed_inf (c : comparison) : number :=
  match c with
  | Gt => PosInf
  | Lt => NegInf
  | Eq => NaN
  end.

Definition neg (a : number) : number :=
  match a with
  | Fin x => Fin (Qred (- x))
  | PosInf => NegInf
  | NegInf => PosInf
  | NaN => NaN
  end.

Definition add (a b : number) : number :=
  match a, b with
  | NaN, _ | _, NaN => NaN
  | Fin x, Fin y => Fin (Qred (x + y))
  | PosInf, NegInf | NegInf, PosInf => NaN
  | PosInf, _ | _, PosInf => PosInf
  | NegInf, _ | _, NegInf => NegInf
  end.

Definition sub (a b : number) : number :=
  match a, b with
  | NaN, _ | _, NaN => NaN
  | Fin x, Fin y => Fin (Qred (x - y))
  | PosInf, PosInf | NegInf, NegInf => NaN
  | PosInf, _ | _, NegInf => PosInf
  | NegInf, _ | _, PosInf => NegInf
  end.

Definition mul (a b : number) : number :=
  match a, b with
  | NaN, _ | _, NaN => NaN
  | Fin x, Fin y => Fin (Qred (x * y))
  | Fin x, PosInf | PosInf, Fin x => signed_inf (x ?= 0)
  | Fin x, NegInf | NegInf, Fin x => signed_inf (0 ?= x)
  | PosInf, PosInf | NegInf, NegInf => PosInf
  | PosInf, NegInf | NegInf, PosInf => NegInf
  end.

Definition div (a b : number) : number :=
  match a, b with
  | NaN, _ | _, NaN => NaN
  | Fin x, Fin y =>
      if Qeq_bool y 0 then signed_inf (x ?= 0) else Fin (Qred (x / y))
  | Fin _, (PosInf | NegInf) => Fin 0
  | PosInf, Fin y => if Qltb y 0 then NegInf else PosInf
  | NegInf, Fin y => if Qltb y 0 then PosInf else NegInf
  | (PosInf | NegInf), (PosInf | NegInf) => NaN
  end.

(** [a < b]; false as soon as one side is NaN. *)
Definition lt (a b : number) : bool :=
  match a, b with
  | NaN, _ | _, NaN => false
  | Fin x, Fin y => Qltb x y
  | NegInf, NegInf | PosInf, _ | _, NegInf => false
  | NegInf, _ | _, PosInf => true
  end.

(** [a <= b]. *)
Definition le (a b : number) : bool :=
  match a, b with
  | NaN, _ | _, NaN => false
  | Fin x, Fin y => Qle_bool x y
  | NegInf, _ | _, PosInf => true
  | PosInf, _ | _, NegInf => false
  end.

Definition gt (a b : number) : bool := lt b a.
Definition ge (a b : number) : bool := le b a.

(** [a === b] on numbers. *)
Definition strict_eq (a b : number) : bool :=
  match a, b with
  | Fin x, Fin y => Qeq_bool x y
  | PosInf, PosInf | NegInf, NegInf => true
  | _, _ => false
  end.

Definition Math_max (a b : number) : number :=
  match a, b with
  | NaN, _ | _, NaN => NaN
  | _, _ => if lt a b then b else a
  end.

Definition Math_min (a b : number) : number :=
  match a, b with
  | NaN, _ | _, NaN => NaN
  | _, _ => if lt b a then b else a
  end.

Definition Math_abs (a : number) : number :=
  match a with
  | Fin x => Fin (Qabs x)
  | PosInf | NegInf => PosInf
  | NaN => NaN
  end.

Definition Math_floor (a : number) : number :=
  match a with
  | Fin x => Fin (inject_Z (Qfloor x))
  | _ => a
  end.

(** [Math.round]: the nearest integer, halves going up. *)
Definition Math_round (a : number) : number :=
  match a with
  | Fin x => Fin (inject_Z (Qfloor (x + (1 # 2))))
  | _ => a
  end.

Definition of_Z (z : Z) : number := Fin (inject_Z z).
Definition of_nat (n : nat) : number := of_Z (Z.of_nat n).

Definition is_NaN (a : number) : bool :=
  match a with
  | NaN => true
  | _ => false
  end.

(** *** Doubles

    Arithmetic above is exact.  Where a result of the source depends on
    the rounding of a product to a double, the product goes through
    [to_double]: the IEEE-754 binary64 number nearest to a rational,
    ties to the even mantissa, with gradual underflow and overflow to
    infinity. *)

(** [2 ^ e] for an integer [e]. *)
Definition pow2 (e : Z) : Q :=
  if (0 <=? e)%Z then inject_Z (2 ^ e) else 1 / inject_Z (2 ^ (- e)).

(** The integer nearest to [x], halves going to the even one. *)
Definition round_half_even (x : Q) : Z :=
  let f := Qfloor x in
  match Qcompare (x - inject_Z f) (1 # 2) with
  | Lt => f
  | Gt => (f + 1)%Z
  | Eq => if Z.even f then f else (f + 1)%Z
  end.

(** The exponent [E] with [2 ^ E <= q < 2 ^ (E + 1)], for [q > 0]. *)
Definition binade (q : Q) : Z :=
  let e0 := (Z.log2 (Qnum q) - Z.log2 (Zpos (Qden q)))%Z in
  if Qltb q (pow2 e0) then (e0 - 1)%Z else e0.

(** The double nearest to [q > 0]: a 53-bit mantissa [m] at the
    exponent of the binade of [q], or at the least exponent -1074. *)
Definition nearest_double (q : Q) : number :=
  let e := Z.max (binade q - 52) (-1074) in
  let m := round_half_even (q / pow2 e) in
  let r := inject_Z m * pow2 e in
  if Qle_bool (pow2 1024) r then PosInf else Fin (Qred r).

Definition to_double (a : number) : number :=
  match a with
  | Fin q =>
      match Qcompare q 0 with
      | Eq => Fin 0
      | Gt => nearest_double q
      | Lt => neg (nearest_double (- q))
      end
  | _ => a
  end.

(** The same numeric value: rationals up to [Qeq], specials by name. *)
Definition same_value (a b : number) : Prop :=
  match a, b with
  | Fin x, Fin y => x == y
  | PosInf, PosInf | NegInf, NegInf | NaN, NaN => True
  | _, _ => False
  end.

(** [xs.reduce((a, b) => a + b, 0)]. *)
Definition sum (xs : list number) : number := fold_left add xs (Fin 0).

End JS.

Import JS.

Declare Scope js_scope.
Delimit Scope js_scope with js.
Bind Scope js_scope with number.
Infix "+" := add : js_scope.
Infix "-" := sub : js_scope.
Infix "*" := mul : js_scope.
Infix "/" := div : js_scope.
Notation "- x" := (neg x) : js_scope.
Infix "<?" := lt : js_scope.
Infix "<=?" := le : js_scope.
Infix ">?" := gt : js_scope.
Infix ">=?" := ge : js_scope.

(* ===================================================================== *)
(** ** types.ts                                                           *)
(* ===================================================================== *)

(** [AMAFFeatureVector]: eight slots, each a number or [null]. *)
Record AMAFFeatureVector : Type := {
  hfer : option number;
  svd : option number;
  pdi : option number;
  tiis : option number;
  fav : option number;
  etk : option number;
  pvss : option number;
  frd : option number
}.

(** [keyof AMAFFeatureVector]. *)
Inductive FeatureKey : Type :=
| Khfer | Ksvd | Kpdi | Ktiis | Kfav | Ketk | Kpvss | Kfrd.

(** [vector[key]]. *)
Definition slot (vector : AMAFFeatureVector) (key : FeatureKey) : option number :=
  match key with
  | Khfer => hfer vector
  | Ksvd => svd vector
  | Kpdi => pdi vector
  | Ktiis => tiis vector
  | Kfav => fav vector
  | Ketk => etk vector
  | Kpvss => pvss vector
  | Kfrd => frd vector
  end.

Inductive AnalysisLevel : Type :=
| level1_lightweight
| level2_deep_spatial
| level3_temporal_crossmodal.

Inductive RiskLevel : Type :=
| low
| suspicious
| harmful
| high_risk.

Inductive SignalCategory : Type :=
| visual | temporal | spectral | semantic | metadata.

Record DetectionSignalOutput : Type := {
  id : string;
  name : string;
  category : SignalCategory;
  confidence : number;
  description : string;
  severity : RiskLevel;
  metricValue : option number
}.

Record SegmentAuthenticity : Type := {
  segmentIndex : number;
  startTime : number;
  endTime : number;
  authenticityScore : number;
  flagged : bool
}.

Inductive Direction : Type :=
| increase
| decrease.

(** [ChangePoint]; its [segmentIndex] (here [cp_segmentIndex]) is an
    array index, an integer. *)
Record ChangePoint : Type := {
  timestamp : number;
  cp_segmentIndex : Z;
  cusumValue : number;
  direction : Direction
}.

Inductive DetectedMediaType : Type :=
| image
| video
| audio
| unknown.

Definition is_image (m : DetectedMediaType) : bool :=
  match m with image => true | _ => false end.
Definition is_video (m : DetectedMediaType) : bool :=
  match m with video => true | _ => false end.
Definition is_audio (m : DetectedMediaType) : bool :=
  match m with audio => true | _ => false end.

(* ===================================================================== *)
(** ** scoring-engine.ts                                                  *)
(* ===================================================================== *)

Module ScoringEngine.

Record FeatureBaseline : Type := {
  mean : number;
  std : number;
  weight : number;
  higherIsSuspicious : bool
}.

Definition FEATURE_BASELINES (key : FeatureKey) : FeatureBaseline :=
  match key with
  | Khfer => {| mean := Fin 0.25; std := Fin 0.08; weight := Fin 0.18; higherIsSuspicious := false |}
  | Ksvd => {| mean := Fin 0.15; std := Fin 0.12; weight := Fin 0.12; higherIsSuspicious := true |}
  | Kpdi => {| mean := Fin 0.008; std := Fin 0.005; weight := Fin 0.14; higherIsSuspicious := true |}
  | Ktiis => {| mean := Fin 0.02; std := Fin 0.015; weight := Fin 0.16; higherIsSuspicious := true |}
  | Kfav => {| mean := Fin 0.2; std := Fin 0.15; weight := Fin 0.10; higherIsSuspicious := true |}
  | Ketk => {| mean := Fin 3.0; std := Fin 2.0; weight := Fin 0.10; higherIsSuspicious := true |}
  | Kpvss => {| mean := Fin 50; std := Fin 30; weight := Fin 0.10; higherIsSuspicious := false |}
  | Kfrd => {| mean := Fin 0.15; std := Fin 0.1; weight := Fin 0.10; higherIsSuspicious := true |}
  end.

(** [Object.keys(FEATURE_BASELINES)], in insertion order. *)
Definition baseline_keys : list FeatureKey :=
  [Khfer; Ksvd; Kpdi; Ktiis; Kfav; Ketk; Kpvss; Kfrd].

Definition normalizeFeature (key : FeatureKey) (value : number) : number :=
  let baseline := FEATURE_BASELINES key in
  let zScore := ((value - mean baseline) / Math_max (std baseline) (Fin 1e-6))%js in
  if higherIsSuspicious baseline
  then Math_max (Fin 0) zScore
  else Math_max (Fin 0) (- zScore)%js.

(** One turn of the loop of [computeEnsembleScore] on the accumulators
    [(weightedSum, totalWeight)]; a [null] slot is skipped. *)
Definition ensemble_step (vector : AMAFFeatureVector)
    (acc : number * number) (key : FeatureKey) : number * number :=
  let '(weightedSum, totalWeight) := acc in
  match slot vector key with
  | None => (weightedSum, totalWeight)
  | Some value =>
      let baseline := FEATURE_BASELINES key in
      let anomalyScore := normalizeFeature key value in
      ((weightedSum + anomalyScore * weight baseline)%js,
       (totalWeight + weight baseline)%js)
  end.

(** The accumulators when the loop ends. *)
Definition ensemble_sums (vector : AMAFFeatureVector) : number * number :=
  fold_left (ensemble_step vector) baseline_keys (Fin 0, Fin 0).

Definition computeEnsembleScore (vector : AMAFFeatureVector) : number :=
  let '(weightedSum, totalWeight) := ensemble_sums vector in
  if (totalWeight >? Fin 0)%js then (weightedSum / totalWeight)%js else Fin 0.

Section Calibration.

Variable Math_exp : number -> number.

Definition plattScale_with (rawScore A B : number) : number :=
  let exponent := (- (A * rawScore + B))%js in
  (Fin 1 / (Fin 1 + Math_exp exponent))%js.

(** [plattScale(rawScore)] with the default coefficients A = 2.5, B = -1.0. *)
Definition plattScale (rawScore : number) : number :=
  plattScale_with rawScore (Fin 2.5) (Fin (-1.0)).

End Calibration.

(** [classifyRisk(probability)].  The argument is a double (one that is
    not stands for the nearest double, as a literal does), and
    [probability * 100] is the double nearest to the product: this is
    what [Math.round] sees.  The comparisons with the thresholds need no
    rounding: no double lies between a threshold and the double of its
    literal. *)
Definition classifyRisk (probability : number) : RiskLevel * number :=
  let riskScore := Math_round (to_double (to_double probability * Fin 100)%js) in
  let riskLevel :=
    if (probability >=? Fin 0.8)%js then high_risk
    else if (probability >=? Fin 0.55)%js then harmful
    else if (probability >=? Fin 0.3)%js then suspicious
    else low in
  (riskLevel, riskScore).

End ScoringEngine.

(* ===================================================================== *)
(** ** confidence-manager.ts                                              *)
(* ===================================================================== *)

Module ConfidenceManager.

Record EscalationDecision : Type := {
  shouldEscalate : bool;
  nextLevel : option AnalysisLevel;
  earlyExit : bool;
  reason : string
}.

Definition is_level1 (l : AnalysisLevel) : bool :=
  match l with level1_lightweight => true | _ => false end.
Definition is_level2 (l : AnalysisLevel) : bool :=
  match l with level2_deep_spatial => true | _ => false end.
Definition is_level3 (l : AnalysisLevel) : bool :=
  match l with level3_temporal_crossmodal => true | _ => false end.

Section Escalation.

(** [x.toFixed(digits)] and the text of a number inside a template
    string: both only feed the [reason] text. *)
Variable toFixed : number -> nat -> string.
Variable String_of_number : number -> string.

(** [evaluateEscalation]; [Math_random] is the value the call of
    [Math.random()] returns, [stableFrameCount] is passed explicitly (the
    source defaults it to 0). *)
Definition evaluateEscalation (Math_random : number)
    (currentLevel : AnalysisLevel) (rawScore fakeProbability : number)
    (vector : AMAFFeatureVector) (stableFrameCount : number) : EscalationDecision :=
  if ((fakeProbability >? Fin 0.95)%js || (fakeProbability <? Fin 0.05)%js)
     && (stableFrameCount >=? Fin 3)%js
  then {| shouldEscalate := false;
          nextLevel := None;
          earlyExit := true;
          reason := "High confidence (" +:+ toFixed (fakeProbability * Fin 100)%js 0
                    +:+ "%) stable over " +:+ String_of_number stableFrameCount
                    +:+ " frames — early exit." |}
  else
    let randomEscalate := (Math_random <? Fin 0.2)%js in
    let isAmbiguous :=
      (fakeProbability >=? Fin 0.25)%js && (fakeProbability <=? Fin 0.75)%js in
    if is_level1 currentLevel && (isAmbiguous || randomEscalate)
    then {| shouldEscalate := true;
            nextLevel := Some level2_deep_spatial;
            earlyExit := false;
            reason :=
              if isAmbiguous
              then "Ambiguous confidence (" +:+ toFixed (fakeProbability * Fin 100)%js 0
                   +:+ "%) — escalating to Level 2 deep spatial analysis."
              else "Randomized deeper sampling triggered — escalating to Level 2." |}
    else if is_level2 currentLevel && (isAmbiguous || randomEscalate)
    then {| shouldEscalate := true;
            nextLevel := Some level3_temporal_crossmodal;
            earlyExit := false;
            reason :=
              if isAmbiguous
              then "Still ambiguous (" +:+ toFixed (fakeProbability * Fin 100)%js 0
                   +:+ "%) after Level 2 — escalating to Level 3 temporal + cross-modal."
              else "Randomized deeper sampling triggered — escalating to Level 3." |}
    else {| shouldEscalate := false;
            nextLevel := None;
            earlyExit := false;
            reason :=
              if is_level3 currentLevel
              then "Maximum analysis depth reached."
              else "Confidence (" +:+ toFixed (fakeProbability * Fin 100)%js 0
                   +:+ "%) sufficient at current level." |}.

End Escalation.


Definition determineStartLevel (mediaType : DetectedMediaType) (fileSize : number)
    : AnalysisLevel :=
  if is_image mediaType && (fileSize <? Fin 500000)%js then level2_deep_spatial
  else if is_video mediaType && (fileSize >? Fin 20000000)%js then level1_lightweight
  else if is_audio mediaType then level2_deep_spatial
  else level1_lightweight.

End ConfidenceManager.

(* ===================================================================== *)
(** ** change-detector.ts                                                 *)
(* ===================================================================== *)

Module ChangeDetector.

(** The variables the loop of [detectChangePoints] updates. *)
Record CusumState : Type := {
  cusumUpper : number;
  cusumLower : number;
  changePoints : list ChangePoint;
  alreadyFlagged : gset nat
}.

Definition cusum_init : CusumState :=
  {| cusumUpper := Fin 0; cusumLower := Fin 0; changePoints := []; alreadyFlagged := ∅ |}.

(** The loop body at index [i], where [segment] is [segments[i]]. *)
Definition cusum_step (mean allowance threshold : number)
    (st : CusumState) (i : nat) (segment : SegmentAuthenticity) : CusumState :=
  let score := authenticityScore segment in
  let upper := Math_max (Fin 0) (cusumUpper st + (mean - score - allowance))%js in
  let lower := Math_max (Fin 0) (cusumLower st + (score - mean - allowance))%js in
  let st1 :=
    if (upper >? threshold)%js && negb (bool_decide (i ∈ alreadyFlagged st))
    then {| cusumUpper := Fin 0;
            cusumLower := lower;
            changePoints := changePoints st ++
              [{| timestamp := startTime segment;
                  cp_segmentIndex := Z.of_nat i;
                  cusumValue := upper;
                  direction := increase |}];
            alreadyFlagged := {[ i ]} ∪ alreadyFlagged st |}
    else {| cusumUpper := upper;
            cusumLower := lower;
            changePoints := changePoints st;
            alreadyFlagged := alreadyFlagged st |} in
  if (cusumLower st1 >? threshold)%js && negb (bool_decide (i ∈ alreadyFlagged st1))
  then {| cusumUpper := cusumUpper st1;
          cusumLower := Fin 0;
          changePoints := changePoints st1 ++
            [{| timestamp := startTime segment;
                cp_segmentIndex := Z.of_nat i;
                cusumValue := cusumLower st1;
                direction := decrease |}];
          alreadyFlagged := {[ i ]} ∪ alreadyFlagged st1 |}
  else st1.

(** The loop from index [i] on, over the segments that remain. *)
Fixpoint cusum_loop (mean allowance threshold : number)
    (st : CusumState) (i : nat) (rest : list SegmentAuthenticity) : CusumState :=
  match rest with
  | [] => st
  | segment :: rest' =>
      cusum_loop mean allowance threshold
        (cusum_step mean allowance threshold st i segment) (S i) rest'
  end.

(** The mean of the authenticity scores. *)
Definition scores_mean (segments : list SegmentAuthenticity) : number :=
  (JS.sum (map authenticityScore segments) / of_nat (length segments))%js.

(** The loop state after the first [k] indices. *)
Definition cusum_after (segments : list SegmentAuthenticity)
    (allowance threshold : number) (k : nat) : CusumState :=
  cusum_loop (scores_mean segments) allowance threshold cusum_init 0 (take k segments).

Definition detectChangePoints (segments : list SegmentAuthenticity)
    (allowance threshold : number) : list ChangePoint :=
  if (length segments <? 3)%nat then []
  else changePoints
         (cusum_loop (scores_mean segments) allowance threshold cusum_init 0 segments).

(** The defaults of [detectChangePoints]. *)
Definition default_allowance : number := Fin 0.1.
Definition default_threshold : number := Fin 0.5.

Definition set_flagged (s : SegmentAuthenticity) : SegmentAuthenticity :=
  {| segmentIndex := segmentIndex s;
     startTime := startTime s;
     endTime := endTime s;
     authenticityScore := authenticityScore s;
     flagged := true |}.

Definition is_increase (d : Direction) : bool :=
  match d with increase => true | decrease => false end.

(** [enriched[i]] for an integer [i]: [None] stands for [undefined]. *)
Definition at_index (enriched : list SegmentAuthenticity) (i : Z)
    : option SegmentAuthenticity :=
  if (i <? 0)%Z then None else enriched !! Z.to_nat i.

(** The inner loop body: reading [.flagged] of [undefined] throws, which
    is [None] here. *)
Definition enrich_at (cp : ChangePoint) (enriched : list SegmentAuthenticity) (i : Z)
    : option (list SegmentAuthenticity) :=
  s ← at_index enriched i;
  if negb (flagged s) && is_increase (direction cp)
  then Some (<[Z.to_nat i := set_flagged s]> enriched)
  else Some enriched.

(** [for (let i = start; i <= end; i++)], counted by the number of turns
    that remain. *)
Fixpoint enrich_range (cp : ChangePoint) (enriched : list SegmentAuthenticity)
    (i : Z) (turns : nat) : option (list SegmentAuthenticity) :=
  match turns with
  | O => Some enriched
  | S turns' =>
      enriched' ← enrich_at cp enriched i;
      enrich_range cp enriched' (i + 1)%Z turns'
  end.

Definition enrich_one (radiusSegments : Z) (enriched : list SegmentAuthenticity)
    (cp : ChangePoint) : option (list SegmentAuthenticity) :=
  let start := Z.max 0 (cp_segmentIndex cp - radiusSegments) in
  let end_ := Z.min (Z.of_nat (length enriched) - 1) (cp_segmentIndex cp + radiusSegments) in
  enrich_range cp enriched start (Z.to_nat (end_ - start + 1)).

Fixpoint enrich_all (radiusSegments : Z) (enriched : list SegmentAuthenticity)
    (cps : list ChangePoint) : option (list SegmentAuthenticity) :=
  match cps with
  | [] => Some enriched
  | cp :: cps' =>
      enriched' ← enrich_one radiusSegments enriched cp;
      enrich_all radiusSegments enriched' cps'
  end.

(** [enrichSegmentsWithChangePoints]; the result is [None] if the source
    would throw.  The copy [segments.map(s => ({...s}))] is the list
    itself, values being immutable here. *)
Definition enrichSegmentsWithChangePoints (segments : list SegmentAuthenticity)
    (changePoints : list ChangePoint) (radiusSegments : Z)
    : option (list SegmentAuthenticity) :=
  enrich_all radiusSegments segments changePoints.

Definition default_radius : Z := 1.

End ChangeDetector.

(* ===================================================================== *)
(** ** Arrays and statistics shared by the extractors                     *)
(* ===================================================================== *)

Module Arr.

(** [xs[i]] used as a number: reading past the end gives [undefined],
    which arithmetic turns into NaN. *)
Definition get (xs : list number) (i : nat) : number := default NaN (xs !! i).

(** [x ** 2] and [x ** 4]. *)
Definition sq (x : number) : number := (x * x)%js.
Definition pow4 (x : number) : number := sq (sq x).

(** [for (i = 1; i < xs.length; i++) out.push(f(xs[i], xs[i - 1]))]. *)
Definition adjacent (f : number -> number -> number) (xs : list number) : list number :=
  zip_with f (tail xs) xs.

(** [xs.reduce((a, b) => a + b, 0) / xs.length]. *)
Definition mean (xs : list number) : number := (JS.sum xs / of_nat (length xs))%js.

(** [xs.reduce((a, b) => a + (b - mean) ** 2, 0) / xs.length]. *)
Definition variance_about (m : number) (xs : list number) : number :=
  (fold_left (fun a b => a + sq (b - m))%js xs (Fin 0) / of_nat (length xs))%js.

Definition variance (xs : list number) : number := variance_about (mean xs) xs.

(** The indices [0, step, 2 step, ...] below [n]: the values of the
    counter of [for (i = 0; i < n; i += step)], for [step > 0]. *)
Definition strided (n step : nat) : list nat :=
  filter (fun i => Nat.eqb (i mod step) 0) (seq 0 n).

(** The values of [start] in
    [for (start = 0; start + size <= extent; start += hop)].
    [fuel] bounds the number of turns; with [hop > 0] the loop makes at
    most [S extent] of them. *)
Fixpoint window_starts (fuel extent size hop start : nat) : list nat :=
  match fuel with
  | O => []
  | S fuel' =>
      if (start + size <=? extent)%nat
      then start :: window_starts fuel' extent size hop (start + hop)
      else []
  end.

Definition windows (extent size hop : nat) : list nat :=
  window_starts (S extent) extent size hop 0.

End Arr.

(* ===================================================================== *)
(** ** audio-detector.ts                                                  *)
(* ===================================================================== *)

Module EnergyTransitionMetrics.
Record t : Type := { etk : number; energyDeltas : list number }.
End EnergyTransitionMetrics.

Module PitchMetrics.
Record t : Type := { pvss : number; pitchContour : list number }.
End PitchMetrics.

Module SpectralFlatnessMetrics.
Record t : Type := { frd : number; flatnessValues : list number }.
End SpectralFlatnessMetrics.

Module AudioDetector.

Import Arr.

(** The start offsets of the analysis frames. *)
Definition frames_of (samples : list number) (frameSize hopSize : nat) : list nat :=
  windows (length samples) frameSize hopSize.

Section Audio.

Variable Math_cos : number -> number.
Variable Math_sin : number -> number.
Variable Math_sqrt : number -> number.
Variable Math_log : number -> number.
Variable Math_exp : number -> number.
Variable Math_PI : number.
Variable toFixed : number -> nat -> string.

Definition hanningWindow (size : nat) : list number :=
  map (fun i =>
         (Fin 0.5 * (Fin 1 - Math_cos ((Fin 2 * Math_PI * of_nat i)
                                        / (of_nat size - Fin 1))))%js)
      (seq 0 size).

(** The magnitude spectrum of the frame that starts at [start]. *)
Definition frame_spectrum (samples window : list number) (frameSize start : nat)
    : list number :=
  let real := map (fun i => (get samples (start + i) * get window i)%js) (seq 0 frameSize) in
  let halfSize := (frameSize / 2)%nat in
  let step := if (512 <? frameSize)%nat then 2%nat else 1%nat in
  map (fun k =>
         let sums :=
           fold_left
             (fun (acc : number * number) n =>
                let angle := ((Fin 2 * Math_PI * of_nat k * of_nat n) / of_nat frameSize)%js in
                ((fst acc + get real n * Math_cos angle)%js,
                 (snd acc - get real n * Math_sin angle)%js))
             (strided frameSize step) (Fin 0, Fin 0) in
         (Math_sqrt (fst sums * fst sums + snd sums * snd sums) * of_nat step)%js)
      (seq 0 halfSize).

(** [computeSTFT(samples, frameSize, hopSize)]; sizes are whole numbers,
    and [hopSize > 0] in every call. *)
Definition computeSTFT (samples : list number) (frameSize hopSize : nat)
    : list (list number) :=
  let window := hanningWindow frameSize in
  map (frame_spectrum samples window frameSize) (frames_of samples frameSize hopSize).

Definition frameEnergy (spectrum : list number) : number :=
  fold_left (fun energy x => (energy + x * x)%js) spectrum (Fin 0).

Definition kurtosis (values : list number) : number :=
  if (length values <? 4)%nat then Fin 0
  else
    let n := of_nat (length values) in
    let mean := (JS.sum values / n)%js in
    let variance := (fold_left (fun a b => a + sq (b - mean))%js values (Fin 0) / n)%js in
    if (variance <? Fin 1e-10)%js then Fin 0
    else
      let m4 := (fold_left (fun a b => a + pow4 (b - mean))%js values (Fin 0) / n)%js in
      (m4 / (variance * variance) - Fin 3)%js.

(** [computeEnergyTransition(samples, frameSize)], for an even
    [frameSize] (it is 1024 wherever the source calls it): the hop
    [frameSize / 2] is then a whole number.  An odd frame size, for which
    the source hops by a fraction, is outside this embedding. *)
Definition computeEnergyTransition (samples : list number) (frameSize : nat)
    : EnergyTransitionMetrics.t :=
  let spectra := computeSTFT samples frameSize (frameSize / 2) in
  let energies := map frameEnergy spectra in
  let deltas := adjacent sub energies in
  let etk := Math_abs (kurtosis deltas) in
  {| EnergyTransitionMetrics.etk := etk; EnergyTransitionMetrics.energyDeltas := deltas |}.

(** The autocorrelation search of one frame: the best normalized
    correlation and its lag, over the lags from [minPeriod] up. *)
Definition best_lag (samples : list number) (frameSize start minPeriod maxLag : nat)
    : number * nat :=
  fold_left
    (fun (best : number * nat) lag =>
       let len := (frameSize - lag)%nat in
       let sums :=
         fold_left
           (fun (acc : number * number * number) i =>
              let '(corr, norm1, norm2) := acc in
              ((corr + get samples (start + i) * get samples (start + i + lag))%js,
               (norm1 + get samples (start + i) * get samples (start + i))%js,
               (norm2 + get samples (start + i + lag) * get samples (start + i + lag))%js))
           (strided len 2) (Fin 0, Fin 0, Fin 0) in
       let '(corr, norm1, norm2) := sums in
       let normFactor := Math_sqrt (norm1 * norm2)%js in
       let normalized := if (normFactor >? Fin 0)%js then (corr / normFactor)%js else Fin 0 in
       if (normalized >? fst best)%js then (normalized, lag) else best)
    (seq minPeriod (maxLag - minPeriod))
    ((- Fin 1)%js, O).

(** [validPitch[i] - 2 * validPitch[i - 1] + validPitch[i - 2]] for
    [i = 2 ..]. *)
Fixpoint second_difference (xs : list number) : list number :=
  match xs with
  | [] => []
  | a :: rest =>
      match rest with
      | b :: c :: _ => (c - Fin 2 * b + a)%js :: second_difference rest
      | _ => []
      end
  end.

(** [computePitchMetrics(samples, sampleRate, frameSize)], for an even
    [frameSize] (2048 in the source), so that the hop is a whole number;
    the sample rate is a whole number of hertz. *)
Definition computePitchMetrics (samples : list number) (sampleRate : N) (frameSize : nat)
    : PitchMetrics.t :=
  let hopSize := (frameSize / 2)%nat in
  let minPeriod := N.to_nat (sampleRate / 500)%N in
  let maxPeriod := N.to_nat (sampleRate / 60)%N in
  let pitchContour :=
    map (fun start =>
           let '(bestCorr, bestPeriod) :=
             best_lag samples frameSize start minPeriod (Nat.min maxPeriod (frameSize / 2)) in
           if (bestCorr >? Fin 0.3)%js && (0 <? bestPeriod)%nat
           then (of_Z (Z.of_N sampleRate) / of_nat bestPeriod)%js
           else Fin 0)
        (frames_of samples frameSize hopSize) in
  let validPitch := filter (fun p => (p >? Fin 0)%js = true) pitchContour in
  if (length validPitch <? 4)%nat
  then {| PitchMetrics.pvss := Fin 0; PitchMetrics.pitchContour := pitchContour |}
  else
    let d2 := second_difference validPitch in
    {| PitchMetrics.pvss := variance d2; PitchMetrics.pitchContour := pitchContour |}.

(** The flatness of one spectrum (bin 0 is left out). *)
Definition flatness (spectrum : list number) : number :=
  let '(logSum, arithmeticSum, count) :=
    fold_left
      (fun (acc : number * number * nat) x =>
         let '(logSum, arithmeticSum, count) := acc in
         let val := Math_max x (Fin 1e-10) in
         ((logSum + Math_log val)%js, (arithmeticSum + val)%js, S count))
      (tail spectrum) (Fin 0, Fin 0, O) in
  if Nat.eqb count 0 || (arithmeticSum <? Fin 1e-10)%js then Fin 0
  else
    let geometricMean := Math_exp (logSum / of_nat count)%js in
    let arithmeticMean := (arithmeticSum / of_nat count)%js in
    (geometricMean / arithmeticMean)%js.

(** [computeSpectralFlatness(samples, frameSize)], for an even
    [frameSize] as in [computeEnergyTransition]. *)
Definition computeSpectralFlatness (samples : list number) (frameSize : nat)
    : SpectralFlatnessMetrics.t :=
  let spectra := computeSTFT samples frameSize (frameSize / 2) in
  let flatnessValues := map flatness spectra in
  let meanFlatness := (JS.sum flatnessValues / of_nat (length flatnessValues))%js in
  let naturalBaseline := Fin 0.1 in
  let frd := (Math_abs (meanFlatness - naturalBaseline) / naturalBaseline)%js in
  {| SpectralFlatnessMetrics.frd := frd;
     SpectralFlatnessMetrics.flatnessValues := flatnessValues |}.

Record AudioAnalysis : Type := {
  energyTransition : EnergyTransitionMetrics.t;
  pitch : PitchMetrics.t;
  spectralFlatness : SpectralFlatnessMetrics.t;
  audio_signals : list DetectionSignalOutput
}.

Definition etk_signal (etk : number) : DetectionSignalOutput :=
  {| id := "audio-etk-high";
     name := "Sharp Energy Transitions";
     category := spectral;
     confidence := Math_min (Fin 0.85) (Fin 0.4 + etk * Fin 0.05)%js;
     description := "Energy Transition Kurtosis of " +:+ toFixed etk 2
       +:+ " indicates sharp, artificial energy transitions typical of synthesized audio.";
     severity := if (etk >? Fin 15)%js then high_risk else suspicious;
     metricValue := Some etk |}.

Definition pvss_signal (pvss : number) : DetectionSignalOutput :=
  {| id := "audio-pvss-smooth";
     name := "Over-Smooth Pitch Contour";
     category := spectral;
     confidence := Math_min (Fin 0.8) (Fin 0.5 + (Fin 5 - pvss) * Fin 0.05)%js;
     description := "Pitch variance smoothness of " +:+ toFixed pvss 2
       +:+ " is unusually low, suggesting text-to-speech synthesis with over-regularized prosody.";
     severity := if (pvss <? Fin 1)%js then harmful else suspicious;
     metricValue := Some pvss |}.

Definition frd_signal (frd : number) : DetectionSignalOutput :=
  {| id := "audio-frd-anomaly";
     name := "Spectral Flatness Anomaly";
     category := spectral;
     confidence := Math_min (Fin 0.75) (Fin 0.3 + frd * Fin 0.3)%js;
     description := "Spectral Flatness Deviation of " +:+ toFixed frd 3
       +:+ " deviates significantly from natural speech patterns.";
     severity := if (frd >? Fin 1.0)%js then harmful else suspicious;
     metricValue := Some frd |}.

(** The signals [analyzeAudio] pushes, given the three metrics. *)
Definition audio_signals_of (energyTransition : EnergyTransitionMetrics.t)
    (pitch : PitchMetrics.t) (spectralFlatness : SpectralFlatnessMetrics.t)
    : list DetectionSignalOutput :=
  let etk := EnergyTransitionMetrics.etk energyTransition in
  let pvss := PitchMetrics.pvss pitch in
  let frd := SpectralFlatnessMetrics.frd spectralFlatness in
  (if (etk >? Fin 5)%js then [etk_signal etk] else [])
  ++ (if (pvss <? Fin 5)%js
         && (10 <? length (filter (fun p => (p >? Fin 0)%js = true)
                                  (PitchMetrics.pitchContour pitch)))%nat
      then [pvss_signal pvss] else [])
  ++ (if (frd >? Fin 0.5)%js then [frd_signal frd] else []).

(** [analyzeAudio(samples, sampleRate)]; the metric functions run with
    their default frame sizes, 1024 and 2048. *)
Definition analyzeAudio (samples : list number) (sampleRate : N) : AudioAnalysis :=
  let energyTransition := computeEnergyTransition samples 1024 in
  let pitch := computePitchMetrics samples sampleRate 2048 in
  let spectralFlatness := computeSpectralFlatness samples 1024 in
  {| energyTransition := energyTransition;
     pitch := pitch;
     spectralFlatness := spectralFlatness;
     audio_signals := audio_signals_of energyTransition pitch spectralFlatness |}.

End Audio.

Definition default_sampleRate : N := 44100.

End AudioDetector.

(* ===================================================================== *)
(** ** image-detector.ts and video-detector.ts                            *)
(* ===================================================================== *)

(** [ImageData]: RGBA bytes, row by row. *)
Record ImageData : Type := {
  data : list Z;
  width : nat;
  height : nat
}.

Module FrequencyMetrics.
Record t : Type := { hfer : number; svd : number }.
End FrequencyMetrics.

Module TextureMetrics.
Record t : Type := { pdi : number; patchScores : list number; gridSize : nat }.
End TextureMetrics.

Module TemporalIdentityMetrics.
Record t : Type := { tiis : number; frameDrifts : list number }.
End TemporalIdentityMetrics.

Module OpticalFlowMetrics.
Record t : Type := { fav : number; flowMagnitudes : list number }.
End OpticalFlowMetrics.

Module ImageDetector.

(** What the byte scan of [analyzeImageMetadata] finds. *)
Record MetadataScan : Type := {
  exifPresent : bool;
  hasBeenEdited : bool;
  compressionAnomalies : bool;
  softwareUsed : option string
}.

Record ImageAnalysis : Type := {
  frequency : FrequencyMetrics.t;
  texture : option TextureMetrics.t;
  image_metadata : MetadataScan;
  image_signals : list DetectionSignalOutput
}.

Section Image.

(** The numeric kernels (the 2D FFT metrics, the patch histograms) and
    the byte scan are parameters: what follows holds whatever they
    return. *)
Variable computeFrequencyMetrics : list Z -> nat -> nat -> FrequencyMetrics.t.
Variable computeTextureMetrics : list Z -> nat -> nat -> TextureMetrics.t.
Variable scanImageMetadata : list Z -> MetadataScan.
Variable toFixed : number -> nat -> string.

(** The signals [analyzeImageMetadata] generates from its scan. *)
Definition metadata_signals (scan : MetadataScan) : list DetectionSignalOutput :=
  (if negb (exifPresent scan)
   then [{| id := "meta-exif-stripped";
            name := "EXIF Metadata Stripped";
            category := metadata;
            confidence := Fin 0.65;
            description := "Image metadata has been intentionally removed, common in manipulated media.";
            severity := suspicious;
            metricValue := None |}]
   else [])
  ++ (if hasBeenEdited scan
      then [{| id := "meta-edited";
               name := "Editing Software Detected";
               category := metadata;
               confidence := Fin 0.7;
               description := "Image shows signs of editing"
                 +:+ match softwareUsed scan with
                     | Some sw => " via " +:+ sw
                     | None => ""
                     end +:+ ".";
               severity := suspicious;
               metricValue := None |}]
      else [])
  ++ (if compressionAnomalies scan
      then [{| id := "meta-recompression";
               name := "Re-Compression Detected";
               category := metadata;
               confidence := Fin 0.55;
               description := "Multiple compression layers detected, suggesting image has been re-saved or manipulated.";
               severity := low;
               metricValue := None |}]
      else []).

Definition hfer_signal (hfer : number) : DetectionSignalOutput :=
  {| id := "freq-hfer-low";
     name := "Suppressed High-Frequency Energy";
     category := visual;
     confidence := Math_min (Fin 0.95) (Fin 0.6 + (Fin 0.15 - hfer) * Fin 3)%js;
     description := "High-frequency energy ratio is " +:+ toFixed (hfer * Fin 100)%js 1
       +:+ "%, well below natural baseline. GAN-generated images typically show suppressed high-frequency noise.";
     severity := if (hfer <? Fin 0.08)%js then high_risk else harmful;
     metricValue := Some hfer |}.

Definition svd_signal (svd : number) : DetectionSignalOutput :=
  {| id := "freq-svd-high";
     name := "Spectral Variance Anomaly";
     category := visual;
     confidence := Math_min (Fin 0.9) (Fin 0.5 + svd * Fin 0.3)%js;
     description := "Spectral variance deviates " +:+ toFixed (svd * Fin 100)%js 0
       +:+ "% from natural image baseline. Synthetic images show abnormal spectral distribution.";
     severity := if (svd >? Fin 1.0)%js then high_risk else suspicious;
     metricValue := Some svd |}.

Definition pdi_signal (pdi : number) : DetectionSignalOutput :=
  {| id := "tex-pdi-high";
     name := "Texture Consistency Drift";
     category := visual;
     confidence := Math_min (Fin 0.85) (Fin 0.5 + pdi * Fin 10)%js;
     description := "Patch Drift Index of " +:+ toFixed pdi 4
       +:+ " indicates inconsistent texture across image regions, suggesting compositing or generation artifacts.";
     severity := if (pdi >? Fin 0.05)%js then harmful else suspicious;
     metricValue := Some pdi |}.

Definition analyzeImage (pixels : list Z) (width height : nat) (buffer : list Z)
    (enableTexture : bool) : ImageAnalysis :=
  let frequency := computeFrequencyMetrics pixels width height in
  let texture :=
    if enableTexture then Some (computeTextureMetrics pixels width height) else None in
  let scan := scanImageMetadata buffer in
  let signals :=
    metadata_signals scan
    ++ (if (FrequencyMetrics.hfer frequency <? Fin 0.15)%js
        then [hfer_signal (FrequencyMetrics.hfer frequency)] else [])
    ++ (if (FrequencyMetrics.svd frequency >? Fin 0.5)%js
        then [svd_signal (FrequencyMetrics.svd frequency)] else [])
    ++ match texture with
       | Some t =>
           if (TextureMetrics.pdi t >? Fin 0.02)%js
           then [pdi_signal (TextureMetrics.pdi t)] else []
       | None => []
       end in
  {| frequency := frequency; texture := texture; image_metadata := scan;
     image_signals := signals |}.

(** [analyzeImageFromBuffer(buffer)] as the pipeline calls it, without
    pixel data. *)
Definition analyzeImageFromBuffer (buffer : list Z) : ImageAnalysis :=
  let scan := scanImageMetadata buffer in
  {| frequency := {| FrequencyMetrics.hfer := Fin 0.5; FrequencyMetrics.svd := Fin 0 |};
     texture := None;
     image_metadata := scan;
     image_signals := metadata_signals scan |}.

End Image.

End ImageDetector.

Module VideoDetector.

Import Arr.

(** A pixel byte used as a number; [undefined] past the end. *)
Definition byte_at (bytes : list Z) (i : nat) : number :=
  match bytes !! i with
  | Some b => of_Z b
  | None => NaN
  end.

Definition toGrayscale (frame : ImageData) : list number :=
  map (fun i =>
         let idx := (i * 4)%nat in
         (Fin 0.299 * byte_at (data frame) idx
          + Fin 0.587 * byte_at (data frame) (idx + 1)
          + Fin 0.114 * byte_at (data frame) (idx + 2))%js)
      (seq 0 (width frame * height frame)).

(** The origins of the blocks along one axis: the values of [b] in
    [for (b = 0; b + blockSize <= extent; b += blockSize)]. *)
Definition block_origins (extent : nat) (blockSize : positive) : list nat :=
  windows extent (Pos.to_nat blockSize) (Pos.to_nat blockSize).

(** The displacements [-searchRange .. searchRange]. *)
Definition displacements (searchRange : Z) : list Z :=
  map (fun k => (Z.of_nat k - searchRange)%Z) (seq 0 (Z.to_nat (2 * searchRange + 1))).

(** The sum of absolute differences between the block of [curr] at
    [(bx, by)] and the block of [prev] at [(px, py)]. *)
Definition sad_at (curr prev : list number) (w blockSize bx by_ px py : nat) : number :=
  fold_left
    (fun sad y =>
       fold_left
         (fun sad x =>
            (sad + Math_abs (get curr ((by_ + y) * w + (bx + x))
                             - get prev ((py + y) * w + (px + x))))%js)
         (seq 0 blockSize) sad)
    (seq 0 blockSize) (Fin 0).

(** The search of one block: the best distance and displacement after
    all candidates, rows of [dy] outermost. *)
Definition best_match (curr prev : list number) (w h blockSize bx by_ : nat)
    : number * Z * Z :=
  fold_left
    (fun best dy =>
       fold_left
         (fun (best : number * Z * Z) dx =>
            let py := (Z.of_nat by_ + dy)%Z in
            let px := (Z.of_nat bx + dx)%Z in
            if (py <? 0)%Z || (Z.of_nat h <? py + Z.of_nat blockSize)%Z
               || (px <? 0)%Z || (Z.of_nat w <? px + Z.of_nat blockSize)%Z
            then best
            else
              let sad := sad_at curr prev w blockSize bx by_ (Z.to_nat px) (Z.to_nat py) in
              if (sad <? fst (fst best))%js then (sad, dx, dy) else best)
         (displacements 4) best)
    (displacements 4) (PosInf, 0%Z, 0%Z).

Section Video.

Variable Math_sqrt : number -> number.
Variable toFixed : number -> nat -> string.
Variable String_of_nat : nat -> string.

(** The flow magnitude of one transition: the mean, over the blocks of
    the current frame, of the length of the best displacement. *)
Definition flow_magnitude (prevFrame currFrame : ImageData) (blockSize : positive) : number :=
  let prev := toGrayscale prevFrame in
  let curr := toGrayscale currFrame in
  let w := width currFrame in
  let h := height currFrame in
  let '(totalFlow, blockCount) :=
    fold_left
      (fun acc by_ =>
         fold_left
           (fun (acc : number * nat) bx =>
              let '(_, bestDx, bestDy) :=
                best_match curr prev w h (Pos.to_nat blockSize) bx by_ in
              ((fst acc + Math_sqrt (of_Z bestDx * of_Z bestDx + of_Z bestDy * of_Z bestDy))%js,
               S (snd acc)))
           (block_origins w blockSize) acc)
      (block_origins h blockSize) (Fin 0, O) in
  if (0 <? blockCount)%nat then (totalFlow / of_nat blockCount)%js else Fin 0.

(** [flowMagnitudes]: one magnitude per pair of consecutive frames. *)
Fixpoint flow_magnitudes (frames : list ImageData) (blockSize : positive) : list number :=
  match frames with
  | [] => []
  | prevFrame :: rest =>
      match rest with
      | [] => []
      | currFrame :: _ =>
          flow_magnitude prevFrame currFrame blockSize :: flow_magnitudes rest blockSize
      end
  end.

Definition computeOpticalFlow (frames : list ImageData) (blockSize : positive)
    : OpticalFlowMetrics.t :=
  if (length frames <? 3)%nat
  then {| OpticalFlowMetrics.fav := Fin 0; OpticalFlowMetrics.flowMagnitudes := [] |}
  else
    let flowMagnitudes := flow_magnitudes frames blockSize in
    let accelerations := adjacent (fun cur prev => Math_abs (cur - prev)%js) flowMagnitudes in
    if Nat.eqb (length accelerations) 0
    then {| OpticalFlowMetrics.fav := Fin 0;
            OpticalFlowMetrics.flowMagnitudes := flowMagnitudes |}
    else
      let mean := (JS.sum accelerations / of_nat (length accelerations))%js in
      let fav :=
        (fold_left (fun a b => a + sq (b - mean))%js accelerations (Fin 0)
         / of_nat (length accelerations))%js in
      {| OpticalFlowMetrics.fav := fav; OpticalFlowMetrics.flowMagnitudes := flowMagnitudes |}.

Definition default_blockSize : positive := 16.

(** The kernels no property below looks into are parameters. *)
Variable computeFrequencyMetrics : list Z -> nat -> nat -> FrequencyMetrics.t.
Variable computeTextureMetrics : list Z -> nat -> nat -> TextureMetrics.t.
Variable computeTemporalIdentity : list ImageData -> TemporalIdentityMetrics.t.
Variable computeSegmentAuthenticity : list ImageData -> list SegmentAuthenticity.

Record VideoAnalysis : Type := {
  frequency : option FrequencyMetrics.t;
  texture : option TextureMetrics.t;
  temporalIdentity : TemporalIdentityMetrics.t;
  opticalFlow : option OpticalFlowMetrics.t;
  segments : list SegmentAuthenticity;
  video_signals : list DetectionSignalOutput
}.

Definition freq_anomaly_signal (hfer : number) : DetectionSignalOutput :=
  {| id := "vid-freq-anomaly";
     name := "Frequency Anomaly in Key Frame";
     category := visual;
     confidence := Math_min (Fin 0.9) (Fin 0.5 + (Fin 0.15 - hfer) * Fin 4)%js;
     description := "Key frame analysis shows suppressed high-frequency energy ("
       +:+ toFixed (hfer * Fin 100)%js 1 +:+ "%), suggesting synthetic generation.";
     severity := if (hfer <? Fin 0.08)%js then high_risk else harmful;
     metricValue := Some hfer |}.

Definition tiis_signal (tiis : number) : DetectionSignalOutput :=
  {| id := "vid-tiis-high";
     name := "Temporal Identity Instability";
     category := temporal;
     confidence := Math_min (Fin 0.9) (Fin 0.4 + tiis * Fin 5)%js;
     description := "Identity embedding drift score of " +:+ toFixed tiis 4
       +:+ " indicates frame-to-frame inconsistency, characteristic of deepfaked faces.";
     severity := if (tiis >? Fin 0.1)%js then high_risk else suspicious;
     metricValue := Some tiis |}.

Definition fav_signal (fav : number) : DetectionSignalOutput :=
  {| id := "vid-fav-high";
     name := "Motion Smoothness Anomaly";
     category := temporal;
     confidence := Math_min (Fin 0.85) (Fin 0.3 + fav * Fin 0.5)%js;
     description := "Flow Acceleration Variance of " +:+ toFixed fav 3
       +:+ " indicates unnatural motion patterns between frames.";
     severity := if (fav >? Fin 1.5)%js then harmful else suspicious;
     metricValue := Some fav |}.

Definition segment_flags_signal (flaggedCount total : nat) : DetectionSignalOutput :=
  {| id := "vid-segment-flags";
     name := "Suspicious Video Segments";
     category := temporal;
     confidence :=
       Math_min (Fin 0.8) (Fin 0.4 + (of_nat flaggedCount / of_nat total) * Fin 0.5)%js;
     description := String_of_nat flaggedCount +:+ " of " +:+ String_of_nat total
       +:+ " video segments flagged as potentially manipulated.";
     severity := if (of_nat flaggedCount >? of_nat total / Fin 2)%js
                 then harmful else suspicious;
     metricValue := None |}.

(** [frames.filter((_, i) => i % Math.ceil(frames.length / 10) === 0)]. *)
Definition subsample (frames : list ImageData) : list ImageData :=
  let stride := ((length frames + 9) / 10)%nat in
  omap (fun '(i, frame) => if Nat.eqb (i mod stride) 0 then Some frame else None)
       (imap pair frames).

Definition analyzeVideo (frames : list ImageData) (enableTexture enableOpticalFlow : bool)
    : VideoAnalysis :=
  let frequency :=
    match frames !! (length frames / 2)%nat with
    | Some midFrame =>
        Some (computeFrequencyMetrics (data midFrame) (width midFrame) (height midFrame))
    | None => None
    end in
  let texture :=
    match frames !! (length frames / 2)%nat with
    | Some midFrame =>
        if enableTexture
        then Some (computeTextureMetrics (data midFrame) (width midFrame) (height midFrame))
        else None
    | None => None
    end in
  let signals1 :=
    match frequency with
    | Some f =>
        if (FrequencyMetrics.hfer f <? Fin 0.15)%js
        then [freq_anomaly_signal (FrequencyMetrics.hfer f)] else []
    | None => []
    end in
  let temporalIdentity := computeTemporalIdentity frames in
  let signals2 :=
    if (TemporalIdentityMetrics.tiis temporalIdentity >? Fin 0.05)%js
    then [tiis_signal (TemporalIdentityMetrics.tiis temporalIdentity)] else [] in
  let opticalFlow :=
    if enableOpticalFlow && (3 <=? length frames)%nat
    then Some (computeOpticalFlow
                 (if (10 <? length frames)%nat then subsample frames else frames)
                 default_blockSize)
    else None in
  let signals3 :=
    match opticalFlow with
    | Some o =>
        if (OpticalFlowMetrics.fav o >? Fin 0.5)%js
        then [fav_signal (OpticalFlowMetrics.fav o)] else []
    | None => []
    end in
  let segments := computeSegmentAuthenticity frames in
  let flaggedSegments := filter (fun s => flagged s = true) segments in
  let signals4 :=
    if (0 <? length flaggedSegments)%nat
    then [segment_flags_signal (length flaggedSegments) (length segments)] else [] in
  {| frequency := frequency; texture := texture; temporalIdentity := temporalIdentity;
     opticalFlow := opticalFlow; segments := segments;
     video_signals := signals1 ++ signals2 ++ signals3 ++ signals4 |}.

End Video.

End VideoDetector.

(* ===================================================================== *)
(** ** Concrete stand-ins for the parameters                              *)
(* ===================================================================== *)

(** Rational approximations of the [Math] functions and simple renderers,
    with which the model runs on concrete inputs.  [Approx.sqrt] is exact
    wherever the root is a dyadic rational with at most 52 fractional
    bits, in particular on 0 and 1. *)
Module Approx.

Definition sqrt (a : number) : number :=
  match a with
  | Fin q =>
      if Qltb q 0 then NaN
      else Fin (Qred (Z.sqrt (Qfloor (q * inject_Z (2 ^ 104))) # 2 ^ 52))
  | PosInf => PosInf
  | NegInf | NaN => NaN
  end.

(** The Taylor polynomial of [exp] of degree 16 at 0. *)
Definition exp (a : number) : number :=
  match a with
  | Fin q =>
      Fin (Qred (fst (fold_left
                        (fun (acc : Q * Q) k =>
                           let term := snd acc * q / inject_Z (Z.of_nat k) in
                           (fst acc + term, term))
                        (seq 1 16) (1, 1))))
  | PosInf => PosInf
  | NegInf => Fin 0
  | NaN => NaN
  end.

(** Taylor polynomials of [cos] and [sin] of degree 16 and 17 at 0. *)
Definition trig_series (first : Q) (start : nat) (q : Q) : Q :=
  fst (fold_left
         (fun (acc : Q * Q) k =>
            let term :=
              - snd acc * q * q / inject_Z (Z.of_nat ((start + 2 * k - 1) * (start + 2 * k))) in
            (fst acc + term, term))
         (seq 1 8) (first, first)).

Definition cos (a : number) : number :=
  match a with
  | Fin q => Fin (Qred (trig_series 1 0 q))
  | _ => NaN
  end.

Definition sin (a : number) : number :=
  match a with
  | Fin q => Fin (Qred (trig_series q 1 q))
  | _ => NaN
  end.

(** [log x] as [2 artanh ((x - 1) / (x + 1))], eight terms of the series. *)
Definition log (a : number) : number :=
  match a with
  | Fin q =>
      if Qltb q 0 then NaN
      else if Qeq_bool q 0 then NegInf
      else
        let y := (q - 1) / (q + 1) in
        Fin (Qred (2 * fst (fold_left
                              (fun (acc : Q * Q) k =>
                                 let power := snd acc * y * y in
                                 (fst acc + power / inject_Z (Z.of_nat (2 * k + 1)), power))
                              (seq 1 7) (y, y))))
  | PosInf => PosInf
  | NegInf | NaN => NaN
  end.

Definition PI : number := Fin 3.14159265358979.

Definition toFixed (a : number) (digits : nat) : string :=
  match Math_floor (a * of_Z (10 ^ Z.of_nat digits) + Fin 0.5)%js with
  | Fin q => pretty (Qnum q) +:+ "e-" +:+ pretty digits
  | PosInf => "Infinity"
  | NegInf => "-Infinity"
  | NaN => "NaN"
  end.

Definition String_of_number (a : number) : string :=
  match a with
  | Fin q => pretty (Qnum q) +:+ "/" +:+ pretty (Zpos (Qden q))
  | PosInf => "Infinity"
  | NegInf => "-Infinity"
  | NaN => "NaN"
  end.

Definition String_of_nat (n : nat) : string := pretty n.

End Approx.

(* ===================================================================== *)
(** ** pipeline.ts                                                        *)
(* ===================================================================== *)

Module Pipeline.

Import ScoringEngine ConfidenceManager ChangeDetector.

(** What [routeMedia] hands to the pipeline. *)
Record MediaRouteDecision : Type := {
  mediaType : DetectedMediaType;
  mimeType : string;
  fileName : string;
  fileSize : number;
  frames : option (list ImageData);
  audioBuffer : option (list number);
  imageData : option ImageData;
  rawBuffer : list Z
}.

Record AMAFAnalysisResult : Type := {
  featureVector : AMAFFeatureVector;
  fakeProbability : number;
  calibratedProbability : number;
  riskLevel : RiskLevel;
  riskScore : number;
  analysisLevel : AnalysisLevel;
  earlyExit : bool;
  frequencyMetrics : option FrequencyMetrics.t;
  textureMetrics : option TextureMetrics.t;
  temporalIdentityMetrics : option TemporalIdentityMetrics.t;
  opticalFlowMetrics : option OpticalFlowMetrics.t;
  energyTransitionMetrics : option EnergyTransitionMetrics.t;
  pitchMetrics : option PitchMetrics.t;
  spectralFlatnessMetrics : option SpectralFlatnessMetrics.t;
  segments : list SegmentAuthenticity;
  changePoints : list ChangePoint;
  processingTimeMs : number;
  signals : list DetectionSignalOutput
}.

(** The [Math] functions, the number renderers and the numeric kernels
    the pipeline relies on. *)
Record Platform : Type := {
  Math_exp : number -> number;
  Math_sqrt : number -> number;
  Math_cos : number -> number;
  Math_sin : number -> number;
  Math_log : number -> number;
  Math_PI : number;
  toFixed : number -> nat -> string;
  String_of_number : number -> string;
  String_of_nat : nat -> string;
  computeFrequencyMetrics : list Z -> nat -> nat -> FrequencyMetrics.t;
  computeTextureMetrics : list Z -> nat -> nat -> TextureMetrics.t;
  scanImageMetadata : list Z -> ImageDetector.MetadataScan;
  computeTemporalIdentity : list ImageData -> TemporalIdentityMetrics.t;
  computeSegmentAuthenticity : list ImageData -> list SegmentAuthenticity
}.

(** The local variables of [runPipeline]. *)
Record Run : Type := {
  run_featureVector : AMAFFeatureVector;
  run_signals : list DetectionSignalOutput;
  run_segments : list SegmentAuthenticity;
  run_changePoints : list ChangePoint;
  run_currentLevel : AnalysisLevel;
  run_earlyExit : bool;
  run_frequencyMetrics : option FrequencyMetrics.t;
  run_textureMetrics : option TextureMetrics.t;
  run_temporalIdentityMetrics : option TemporalIdentityMetrics.t;
  run_opticalFlowMetrics : option OpticalFlowMetrics.t;
  run_energyTransitionMetrics : option EnergyTransitionMetrics.t;
  run_pitchMetrics : option PitchMetrics.t;
  run_spectralFlatnessMetrics : option SpectralFlatnessMetrics.t
}.

Definition set_hfer_svd (v : AMAFFeatureVector) (f : FrequencyMetrics.t) : AMAFFeatureVector :=
  {| hfer := Some (FrequencyMetrics.hfer f); svd := Some (FrequencyMetrics.svd f);
     pdi := pdi v; tiis := tiis v; fav := fav v; etk := etk v; pvss := pvss v; frd := frd v |}.
Definition set_pdi (v : AMAFFeatureVector) (x : number) : AMAFFeatureVector :=
  {| hfer := hfer v; svd := svd v; pdi := Some x; tiis := tiis v; fav := fav v;
     etk := etk v; pvss := pvss v; frd := frd v |}.
Definition set_tiis (v : AMAFFeatureVector) (x : number) : AMAFFeatureVector :=
  {| hfer := hfer v; svd := svd v; pdi := pdi v; tiis := Some x; fav := fav v;
     etk := etk v; pvss := pvss v; frd := frd v |}.
Definition set_fav (v : AMAFFeatureVector) (x : number) : AMAFFeatureVector :=
  {| hfer := hfer v; svd := svd v; pdi := pdi v; tiis := tiis v; fav := Some x;
     etk := etk v; pvss := pvss v; frd := frd v |}.
Definition set_etk (v : AMAFFeatureVector) (x : number) : AMAFFeatureVector :=
  {| hfer := hfer v; svd := svd v; pdi := pdi v; tiis := tiis v; fav := fav v;
     etk := Some x; pvss := pvss v; frd := frd v |}.
Definition set_pvss (v : AMAFFeatureVector) (x : number) : AMAFFeatureVector :=
  {| hfer := hfer v; svd := svd v; pdi := pdi v; tiis := tiis v; fav := fav v;
     etk := etk v; pvss := Some x; frd := frd v |}.
Definition set_frd (v : AMAFFeatureVector) (x : number) : AMAFFeatureVector :=
  {| hfer := hfer v; svd := svd v; pdi := pdi v; tiis := tiis v; fav := fav v;
     etk := etk v; pvss := pvss v; frd := Some x |}.

(** The merge loop: a new signal is pushed only if its id is not in
    [existingIds], the set of the ids already in [signals]. *)
Definition merge_step (acc : list DetectionSignalOutput * gset string)
    (sig : DetectionSignalOutput) : list DetectionSignalOutput * gset string :=
  if bool_decide (id sig ∈ snd acc) then acc
  else (fst acc ++ [sig], {[ id sig ]} ∪ snd acc).

Definition merge_signals (signals news : list DetectionSignalOutput)
    : list DetectionSignalOutput :=
  fst (fold_left merge_step news (signals, list_to_set (map id signals))).

Section Orchestrator.

Variable P : Platform.

(** [scoreFeatureVector], without the explanation text, which
    [runPipeline] drops. *)
Definition scoreFeatureVector (vector : AMAFFeatureVector)
    : number * number * RiskLevel * number :=
  let rawScore := computeEnsembleScore vector in
  let fakeProbability := plattScale (Math_exp P) rawScore in
  let '(riskLevel, riskScore) := classifyRisk fakeProbability in
  (rawScore, fakeProbability, riskLevel, riskScore).

Definition analyzeImage :=
  ImageDetector.analyzeImage (computeFrequencyMetrics P) (computeTextureMetrics P)
    (scanImageMetadata P) (toFixed P).
Definition analyzeImageFromBuffer :=
  ImageDetector.analyzeImageFromBuffer (scanImageMetadata P).
Definition analyzeVideo :=
  VideoDetector.analyzeVideo (Math_sqrt P) (toFixed P) (String_of_nat P)
    (computeFrequencyMetrics P) (computeTextureMetrics P)
    (computeTemporalIdentity P) (computeSegmentAuthenticity P).
Definition analyzeAudio (samples : list number) :=
  AudioDetector.analyzeAudio (Math_cos P) (Math_sin P) (Math_sqrt P) (Math_log P)
    (Math_exp P) (Math_PI P) (toFixed P) samples AudioDetector.default_sampleRate.
Definition computeEnergyTransition (samples : list number) :=
  AudioDetector.computeEnergyTransition (Math_cos P) (Math_sin P) (Math_sqrt P)
    (Math_PI P) samples 1024.
(** [evaluateEscalation] as the pipeline calls it: without a fifth
    argument, so [stableFrameCount] takes its default 0. *)
Definition escalate (Math_random : number) (level : AnalysisLevel)
    (vector : AMAFFeatureVector) : EscalationDecision :=
  let '(rawScore, fakeProbability, _, _) := scoreFeatureVector vector in
  evaluateEscalation (toFixed P) (String_of_number P) Math_random level
    rawScore fakeProbability vector (Fin 0).

(** [route.frames && route.frames.length > 0]. *)
Definition some_frames (route : MediaRouteDecision) : option (list ImageData) :=
  match frames route with
  | Some (f :: fs) => Some (f :: fs)
  | _ => None
  end.

Definition initial (route : MediaRouteDecision) : Run :=
  {| run_featureVector :=
       {| hfer := None; svd := None; pdi := None; tiis := None; fav := None;
          etk := None; pvss := None; frd := None |};
     run_signals := [];
     run_segments := [];
     run_changePoints := [];
     run_currentLevel := determineStartLevel (mediaType route) (fileSize route);
     run_earlyExit := false;
     run_frequencyMetrics := None;
     run_textureMetrics := None;
     run_temporalIdentityMetrics := None;
     run_opticalFlowMetrics := None;
     run_energyTransitionMetrics := None;
     run_pitchMetrics := None;
     run_spectralFlatnessMetrics := None |}.

(** Level 1, image branch. *)
Definition level1_image (route : MediaRouteDecision) (st : Run) : Run :=
  if is_image (mediaType route) then
    let imgResult :=
      match imageData route with
      | Some img => analyzeImage (data img) (width img) (height img) (rawBuffer route) false
      | None => analyzeImageFromBuffer (rawBuffer route)
      end in
    {| run_featureVector :=
         set_hfer_svd (run_featureVector st) (ImageDetector.frequency imgResult);
       run_signals := run_signals st ++ ImageDetector.image_signals imgResult;
       run_segments := run_segments st;
       run_changePoints := run_changePoints st;
       run_currentLevel := run_currentLevel st;
       run_earlyExit := run_earlyExit st;
       run_frequencyMetrics := Some (ImageDetector.frequency imgResult);
       run_textureMetrics := run_textureMetrics st;
       run_temporalIdentityMetrics := run_temporalIdentityMetrics st;
       run_opticalFlowMetrics := run_opticalFlowMetrics st;
       run_energyTransitionMetrics := run_energyTransitionMetrics st;
       run_pitchMetrics := run_pitchMetrics st;
       run_spectralFlatnessMetrics := run_spectralFlatnessMetrics st |}
  else st.

(** Level 1, video branch. *)
Definition level1_video (route : MediaRouteDecision) (st : Run) : Run :=
  match (if is_video (mediaType route) then some_frames route else None) with
  | Some frames =>
      let vidResult := analyzeVideo frames false false in
      let vector :=
        match VideoDetector.frequency vidResult with
        | Some f => set_hfer_svd (run_featureVector st) f
        | None => run_featureVector st
        end in
      {| run_featureVector :=
           set_tiis vector
             (TemporalIdentityMetrics.tiis (VideoDetector.temporalIdentity vidResult));
         run_signals := run_signals st ++ VideoDetector.video_signals vidResult;
         run_segments := VideoDetector.segments vidResult;
         run_changePoints := run_changePoints st;
         run_currentLevel := run_currentLevel st;
         run_earlyExit := run_earlyExit st;
         run_frequencyMetrics :=
           match VideoDetector.frequency vidResult with
           | Some f => Some f
           | None => run_frequencyMetrics st
           end;
         run_textureMetrics := run_textureMetrics st;
         run_temporalIdentityMetrics := Some (VideoDetector.temporalIdentity vidResult);
         run_opticalFlowMetrics := run_opticalFlowMetrics st;
         run_energyTransitionMetrics := run_energyTransitionMetrics st;
         run_pitchMetrics := run_pitchMetrics st;
         run_spectralFlatnessMetrics := run_spectralFlatnessMetrics st |}
  | None => st
  end.

(** Level 1, audio branch: the energy metric only, and no signal. *)
Definition level1_audio (route : MediaRouteDecision) (st : Run) : Run :=
  match (if is_audio (mediaType route) then audioBuffer route else None) with
  | Some samples =>
      let etk := computeEnergyTransition samples in
      {| run_featureVector :=
           set_etk (run_featureVector st) (EnergyTransitionMetrics.etk etk);
         run_signals := run_signals st;
         run_segments := run_segments st;
         run_changePoints := run_changePoints st;
         run_currentLevel := run_currentLevel st;
         run_earlyExit := run_earlyExit st;
         run_frequencyMetrics := run_frequencyMetrics st;
         run_textureMetrics := run_textureMetrics st;
         run_temporalIdentityMetrics := run_temporalIdentityMetrics st;
         run_opticalFlowMetrics := run_opticalFlowMetrics st;
         run_energyTransitionMetrics := Some etk;
         run_pitchMetrics := run_pitchMetrics st;
         run_spectralFlatnessMetrics := run_spectralFlatnessMetrics st |}
  | None => st
  end.

Definition with_level (st : Run) (level : AnalysisLevel) (exit : bool) : Run :=
  {| run_featureVector := run_featureVector st;
     run_signals := run_signals st;
     run_segments := run_segments st;
     run_changePoints := run_changePoints st;
     run_currentLevel := level;
     run_earlyExit := exit;
     run_frequencyMetrics := run_frequencyMetrics st;
     run_textureMetrics := run_textureMetrics st;
     run_temporalIdentityMetrics := run_temporalIdentityMetrics st;
     run_opticalFlowMetrics := run_opticalFlowMetrics st;
     run_energyTransitionMetrics := run_energyTransitionMetrics st;
     run_pitchMetrics := run_pitchMetrics st;
     run_spectralFlatnessMetrics := run_spectralFlatnessMetrics st |}.

(** The Level 1 block; its guard on [currentLevel] holds of every level. *)
Definition level1 (route : MediaRouteDecision) (random1 : number) (st : Run) : Run :=
  let st := level1_audio route (level1_video route (level1_image route st)) in
  let escalation := escalate random1 level1_lightweight (run_featureVector st) in
  if ConfidenceManager.earlyExit escalation
  then with_level st level1_lightweight true
  else if shouldEscalate escalation && is_level1 (run_currentLevel st)
  then with_level st level2_deep_spatial (run_earlyExit st)
  else st.

(** Level 2, image branch (needs the pixel data). *)
Definition level2_image (route : MediaRouteDecision) (st : Run) : Run :=
  match (if is_image (mediaType route) then imageData route else None) with
  | Some img =>
      let imgResult :=
        analyzeImage (data img) (width img) (height img) (rawBuffer route) true in
      {| run_featureVector :=
           match ImageDetector.texture imgResult with
           | Some t => set_pdi (run_featureVector st) (TextureMetrics.pdi t)
           | None => run_featureVector st
           end;
         run_signals := merge_signals (run_signals st) (ImageDetector.image_signals imgResult);
         run_segments := run_segments st;
         run_changePoints := run_changePoints st;
         run_currentLevel := run_currentLevel st;
         run_earlyExit := run_earlyExit st;
         run_frequencyMetrics := run_frequencyMetrics st;
         run_textureMetrics :=
           match ImageDetector.texture imgResult with
           | Some t => Some t
           | None => run_textureMetrics st
           end;
         run_temporalIdentityMetrics := run_temporalIdentityMetrics st;
         run_opticalFlowMetrics := run_opticalFlowMetrics st;
         run_energyTransitionMetrics := run_energyTransitionMetrics st;
         run_pitchMetrics := run_pitchMetrics st;
         run_spectralFlatnessMetrics := run_spectralFlatnessMetrics st |}
  | None => st
  end.

(** Level 2, video branch. *)
Definition level2_video (route : MediaRouteDecision) (st : Run) : Run :=
  match (if is_video (mediaType route) then some_frames route else None) with
  | Some frames =>
      let vidResult := analyzeVideo frames true false in
      let vector :=
        match VideoDetector.texture vidResult with
        | Some t => set_pdi (run_featureVector st) (TextureMetrics.pdi t)
        | None => run_featureVector st
        end in
      {| run_featureVector :=
           match run_temporalIdentityMetrics st with
           | Some _ => vector
           | None =>
               set_tiis vector
                 (TemporalIdentityMetrics.tiis (VideoDetector.temporalIdentity vidResult))
           end;
         run_signals := merge_signals (run_signals st) (VideoDetector.video_signals vidResult);
         run_segments := VideoDetector.segments vidResult;
         run_changePoints := run_changePoints st;
         run_currentLevel := run_currentLevel st;
         run_earlyExit := run_earlyExit st;
         run_frequencyMetrics := run_frequencyMetrics st;
         run_textureMetrics :=
           match VideoDetector.texture vidResult with
           | Some t => Some t
           | None => run_textureMetrics st
           end;
         run_temporalIdentityMetrics :=
           match run_temporalIdentityMetrics st with
           | Some m => Some m
           | None => Some (VideoDetector.temporalIdentity vidResult)
           end;
         run_opticalFlowMetrics := run_opticalFlowMetrics st;
         run_energyTransitionMetrics := run_energyTransitionMetrics st;
         run_pitchMetrics := run_pitchMetrics st;
         run_spectralFlatnessMetrics := run_spectralFlatnessMetrics st |}
  | None => st
  end.

(** Level 2, audio branch: whenever the route carries an audio buffer;
    the audio signals are pushed as they are. *)
Definition level2_audio (route : MediaRouteDecision) (st : Run) : Run :=
  match audioBuffer route with
  | Some samples =>
      let audioResult := analyzeAudio samples in
      let energyTransition := AudioDetector.energyTransition audioResult in
      let pitch := AudioDetector.pitch audioResult in
      let spectralFlatness := AudioDetector.spectralFlatness audioResult in
      {| run_featureVector :=
           set_frd
             (set_pvss
                (set_etk (run_featureVector st) (EnergyTransitionMetrics.etk energyTransition))
                (PitchMetrics.pvss pitch))
             (SpectralFlatnessMetrics.frd spectralFlatness);
         run_signals := run_signals st ++ AudioDetector.audio_signals audioResult;
         run_segments := run_segments st;
         run_changePoints := run_changePoints st;
         run_currentLevel := run_currentLevel st;
         run_earlyExit := run_earlyExit st;
         run_frequencyMetrics := run_frequencyMetrics st;
         run_textureMetrics := run_textureMetrics st;
         run_temporalIdentityMetrics := run_temporalIdentityMetrics st;
         run_opticalFlowMetrics := run_opticalFlowMetrics st;
         run_energyTransitionMetrics := Some energyTransition;
         run_pitchMetrics := Some pitch;
         run_spectralFlatnessMetrics := Some spectralFlatness |}
  | None => st
  end.

Definition level2 (route : MediaRouteDecision) (random2 : number) (st : Run) : Run :=
  if negb (run_earlyExit st)
     && (is_level2 (run_currentLevel st) || is_level3 (run_currentLevel st))
  then
    let st := level2_audio route (level2_video route (level2_image route st)) in
    let escalation := escalate random2 level2_deep_spatial (run_featureVector st) in
    if ConfidenceManager.earlyExit escalation
    then with_level st (run_currentLevel st) true
    else if shouldEscalate escalation
    then with_level st level3_temporal_crossmodal (run_earlyExit st)
    else st
  else st.

(** Level 3, video branch (at least 3 frames). *)
Definition level3_video (route : MediaRouteDecision) (st : Run) : Run :=
  match (if is_video (mediaType route) then frames route else None) with
  | Some frames =>
      if (3 <=? length frames)%nat then
        let vidResult := analyzeVideo frames true true in
        {| run_featureVector :=
             match VideoDetector.opticalFlow vidResult with
             | Some o => set_fav (run_featureVector st) (OpticalFlowMetrics.fav o)
             | None => run_featureVector st
             end;
           run_signals := merge_signals (run_signals st) (VideoDetector.video_signals vidResult);
           run_segments := VideoDetector.segments vidResult;
           run_changePoints := run_changePoints st;
           run_currentLevel := run_currentLevel st;
           run_earlyExit := run_earlyExit st;
           run_frequencyMetrics := run_frequencyMetrics st;
           run_textureMetrics := run_textureMetrics st;
           run_temporalIdentityMetrics := run_temporalIdentityMetrics st;
           run_opticalFlowMetrics :=
             match VideoDetector.opticalFlow vidResult with
             | Some o => Some o
             | None => run_opticalFlowMetrics st
             end;
           run_energyTransitionMetrics := run_energyTransitionMetrics st;
           run_pitchMetrics := run_pitchMetrics st;
           run_spectralFlatnessMetrics := run_spectralFlatnessMetrics st |}
      else st
  | None => st
  end.

Definition cusum_signal (count : nat) : DetectionSignalOutput :=
  {| id := "cusum-changepoints";
     name := "Partial Manipulation Detected";
     category := temporal;
     confidence := Math_min (Fin 0.9) (Fin 0.5 + of_nat count * Fin 0.15)%js;
     description := "CUSUM analysis detected " +:+ String_of_nat P count
       +:+ " change point(s) in authenticity, suggesting partial manipulation of specific segments.";
     severity := if (2 <? count)%nat then high_risk else harmful;
     metricValue := None |}.

(** Level 3, change detection; [None] if the enrichment throws. *)
Definition level3_cusum (st : Run) : option Run :=
  if (3 <=? length (run_segments st))%nat then
    let changePoints :=
      detectChangePoints (run_segments st) default_allowance default_threshold in
    if (0 <? length changePoints)%nat then
      segments ← enrichSegmentsWithChangePoints (run_segments st) changePoints default_radius;
      Some {| run_featureVector := run_featureVector st;
              run_signals := run_signals st ++ [cusum_signal (length changePoints)];
              run_segments := segments;
              run_changePoints := changePoints;
              run_currentLevel := run_currentLevel st;
              run_earlyExit := run_earlyExit st;
              run_frequencyMetrics := run_frequencyMetrics st;
              run_textureMetrics := run_textureMetrics st;
              run_temporalIdentityMetrics := run_temporalIdentityMetrics st;
              run_opticalFlowMetrics := run_opticalFlowMetrics st;
              run_energyTransitionMetrics := run_energyTransitionMetrics st;
              run_pitchMetrics := run_pitchMetrics st;
              run_spectralFlatnessMetrics := run_spectralFlatnessMetrics st |}
    else
      Some {| run_featureVector := run_featureVector st;
              run_signals := run_signals st;
              run_segments := run_segments st;
              run_changePoints := changePoints;
              run_currentLevel := run_currentLevel st;
              run_earlyExit := run_earlyExit st;
              run_frequencyMetrics := run_frequencyMetrics st;
              run_textureMetrics := run_textureMetrics st;
              run_temporalIdentityMetrics := run_temporalIdentityMetrics st;
              run_opticalFlowMetrics := run_opticalFlowMetrics st;
              run_energyTransitionMetrics := run_energyTransitionMetrics st;
              run_pitchMetrics := run_pitchMetrics st;
              run_spectralFlatnessMetrics := run_spectralFlatnessMetrics st |}
  else Some st.

Definition level3 (route : MediaRouteDecision) (st : Run) : option Run :=
  if negb (run_earlyExit st) && is_level3 (run_currentLevel st)
  then level3_cusum (level3_video route st)
  else Some st.

(** The final scoring pass and the returned record. *)
Definition assemble (startTime now : number) (st : Run) : AMAFAnalysisResult :=
  let '(_, fakeProbability, riskLevel, riskScore) :=
    scoreFeatureVector (run_featureVector st) in
  {| featureVector := run_featureVector st;
     fakeProbability := fakeProbability;
     calibratedProbability := fakeProbability;
     riskLevel := riskLevel;
     riskScore := riskScore;
     analysisLevel := run_currentLevel st;
     earlyExit := run_earlyExit st;
     frequencyMetrics := run_frequencyMetrics st;
     textureMetrics := run_textureMetrics st;
     temporalIdentityMetrics := run_temporalIdentityMetrics st;
     opticalFlowMetrics := run_opticalFlowMetrics st;
     energyTransitionMetrics := run_energyTransitionMetrics st;
     pitchMetrics := run_pitchMetrics st;
     spectralFlatnessMetrics := run_spectralFlatnessMetrics st;
     segments := run_segments st;
     changePoints := run_changePoints st;
     processingTimeMs := Math_round (now - startTime)%js;
     signals := run_signals st |}.

(** [runPipeline], from the route on.  [random1] and [random2] are the
    draws of [Math.random()] in the two escalation checks, [startTime]
    and [now] the two readings of [performance.now()]; the result is
    [None] if the source would throw. *)
Definition runPipeline (route : MediaRouteDecision)
    (random1 random2 startTime now : number) : option AMAFAnalysisResult :=
  st ← level3 route (level2 route random2 (level1 route random1 (initial route)));
  Some (assemble startTime now st).

End Orchestrator.

End Pipeline.

(* ===================================================================== *)
(** ** Concrete inputs                                                    *)
(* ===================================================================== *)

Module Examples.

(** A 17 by 16 frame, black but for one white column. *)
Definition column_frame (column : nat) : ImageData :=
  {| data := flat_map (fun i => if Nat.eqb (i mod 17) column
                                then [255; 255; 255; 255]%Z
                                else [0; 0; 0; 255]%Z)
                      (seq 0 (17 * 16));
     width := 17;
     height := 16 |}.

(** Four frames: the column rests, moves one pixel to the left, rests. *)
Definition shifting_column : list ImageData :=
  [column_frame 1; column_frame 1; column_frame 0; column_frame 0].

(** A hundred samples of silence: shorter than one analysis frame. *)
Definition short_silence : list number := repeat (Fin 0) 100.

Definition segment_of (score : Q) : SegmentAuthenticity :=
  {| segmentIndex := Fin 0; startTime := Fin 0; endTime := Fin 5;
     authenticityScore := Fin score; flagged := false |}.

(** Four segments with the same authenticity. *)
Definition steady_segments : list SegmentAuthenticity :=
  [segment_of 0.7; segment_of 0.7; segment_of 0.7; segment_of 0.7].

Definition full_vector : AMAFFeatureVector :=
  {| hfer := Some (Fin 0.1); svd := Some (Fin 0.6); pdi := Some (Fin 0.03);
     tiis := Some (Fin 0.01); fav := Some (Fin 0.9); etk := Some (Fin 7);
     pvss := Some (Fin 2); frd := Some (Fin 0.2) |}.

Definition empty_vector : AMAFFeatureVector :=
  {| hfer := None; svd := None; pdi := None; tiis := None; fav := None;
     etk := None; pvss := None; frd := None |}.



End Examples.

(* ===================================================================== *)
(** ** Specification-side definitions                                     *)
(* ===================================================================== *)

Module Spec.

Import ScoringEngine.








(** How far the product [p * 100] computed in doubles can lie from
    [100 p], for [p] in [0, 1]: [2 ^ -45]. *)
Definition percentage_slack : Q := 1 # 35184372088832.


(** A number that is not negative (an infinity counts), and a finite
    positive one. *)
Definition nonneg (a : number) : Prop := (Fin 0 <=? a)%js = true.
Definition pos_fin (a : number) : Prop := exists q, a = Fin q /\ 0 < q.

(** A segment whose authenticity score is the rational [c]. *)
Definition has_score (c : Q) (s : SegmentAuthenticity) : Prop :=
  same_value (authenticityScore s) (Fin c).

(** [s'] is [s] except perhaps for its flag. *)
Definition same_but_flagged (s s' : SegmentAuthenticity) : Prop :=
  segmentIndex s' = segmentIndex s /\ startTime s' = startTime s /\
  endTime s' = endTime s /\ authenticityScore s' = authenticityScore s.

(** [out] is [segments] with the flag raised at the positions [P] holds
    of, and nothing else changed. *)
Definition flags_raised (P : nat -> bool) (segments out : list SegmentAuthenticity) : Prop :=
  length out = length segments /\
  forall j s, segments !! j = Some s ->
    exists s', out !! j = Some s' /\ same_but_flagged s s' /\
               flagged s' = flagged s || P j.

(** Position [j] lies within [radiusSegments] of the change point. *)
Definition within_radius (radiusSegments : Z) (cp : ChangePoint) (j : nat) : bool :=
  (cp_segmentIndex cp - radiusSegments <=? Z.of_nat j)%Z
  && (Z.of_nat j <=? cp_segmentIndex cp + radiusSegments)%Z.





(** The identifiers of a list of signals. *)
Definition ids (signals : list DetectionSignalOutput) : list string := map id signals.

(** The identifiers each extractor can emit, in the order it pushes them. *)
Definition image_ids : list string :=
  ["meta-exif-stripped"; "meta-edited"; "meta-recompression";
   "freq-hfer-low"; "freq-svd-high"; "tex-pdi-high"].
Definition video_ids : list string :=
  ["vid-freq-anomaly"; "vid-tiis-high"; "vid-fav-high"; "vid-segment-flags"].
Definition audio_ids : list string :=
  ["audio-etk-high"; "audio-pvss-smooth"; "audio-frd-anomaly"].
Definition cusum_id : string := "cusum-changepoints".

(** Signals with pairwise distinct identifiers, all drawn from [allowed]. *)
Definition distinct_within (allowed : list string) (signals : list DetectionSignalOutput)
    : Prop :=
  NoDup (ids signals) /\ forall x, x ∈ ids signals -> x ∈ allowed.

End Spec.

(* ===================================================================== *)
(** ** Further notions used by the properties                             *)
(* ===================================================================== *)

Module Notions.

(** [next] is the level right after [level]. *)
Definition follows (level next : AnalysisLevel) : Prop :=
  (level = level1_lightweight /\ next = level2_deep_spatial) \/
  (level = level2_deep_spatial /\ next = level3_temporal_crossmodal).

(** The probability lies in the ambiguous zone [0.25, 0.75]. *)
Definition ambiguous (p : number) : Prop :=
  (p >=? Fin 0.25)%js = true /\ (p <=? Fin 0.75)%js = true.

End Notions.

Module ChangeNotions.

(** A change point that the detector may emit for [segments] with the
    given threshold: it sits at a position of the list, carries the start
    time of the segment there, and its statistic exceeds the threshold. *)
Definition well_formed_change_point (segments : list SegmentAuthenticity)
    (threshold : number) (cp : ChangePoint) : Prop :=
  exists i segment,
    cp_segmentIndex cp = Z.of_nat i /\ segments !! i = Some segment /\
    timestamp cp = startTime segment /\ (cusumValue cp >? threshold)%js = true.

(** The positions of the change points, in the order of the list. *)
Definition positions (cps : list ChangePoint) : list Z := map cp_segmentIndex cps.

(** No change point of the list has direction "increase". *)
Definition no_increase (cps : list ChangePoint) : Prop :=
  Forall (fun cp => direction cp = decrease) cps.

(** What holds of the loop state before index [i]. *)
Definition cusum_invariant (segments : list SegmentAuthenticity) (threshold : number)
    (i : nat) (st : ChangeDetector.CusumState) : Prop :=
  Forall (well_formed_change_point segments threshold) (ChangeDetector.changePoints st) /\
  Forall (fun z => (z < Z.of_nat i)%Z) (positions (ChangeDetector.changePoints st)) /\
  StronglySorted Z.lt (positions (ChangeDetector.changePoints st)) /\
  (forall x, x ∈ ChangeDetector.alreadyFlagged st -> (x < i)%nat) /\
  (length (ChangeDetector.changePoints st) <= i)%nat.

End ChangeNotions.

Module ScoringNotions.

Import ScoringEngine.

(** [value] lies on the side of the baseline mean that is not
    suspicious for [key] (the mean itself included), respectively
    strictly on the suspicious side. *)
Definition normal_side (key : FeatureKey) (value : number) : Prop :=
  if higherIsSuspicious (FEATURE_BASELINES key)
  then (value <=? mean (FEATURE_BASELINES key))%js = true
  else (value >=? mean (FEATURE_BASELINES key))%js = true.


(** Every populated slot of the vector lies on its normal side. *)
Definition all_normal (vector : AMAFFeatureVector) : Prop :=
  forall key value, slot vector key = Some value -> normal_side key value.

(** A number in the closed unit interval. *)
Definition in_unit_interval (p : number) : Prop :=
  (Fin 0 <=? p)%js = true /\ (p <=? Fin 1)%js = true.

End ScoringNotions.

Module PipelineNotions.

Import Pipeline.

(** What a run has found so far: every local variable of [runPipeline]
    but the current level and the early-exit flag. *)
Definition findings (st : Run) :=
  (run_featureVector st, run_signals st, run_segments st, run_changePoints st,
   (run_frequencyMetrics st, run_textureMetrics st, run_temporalIdentityMetrics st,
    run_opticalFlowMetrics st),
   (run_energyTransitionMetrics st, run_pitchMetrics st, run_spectralFlatnessMetrics st)).

(** The route carries nothing to analyze: it is not an image, it has no
    audio buffer and no frame. *)
Definition no_payload (route : MediaRouteDecision) : Prop :=
  is_image (mediaType route) = false /\
  audioBuffer route = None /\
  match frames route with
  | Some (_ :: _) => False
  | _ => True
  end.

(** What only the Level 3 block of [runPipeline] writes. *)
Definition late_findings (st : Run) :=
  (run_changePoints st, fav (run_featureVector st), run_opticalFlowMetrics st).

(** The route is a video of at least three frames. *)
Definition long_video (route : MediaRouteDecision) : Prop :=
  mediaType route = video /\
  exists frames, Pipeline.frames route = Some frames /\ (3 <= length frames)%nat.

(** The change point names a position of [segments]. *)
Definition points_into (segments : list SegmentAuthenticity) (cp : ChangePoint) : Prop :=
  (0 <= cp_segmentIndex cp < Z.of_nat (length segments))%Z.

(** The order of the levels. *)
Definition depth (level : AnalysisLevel) : nat :=
  match level with
  | level1_lightweight => 1
  | level2_deep_spatial => 2
  | level3_temporal_crossmodal => 3
  end.

End PipelineNotions.

(** Stand-ins for the numeric kernels and a few routes, with which the
    pipeline runs on concrete inputs. *)
Module Fixtures.

Definition platform : Pipeline.Platform :=
  {| Pipeline.Math_exp := Approx.exp;
     Pipeline.Math_sqrt := Approx.sqrt;
     Pipeline.Math_cos := Approx.cos;
     Pipeline.Math_sin := Approx.sin;
     Pipeline.Math_log := Approx.log;
     Pipeline.Math_PI := Approx.PI;
     Pipeline.toFixed := Approx.toFixed;
     Pipeline.String_of_number := Approx.String_of_number;
     Pipeline.String_of_nat := Approx.String_of_nat;
     Pipeline.computeFrequencyMetrics :=
       fun _ _ _ => {| FrequencyMetrics.hfer := Fin 0.3; FrequencyMetrics.svd := Fin 0.1 |};
     Pipeline.computeTextureMetrics :=
       fun _ _ _ => {| TextureMetrics.pdi := Fin 0.01; TextureMetrics.patchScores := [];
                       TextureMetrics.gridSize := 8 |};
     Pipeline.scanImageMetadata :=
       fun _ => {| ImageDetector.exifPresent := false; ImageDetector.hasBeenEdited := false;
                   ImageDetector.compressionAnomalies := false;
                   ImageDetector.softwareUsed := None |};
     Pipeline.computeTemporalIdentity :=
       fun _ => {| TemporalIdentityMetrics.tiis := Fin 0; TemporalIdentityMetrics.frameDrifts := [] |};
     Pipeline.computeSegmentAuthenticity := fun _ => [] |}.

Definition route_of (mediaType : DetectedMediaType) (audioBuffer : option (list number))
    : Pipeline.MediaRouteDecision :=
  {| Pipeline.mediaType := mediaType;
     Pipeline.mimeType := "";
     Pipeline.fileName := "sample";
     Pipeline.fileSize := Fin 1000;
     Pipeline.frames := None;
     Pipeline.audioBuffer := audioBuffer;
     Pipeline.imageData := None;
     Pipeline.rawBuffer := [] |}.

End Fixtures.

Module AudioNotions.

(** The number of whole frames of [frameSize] samples, [hopSize] apart,
    in [n] samples. *)
Definition frame_count (n frameSize hopSize : nat) : nat :=
  if (frameSize <=? n)%nat then S ((n - frameSize) / hopSize) else 0.

End AudioNotions.

Module VideoNotions.

(** The displacement [d] is one the search tries. *)
Definition in_range (searchRange d : Z) : Prop := (- searchRange <= d <= searchRange)%Z.

(** The block at [(bx, by)] moved by [(dx, dy)] lies inside a [w] by
    [h] frame: the candidates the search does not skip. *)
Definition in_frame (w h blockSize bx by_ : nat) (dx dy : Z) : Prop :=
  (0 <= Z.of_nat by_ + dy)%Z /\ (Z.of_nat by_ + dy + Z.of_nat blockSize <= Z.of_nat h)%Z /\
  (0 <= Z.of_nat bx + dx)%Z /\ (Z.of_nat bx + dx + Z.of_nat blockSize <= Z.of_nat w)%Z.

(** The sum of absolute differences of the candidate [(dx, dy)]. *)
Definition candidate_sad (curr prev : list number) (w blockSize bx by_ : nat) (dx dy : Z)
    : number :=
  VideoDetector.sad_at curr prev w blockSize bx by_
    (Z.to_nat (Z.of_nat bx + dx)) (Z.to_nat (Z.of_nat by_ + dy)).

(** One turn of the innermost search loop of [best_match], on the
    candidate [c = (dx, dy)]. *)
Definition consider (curr prev : list number) (w h blockSize bx by_ : nat)
    (best : number * Z * Z) (c : Z * Z) : number * Z * Z :=
  let py := (Z.of_nat by_ + snd c)%Z in
  let px := (Z.of_nat bx + fst c)%Z in
  if (py <? 0)%Z || (Z.of_nat h <? py + Z.of_nat blockSize)%Z
     || (px <? 0)%Z || (Z.of_nat w <? px + Z.of_nat blockSize)%Z
  then best
  else
    let sad :=
      VideoDetector.sad_at curr prev w blockSize bx by_ (Z.to_nat px) (Z.to_nat py) in
    if (sad <? fst (fst best))%js then (sad, fst c, snd c) else best.

(** The candidates in the order the search visits them. *)
Definition candidates (searchRange : Z) : list (Z * Z) :=
  flat_map (fun dy => map (fun dx => (dx, dy)) (VideoDetector.displacements searchRange))
           (VideoDetector.displacements searchRange).

(** What holds of the best match after the candidates [done]. *)
Definition search_invariant (curr prev : list number) (w h blockSize bx by_ : nat)
    (done : list (Z * Z)) (best : number * Z * Z) : Prop :=
  let '(bestDist, bestDx, bestDy) := best in
  (bestDist = PosInf /\ bestDx = 0%Z /\ bestDy = 0%Z \/
   (bestDx, bestDy) ∈ done /\ in_frame w h blockSize bx by_ bestDx bestDy /\
   bestDist = candidate_sad curr prev w blockSize bx by_ bestDx bestDy) /\
  (forall dx dy, (dx, dy) ∈ done -> in_frame w h blockSize bx by_ dx dy ->
     (candidate_sad curr prev w blockSize bx by_ dx dy <? bestDist)%js = false).

End VideoNotions.

(** ** image-detector.ts: the byte scan of [analyzeImageMetadata] *)

Module ImageMetadata.

Import ImageDetector.

(** [bytes[i]] of the [Uint8Array]; [None] is [undefined]. *)
Definition byte (bytes : list Z) (i : Z) : option Z :=
  if (i <? 0)%Z then None else bytes !! Z.to_nat i.

(** [bytes[i] === b]. *)
Definition byte_is (bytes : list Z) (i b : Z) : bool :=
  match byte bytes i with
  | Some x => (x =? b)%Z
  | None => false
  end.

(** [bytes[i]] as an operand of [<<] and [|], where [undefined] is 0. *)
Definition byte_bits (bytes : list Z) (i : Z) : Z := default 0%Z (byte bytes i).

(** [bytes.slice(from, to)], for [from <= to <= bytes.length]. *)
Definition slice (bytes : list Z) (from to : nat) : list Z :=
  take (to - from) (drop from bytes).

(** The char codes of a string literal. *)
Definition codes (s : string) : list Z :=
  map (fun a => Z.of_N (Ascii.N_of_ascii a)) (String.list_ascii_of_string s).

(** [toLowerCase] on a char code below 256: the letters A-Z and the
    capital letters of Latin-1 move 32 up. *)
Definition lower (c : Z) : Z :=
  if ((65 <=? c) && (c <=? 90) || (192 <=? c) && (c <=? 222) && negb (c =? 215))%Z
  then (c + 32)%Z else c.

(** [s.toLowerCase()] on a string of char codes below 256. *)
Definition toLowerCase (s : list Z) : list Z := map lower s.

Fixpoint starts_with (needle hay : list Z) : bool :=
  match needle, hay with
  | [], _ => true
  | _ :: _, [] => false
  | n :: needle', h :: hay' => (n =? h)%Z && starts_with needle' hay'
  end.

(** [hay.includes(needle)]. *)
Fixpoint includes (hay needle : list Z) : bool :=
  starts_with needle hay
  || match hay with
     | [] => false
     | _ :: rest => includes rest needle
     end.

Definition softwareMatches : list string :=
  ["Photoshop"; "GIMP"; "Lightroom"; "Snapseed"; "FaceApp"; "Remini"; "AI"; "deepfake"].

(** The loop over [softwareMatches]: the last match stays in
    [softwareUsed]. *)
Definition detect_software (exifStr : list Z) : option string :=
  fold_left
    (fun softwareUsed sw =>
       if includes (toLowerCase exifStr) (toLowerCase (codes sw)) then Some sw
       else softwareUsed)
    softwareMatches None.

(** The scan for the APP1 marker, from [offset] on: the offset of the
    marker if the loop breaks on it.  [fuel] bounds the number of turns;
    every turn moves [offset] up, so [bytes.length] turns are enough. *)
Fixpoint find_app1 (fuel : nat) (bytes : list Z) (offset : Z) : option Z :=
  match fuel with
  | O => None
  | S fuel' =>
      if (offset <? Z.of_nat (length bytes) - 4)%Z then
        if byte_is bytes offset 255 then
          if byte_is bytes (offset + 1) 225 then Some offset
          else
            let segLen :=
              Z.lor (Z.shiftl (byte_bits bytes (offset + 2)) 8)
                    (byte_bits bytes (offset + 3)) in
            find_app1 fuel' bytes (offset + 2 + segLen)
        else find_app1 fuel' bytes (offset + 1)
      else None
  end.

(** The same loop with its end told apart from running out of turns:
    [None] when [fuel] turns of the loop body were not enough, [Some r]
    when the loop has ended, on the marker ([r = Some offset]) or on its
    condition ([r = None]). *)
Fixpoint scan_app1 (fuel : nat) (bytes : list Z) (offset : Z) : option (option Z) :=
  if (offset <? Z.of_nat (length bytes) - 4)%Z then
    match fuel with
    | O => None
    | S fuel' =>
        if byte_is bytes offset 255 then
          if byte_is bytes (offset + 1) 225 then Some (Some offset)
          else
            let segLen :=
              Z.lor (Z.shiftl (byte_bits bytes (offset + 2)) 8)
                    (byte_bits bytes (offset + 3)) in
            scan_app1 fuel' bytes (offset + 2 + segLen)
        else scan_app1 fuel' bytes (offset + 1)
    end
  else Some None.

(** What the loop can end with, started at [offset]: no marker, or the
    offset of a marker [0xFF 0xE1] at or after [offset] and within the
    bounds of the loop. *)
Definition app1_result (bytes : list Z) (offset : Z) (r : option Z) : Prop :=
  match r with
  | None => True
  | Some found =>
      (offset <= found < Z.of_nat (length bytes) - 4)%Z /\
      byte_is bytes found 255 = true /\ byte_is bytes (found + 1) 225 = true
  end.

Definition is_jpeg (bytes : list Z) : bool := byte_is bytes 0 255 && byte_is bytes 1 216.
Definition is_png (bytes : list Z) : bool := byte_is bytes 0 137 && byte_is bytes 1 80.

(** The number of [0xFF 0xDB] pairs of the buffer. *)
Definition quantTableCount (bytes : list Z) : nat :=
  length (filter (fun i => byte_is bytes (Z.of_nat i) 255
                           && byte_is bytes (Z.of_nat i + 1) 219 = true)
                 (seq 0 (length bytes - 1))).

(** [analyzeImageMetadata(buffer)], up to the signals, which
    [metadata_signals] builds from this scan. *)
Definition analyzeImageMetadata (buffer : list Z) : MetadataScan :=
  let app1 := if is_jpeg buffer then find_app1 (length buffer) buffer 2 else None in
  let jpegSoftware :=
    match app1 with
    | Some offset =>
        detect_software
          (slice buffer (Z.to_nat offset) (Nat.min (Z.to_nat offset + 500) (length buffer)))
    | None => None
    end in
  let pngStr := slice buffer 0 (Nat.min 2000 (length buffer)) in
  let pngText :=
    is_png buffer && (includes pngStr (codes "tEXt") || includes pngStr (codes "iTXt")) in
  let pngEdited :=
    is_png buffer
    && (includes (toLowerCase pngStr) (codes "photoshop")
        || includes (toLowerCase pngStr) (codes "gimp")) in
  {| exifPresent := bool_decide (is_Some app1) || pngText;
     hasBeenEdited := bool_decide (is_Some jpegSoftware) || pngEdited;
     compressionAnomalies :=
       if is_jpeg buffer then (2 <? quantTableCount buffer)%nat else false;
     softwareUsed :=
       if pngEdited
       then Some (if includes pngStr (codes "Photoshop") then "Adobe Photoshop" else "GIMP")
       else jpegSoftware |}.

(** A byte buffer: every element is a byte. *)
Definition bytes_ok (buffer : list Z) : Prop := Forall (fun b => (0 <= b < 256)%Z) buffer.

(** A JPEG whose APP1 segment follows the start-of-image marker. *)
Definition exif_jpeg (rest : list Z) : list Z := (255 :: 216 :: 255 :: 225 :: rest)%Z.

(** The first 500 bytes, from the APP1 marker on, in lower case. *)
Definition exif_window (rest : list Z) : list Z :=
  toLowerCase (take 500 (255 :: 225 :: rest))%Z.

End ImageMetadata.

(* ===================================================================== *)
(** * Properties                                                          *)
(* ===================================================================== *)

(** ** Facts about the number model *)

Module JSFacts.

Import Spec.

Lemma Qltb_lt x y : Qltb x y = true <-> x < y.
Proof.
  unfold Qltb. rewrite negb_true_iff, <- not_true_iff_false, Qle_bool_iff.
  split; [apply Qnot_le_lt | apply Qlt_not_le].
Qed.

Lemma Qltb_ge x y : Qltb x y = false <-> y <= x.
Proof.
  unfold Qltb. rewrite negb_false_iff, Qle_bool_iff. reflexivity.
Qed.

Lemma Qeqb_false_pos q : 0 < q -> Qeq_bool q 0 = false.
Proof.
  intros H. apply not_true_iff_false. rewrite Qeq_bool_iff. lra.
Qed.






Lemma add_pos_fin a b : (a = Fin 0 \/ pos_fin a) -> pos_fin b -> pos_fin (a + b)%js.
Proof.
  intros [->|(x & -> & Hx)] (y & -> & Hy); eexists; (split; [reflexivity|]);
    rewrite Qred_correct; lra.
Qed.

Lemma pos_fin_gt a : pos_fin a -> (a >? Fin 0)%js = true.
Proof. intros (q & -> & Hq). apply Qltb_lt. exact Hq. Qed.




End JSFacts.

(** ** Rounding to a double *)

Module DoubleFacts.

Lemma round_half_even_near x :
  x - (1 # 2) <= inject_Z (round_half_even x) <= x + (1 # 2).
Proof.
  unfold round_half_even.
  pose proof (Qfloor_le x) as Hlo. pose proof (Qlt_floor x) as Hhi.
  rewrite inject_Z_plus in Hhi. change (inject_Z 1) with 1 in Hhi.
  destruct (Qcompare_spec (x - inject_Z (Qfloor x)) (1 # 2)) as [Heq | Hlt | Hgt].
  - destruct (Z.even (Qfloor x)); [|rewrite inject_Z_plus; change (inject_Z 1) with 1]; lra.
  - lra.
  - rewrite inject_Z_plus. change (inject_Z 1) with 1. lra.
Qed.

Lemma round_half_even_nonneg x : 0 <= x -> (0 <= round_half_even x)%Z.
Proof.
  intros Hx. assert (Hf : (0 <= Qfloor x)%Z)
    by (change 0%Z with (Qfloor 0); apply Qfloor_resp_le, Hx).
  unfold round_half_even.
  destruct (Qcompare _ _); [destruct (Z.even _)| |]; lia.
Qed.

Lemma pow2_nonneg_exponent k : (0 <= k)%Z -> pow2 k = inject_Z (2 ^ k).
Proof. intros Hk. unfold pow2. destruct (Z.leb_spec 0 k); [reflexivity | lia]. Qed.

Lemma pow2_neg_exponent e : (e < 0)%Z -> pow2 e = 1 / inject_Z (2 ^ (- e)).
Proof. intros He. unfold pow2. destruct (Z.leb_spec 0 e); [lia | reflexivity]. Qed.

Lemma inject_pow2_pos k : (0 <= k)%Z -> 0 < inject_Z (2 ^ k).
Proof.
  intros Hk. change 0 with (inject_Z 0). rewrite <- Zlt_Qlt. apply Z.pow_pos_nonneg; lia.
Qed.

Lemma inject_pow2_mono j k : (0 <= j <= k)%Z -> inject_Z (2 ^ j) <= inject_Z (2 ^ k).
Proof. intros H. rewrite <- Zle_Qle. apply Z.pow_le_mono_r; lia. Qed.

(** A positive number below [2 ^ k] lies in a binade below [k]. *)
Lemma binade_below q k :
  0 < q -> (0 <= k)%Z -> q < inject_Z (2 ^ k) -> (binade q <= k - 1)%Z.
Proof.
  intros Hpos Hk Hq. unfold binade.
  set (e0 := (Z.log2 (Qnum q) - Z.log2 (Z.pos (Qden q)))%Z).
  destruct (Z_lt_le_dec e0 k) as [Hlow | Hhigh]; [destruct (Qltb _ _); lia|].
  destruct (Z.eq_dec e0 k) as [Heq | Hne].
  - rewrite Heq, (pow2_nonneg_exponent k Hk).
    rewrite (proj2 (JSFacts.Qltb_lt _ _) Hq). lia.
  - exfalso. destruct q as [n d]. cbn [Qnum Qden] in *.
    assert (Hn : (0 < n)%Z) by (unfold Qlt in Hpos; cbn in Hpos; lia).
    pose proof (Z.log2_spec n Hn) as [Ha _].
    pose proof (Z.log2_spec (Z.pos d) ltac:(lia)) as [_ Hb].
    pose proof (Z.log2_nonneg (Z.pos d)) as Hb0.
    set (a := Z.log2 n) in *. set (b := Z.log2 (Z.pos d)) in *.
    assert (Hpow : (2 ^ (b + k + 1) <= 2 ^ a)%Z) by (apply Z.pow_le_mono_r; lia).
    replace (b + k + 1)%Z with (k + Z.succ b)%Z in Hpow by lia.
    rewrite Z.pow_add_r in Hpow by lia.
    unfold Qlt in Hq. cbn [Qnum Qden inject_Z] in Hq.
    assert (HK : (0 < 2 ^ k)%Z) by (apply Z.pow_pos_nonneg; lia).
    nia.
Qed.

(** The rounding error on a positive number below [2 ^ k]: half a unit
    in the last place of that range, [2 ^ (k - 54)]. *)
Lemma nearest_double_error q k :
  0 < q -> (0 <= k <= 52)%Z -> q < inject_Z (2 ^ k) ->
  exists r,
    nearest_double q = Fin r /\ 0 <= r /\
    q - 1 / inject_Z (2 ^ (54 - k)) <= r <= q + 1 / inject_Z (2 ^ (54 - k)).
Proof.
  intros Hpos Hk Hq.
  pose proof (binade_below q k Hpos ltac:(lia) Hq) as Hb.
  unfold nearest_double.
  set (e := Z.max (binade q - 52) (-1074)).
  assert (He : (e <= k - 53)%Z) by (unfold e; lia).
  rewrite (pow2_neg_exponent e) by lia.
  set (P := inject_Z (2 ^ (- e))).
  assert (HP : inject_Z (2 ^ (53 - k)) <= P) by (apply inject_pow2_mono; lia).
  pose proof (inject_pow2_pos (53 - k) ltac:(lia)) as HP0.
  assert (HB : inject_Z (2 ^ (54 - k)) == 2 * inject_Z (2 ^ (53 - k))).
  { replace (54 - k)%Z with (1 + (53 - k))%Z by lia.
    rewrite Z.pow_add_r by lia. rewrite inject_Z_mult. reflexivity. }
  set (y := q / (1 / P)).
  assert (Hy : y == q * P) by (unfold y; field; lra).
  pose proof (round_half_even_near y) as [Hlo Hhi].
  pose proof (round_half_even_nonneg y) as Hm0.
  assert (Hy0 : 0 <= y) by (rewrite Hy; nra).
  specialize (Hm0 Hy0).
  set (m := round_half_even y) in *.
  assert (Hm0' : 0 <= inject_Z m) by (change 0 with (inject_Z 0); rewrite <- Zle_Qle; exact Hm0).
  set (r0 := inject_Z m * (1 / P)).
  assert (Hr0 : r0 * P == inject_Z m) by (unfold r0; field; lra).
  set (B := 1 / inject_Z (2 ^ (54 - k))).
  assert (HBP : B * (2 * inject_Z (2 ^ (53 - k))) == 1).
  { unfold B. rewrite HB. field. lra. }
  assert (HBpos : 0 < B) by nra.
  assert (Hbound : q - B <= r0 <= q + B /\ 0 <= r0).
  { rewrite Hy in Hlo, Hhi. split; [split|]; nra. }
  destruct Hbound as [Hbound Hr0pos].
  assert (Hfinite : Qle_bool (pow2 1024) r0 = false).
  { apply not_true_iff_false. rewrite Qle_bool_iff.
    rewrite (pow2_nonneg_exponent 1024) by lia.
    pose proof (inject_pow2_mono (k + 1) 1024 ltac:(lia)) as Hbig.
    replace (k + 1)%Z with (1 + k)%Z in Hbig by lia.
    rewrite Z.pow_add_r, inject_Z_mult in Hbig by lia. change (inject_Z (2 ^ 1)) with 2 in Hbig.
    pose proof (inject_pow2_mono 0 k ltac:(lia)) as Hone. change (inject_Z (2 ^ 0)) with 1 in Hone.
    pose proof (inject_pow2_mono 0 (53 - k) ltac:(lia)) as HX1.
    change (inject_Z (2 ^ 0)) with 1 in HX1.
    assert (HB1 : B <= 1) by nra.
    lra. }
  rewrite Hfinite. exists (Qred r0). split; [reflexivity|].
  rewrite Qred_correct. split; [exact Hr0pos | exact Hbound].
Qed.

(** The double a number in [0, 2) stands for. *)
Lemma to_double_unit q :
  0 <= q -> q < 2 ->
  exists p,
    to_double (Fin q) = Fin p /\ 0 <= p /\
    q - (1 # 9007199254740992) <= p <= q + (1 # 9007199254740992).
Proof.
  intros Hlo Hhi. cbn [to_double].
  destruct (Qcompare_spec q 0) as [Hz | Hneg | Hpos].
  - exists 0. split; [reflexivity|]. lra.
  - lra.
  - destruct (nearest_double_error q 1 Hpos ltac:(lia)) as (p & -> & Hp0 & Hp);
      [change (inject_Z (2 ^ 1)) with 2; exact Hhi|].
    exists p. split; [reflexivity|]. split; [exact Hp0|].
    change (1 / inject_Z (2 ^ (54 - 1))) with (1 # 9007199254740992) in Hp. exact Hp.
Qed.

(** The double of a number in [0, 128). *)
Lemma to_double_percent x :
  0 <= x -> x < 128 ->
  exists r,
    to_double (Fin x) = Fin r /\ 0 <= r /\
    x - (1 # 140737488355328) <= r <= x + (1 # 140737488355328).
Proof.
  intros Hlo Hhi. cbn [to_double].
  destruct (Qcompare_spec x 0) as [Hz | Hneg | Hpos].
  - exists 0. split; [reflexivity|]. lra.
  - lra.
  - destruct (nearest_double_error x 7 Hpos ltac:(lia)) as (r & -> & Hr0 & Hr);
      [change (inject_Z (2 ^ 7)) with 128; exact Hhi|].
    exists r. split; [reflexivity|]. split; [exact Hr0|].
    change (1 / inject_Z (2 ^ (54 - 7))) with (1 # 140737488355328) in Hr. exact Hr.
Qed.

End DoubleFacts.

(** Boolean comparisons on rationals, read as propositions. *)
Ltac qprop :=
  repeat match goal with
  | H : Qle_bool _ _ = true |- _ => apply Qle_bool_iff in H
  | H : Qle_bool _ _ = false |- _ =>
      apply not_true_iff_false in H; rewrite Qle_bool_iff in H
  | H : Qltb _ _ = true |- _ => apply JSFacts.Qltb_lt in H
  | H : Qltb _ _ = false |- _ => apply JSFacts.Qltb_ge in H
  end.

(** ** Loops over windows *)

Module ArrProps.

Import Arr.

(** The bounded loop misses no window: with a positive hop and enough
    fuel it visits exactly the offsets [start + k hop] that still fit. *)
Lemma window_starts_spec fuel extent size hop start x :
  (0 < hop)%nat -> (extent < start + fuel * hop)%nat ->
  x ∈ window_starts fuel extent size hop start <->
  exists k, x = (start + k * hop)%nat /\ (x + size <= extent)%nat.
Proof.
  intros Hhop. revert start.
  induction fuel as [|fuel IH]; intros start Hfuel; cbn [window_starts].
  - split; [intros H; inversion H|]. intros (k & -> & Hfit). exfalso. nia.
  - destruct (Nat.leb_spec (start + size) extent) as [Hfit | Hout].
    + rewrite elem_of_cons, IH by nia. split.
      * intros [-> | (k & -> & Hk)]; [exists O; nia | exists (S k); nia].
      * intros ([|k] & -> & Hk); [left; nia | right; exists k; nia].
    + split; [intros H; inversion H|]. intros (k & -> & Hk). exfalso. nia.
Qed.

Lemma windows_spec extent size hop x :
  (0 < hop)%nat ->
  x ∈ windows extent size hop <->
  exists k, x = (k * hop)%nat /\ (x + size <= extent)%nat.
Proof.
  intros Hhop. unfold windows. rewrite window_starts_spec by nia. reflexivity.
Qed.

End ArrProps.

(** ** Scoring engine *)

Module ScoringProps.

Import ScoringEngine Spec JSFacts.

Lemma weight_pos key : pos_fin (weight (FEATURE_BASELINES key)).
Proof. destruct key; eexists; (split; [reflexivity | reflexivity]). Qed.




(** The loop of [computeEnsembleScore] over any key list and from any
    accumulators: two sums over the populated keys only. *)
Lemma ensemble_fold_populated vector keys weightedSum totalWeight :
  let present := omap (fun key => pair key <$> slot vector key) keys in
  fold_left (ensemble_step vector) keys (weightedSum, totalWeight) =
  (fold_left add
     (map (fun kv => (normalizeFeature (fst kv) (snd kv)
                       * weight (FEATURE_BASELINES (fst kv)))%js) present)
     weightedSum,
   fold_left add
     (map (fun kv => weight (FEATURE_BASELINES (fst kv))) present)
     totalWeight).
Proof.
  revert weightedSum totalWeight.
  induction keys as [|key keys IH]; intros weightedSum totalWeight; [reflexivity|].
  cbn [fold_left omap list_omap]. unfold ensemble_step at 2.
  destruct (slot vector key) as [value|]; cbn [fmap option_fmap option_map]; apply IH.
Qed.

Lemma weights_fold_pos (present : list (FeatureKey * number)) acc :
  acc = Fin 0 \/ pos_fin acc ->
  present <> [] ->
  pos_fin (fold_left add
             (map (fun kv => weight (FEATURE_BASELINES (fst kv))) present) acc).
Proof.
  revert acc. induction present as [|kv present IH]; intros acc Hacc Hne; [congruence|].
  cbn [map fold_left].
  assert (Hstep : pos_fin (acc + weight (FEATURE_BASELINES (fst kv)))%js)
    by (apply add_pos_fin; [exact Hacc | apply weight_pos]).
  destruct present as [|kv' present]; [exact Hstep|].
  apply IH; [right; exact Hstep | discriminate].
Qed.





(** NaN is absorbing: a populated slot that holds NaN makes the score
    NaN.  This is why non-negativity above is stated for numbers. *)
Lemma sum_with_NaN (xs : list number) acc :
  NaN ∈ xs -> fold_left add xs acc = NaN.
Proof.
  assert (Hstay : forall ys, fold_left add ys NaN = NaN)
    by (intros ys; induction ys as [|y ys IH]; [reflexivity | exact IH]).
  revert acc. induction xs as [|x xs IH]; intros acc Hin; [inversion Hin|].
  apply elem_of_cons in Hin as [<- | Hin]; cbn [fold_left].
  - replace (acc + NaN)%js with NaN by (destruct acc; reflexivity). apply Hstay.
  - apply IH, Hin.
Qed.

Remark computeEnsembleScore_NaN_slot vector key :
  slot vector key = Some NaN -> computeEnsembleScore vector = NaN.
Proof.
  intros Hslot. unfold computeEnsembleScore, ensemble_sums.
  rewrite ensemble_fold_populated. cbv zeta.
  assert (Hin : (key, NaN) ∈ omap (fun key => pair key <$> slot vector key) baseline_keys).
  { apply list_elem_of_omap. exists key. split; [destruct key; set_solver|].
    rewrite Hslot. reflexivity. }
  set (present := omap (fun key => pair key <$> slot vector key) baseline_keys) in *.
  rewrite (sum_with_NaN
             (map (fun kv => (normalizeFeature (fst kv) (snd kv)
                              * weight (FEATURE_BASELINES (fst kv)))%js) present)).
  - rewrite pos_fin_gt; [reflexivity|].
    apply weights_fold_pos; [left; reflexivity|].
    intros Hnil. rewrite Hnil in Hin. inversion Hin.
  - apply list_elem_of_fmap. exists (key, NaN). split; [|exact Hin].
    cbn [fst snd]. destruct key; reflexivity.
Qed.

Section Calibrated.

Variable Math_exp : number -> number.


End Calibrated.



(** The risk score of a probability: [Math.round] of a double within
    [percentage_slack] of [100 q]. *)
Lemma classifyRisk_score_near q :
  0 <= q <= 1 ->
  exists z : Z,
    snd (classifyRisk (Fin q)) = of_Z z /\ (0 <= z <= 100)%Z /\
    inject_Z z - (1 # 2) - percentage_slack <= 100 * q
      < inject_Z z + (1 # 2) + percentage_slack.
Proof.
  intros [Hlo Hhi]. unfold classifyRisk. cbn [snd]. unfold percentage_slack.
  destruct (DoubleFacts.to_double_unit q Hlo ltac:(lra)) as (p & -> & Hp0 & Hp).
  cbn [mul]. pose proof (Qred_correct (p * 100)) as Hx.
  set (x := Qred (p * 100)) in *.
  destruct (DoubleFacts.to_double_percent x ltac:(lra) ltac:(lra)) as (r & -> & Hr0 & Hr).
  cbn [Math_round]. exists (Qfloor (r + (1 # 2))). split; [reflexivity|].
  pose proof (Qfloor_le (r + (1 # 2))) as Hfl.
  pose proof (Qlt_floor (r + (1 # 2))) as Hfu.
  rewrite inject_Z_plus in Hfu. change (inject_Z 1) with 1 in Hfu.
  set (z := Qfloor (r + (1 # 2))) in *.
  split; [|lra]. split.
  - assert (H : inject_Z (-1) < inject_Z z) by (change (inject_Z (-1)) with (-1); lra).
    rewrite <- Zlt_Qlt in H. lia.
  - assert (H : inject_Z z < inject_Z 101) by (change (inject_Z 101) with 101; lra).
    rewrite <- Zlt_Qlt in H. lia.
Qed.


(** The claims as first stated fail on the code. *)





End ScoringProps.

(** ** Confidence manager *)

Module ConfidenceProps.

Import ConfidenceManager.

Section Escalation.

Variable toFixed : number -> nat -> string.
Variable String_of_number : number -> string.

(** C5.  With a calibrated probability above 0.95 or below 0.05 (0.97 in
    particular) and a stability counter of at least 3, the decision is
    [shouldEscalate = false], [earlyExit = true], at every level, for
    every raw score and feature vector and whatever the random draw. *)
Theorem evaluateEscalation_early_exit
    (Math_random : number) (currentLevel : AnalysisLevel)
    (rawScore fakeProbability : number) (vector : AMAFFeatureVector)
    (stableFrameCount : number) :
  fakeProbability = Fin 0.97 \/
  (fakeProbability >? Fin 0.95)%js = true \/ (fakeProbability <? Fin 0.05)%js = true ->
  (stableFrameCount >=? Fin 3)%js = true ->
  let decision :=
    evaluateEscalation toFixed String_of_number Math_random currentLevel
      rawScore fakeProbability vector stableFrameCount in
  shouldEscalate decision = false /\ earlyExit decision = true /\
  nextLevel decision = None.
Proof.
  intros Hp Hstable decision. subst decision. unfold evaluateEscalation.
  assert (Hc : ((fakeProbability >? Fin 0.95)%js || (fakeProbability <? Fin 0.05)%js) = true).
  { destruct Hp as [-> | [H | H]]; [reflexivity | |]; rewrite H;
      [reflexivity | apply orb_true_r]. }
  rewrite Hc, Hstable. cbn. repeat split.
Qed.

End Escalation.

(** The decision at Level 1 with probability 0.97, counter 3 and a draw
    that would otherwise escalate. *)
Lemma evaluateEscalation_early_exit_witness :
  let decision :=
    evaluateEscalation Approx.toFixed Approx.String_of_number (Fin 0.1)
      level1_lightweight (Fin 2) (Fin 0.97) Examples.full_vector (Fin 3) in
  shouldEscalate decision = false /\ earlyExit decision = true /\
  nextLevel decision = None.
Proof.
  apply (evaluateEscalation_early_exit Approx.toFixed Approx.String_of_number);
    [left; reflexivity | reflexivity].
Defined.

End ConfidenceProps.

(** ** Change detector *)

Module ChangeProps.

Import ChangeDetector Spec JSFacts.

Lemma same_value_Fin a c : same_value a (Fin c) -> exists q, a = Fin q /\ q == c.
Proof. destruct a as [q| | |]; cbn; try tauto. intros H. exists q. split; [reflexivity | exact H]. Qed.

Lemma constant_sum (segments : list SegmentAuthenticity) c acc :
  Forall (has_score c) segments ->
  exists total,
    fold_left add (map authenticityScore segments) (Fin acc) = Fin total /\
    total == acc + inject_Z (Z.of_nat (length segments)) * c.
Proof.
  intros Hall. revert acc.
  induction Hall as [|s segments Hs _ IH]; intros acc.
  - exists acc. split; [reflexivity|]. cbn. ring.
  - destruct (same_value_Fin _ _ Hs) as (q & Hq & Hqc).
    cbn [map fold_left length]. rewrite Hq. cbn [add].
    destruct (IH (Qred (acc + q))) as (total & Htotal & Heq).
    exists total. split; [exact Htotal|].
    rewrite Heq, Qred_correct, Hqc, Nat2Z.inj_succ. unfold Z.succ.
    rewrite inject_Z_plus. change (inject_Z 1) with 1. ring.
Qed.

Lemma constant_mean (segments : list SegmentAuthenticity) c :
  segments <> [] ->
  Forall (has_score c) segments ->
  exists m, scores_mean segments = Fin m /\ m == c.
Proof.
  intros Hne Hall. unfold scores_mean, JS.sum.
  destruct (constant_sum segments c 0 Hall) as (total & -> & Htotal).
  assert (Hn : 0 < inject_Z (Z.of_nat (length segments))).
  { change 0 with (inject_Z 0). rewrite <- Zlt_Qlt.
    destruct segments; [congruence | cbn [length]; lia]. }
  unfold of_nat, of_Z. cbn [div]. rewrite Qeqb_false_pos by exact Hn.
  eexists. split; [reflexivity|].
  rewrite Qred_correct, Htotal. field. lra.
Qed.

(** On a segment whose score is the mean, with a positive allowance and a
    non-negative threshold, a loop turn that starts from zero statistics
    leaves the state as it was. *)
Lemma cusum_step_constant m c k h st i segment :
  m == c -> has_score c segment -> 0 < k -> 0 <= h ->
  cusumUpper st = Fin 0 -> cusumLower st = Fin 0 ->
  cusum_step (Fin m) (Fin k) (Fin h) st i segment = st.
Proof.
  intros Hm Hs Hk Hh Hup Hlo.
  destruct (same_value_Fin _ _ Hs) as (q & Hq & Hqc).
  destruct st as [up lo cps fl]. cbn [cusumUpper cusumLower] in Hup, Hlo. subst up lo.
  unfold cusum_step. cbn [cusumUpper cusumLower changePoints alreadyFlagged].
  rewrite Hq. cbn [add sub].
  assert (Hneg1 : Qred (0 + Qred (Qred (m - q) - k)) < 0)
    by (rewrite !Qred_correct; lra).
  assert (Hneg2 : Qred (0 + Qred (Qred (q - m) - k)) < 0)
    by (rewrite !Qred_correct; lra).
  set (u := Qred (0 + Qred (Qred (m - q) - k))) in *.
  set (l := Qred (0 + Qred (Qred (q - m) - k))) in *.
  assert (Hu : Math_max (Fin 0) (Fin u) = Fin 0).
  { unfold Math_max. cbn [lt]. replace (Qltb 0 u) with false; [reflexivity|].
    symmetry. apply Qltb_ge. lra. }
  assert (Hl : Math_max (Fin 0) (Fin l) = Fin 0).
  { unfold Math_max. cbn [lt]. replace (Qltb 0 l) with false; [reflexivity|].
    symmetry. apply Qltb_ge. lra. }
  rewrite Hu, Hl.
  assert (Hgt : (Fin 0 >? Fin h)%js = false) by (apply Qltb_ge; exact Hh).
  rewrite Hgt. cbn [andb cusumLower]. rewrite Hgt. reflexivity.
Qed.

Lemma cusum_loop_constant m c k h st i segments :
  m == c -> Forall (has_score c) segments -> 0 < k -> 0 <= h ->
  cusumUpper st = Fin 0 -> cusumLower st = Fin 0 ->
  cusum_loop (Fin m) (Fin k) (Fin h) st i segments = st.
Proof.
  intros Hm Hall Hk Hh. revert st i.
  induction Hall as [|s segments Hs _ IH]; intros st i Hup Hlo; [reflexivity|].
  cbn [cusum_loop]. rewrite (cusum_step_constant m c k h st i s) by assumption.
  apply IH; assumption.
Qed.

(** C4.  On a constant authenticity sequence of length at least 3,
    [detectChangePoints] with its default allowance 0.1 and threshold 0.5
    reports no change point, and both CUSUM statistics are 0 after every
    index. *)
Theorem detectChangePoints_constant (segments : list SegmentAuthenticity) (c : Q) :
  (3 <= length segments)%nat ->
  Forall (has_score c) segments ->
  detectChangePoints segments default_allowance default_threshold = [] /\
  forall k,
    cusumUpper (cusum_after segments default_allowance default_threshold k) = Fin 0 /\
    cusumLower (cusum_after segments default_allowance default_threshold k) = Fin 0 /\
    changePoints (cusum_after segments default_allowance default_threshold k) = [].
Proof.
  intros Hlen Hall.
  assert (Hne : segments <> []) by (destruct segments; [cbn in Hlen; lia | discriminate]).
  destruct (constant_mean segments c Hne Hall) as (m & Hmean & Hm).
  split.
  - unfold detectChangePoints.
    destruct (Nat.ltb_spec (length segments) 3) as [Hlt | _]; [lia|].
    rewrite Hmean. unfold default_allowance, default_threshold.
    rewrite (cusum_loop_constant m c); try assumption; try reflexivity; lra.
  - intros k. unfold cusum_after. rewrite Hmean.
    unfold default_allowance, default_threshold.
    rewrite (cusum_loop_constant m c); try assumption; try reflexivity; try lra.
    + repeat split.
    + apply Forall_take, Hall.
Qed.

(** Four segments of authenticity 0.7. *)
Lemma detectChangePoints_constant_witness :
  detectChangePoints Examples.steady_segments default_allowance default_threshold = [].
Proof.
  assert (Hlen : (3 <= length Examples.steady_segments)%nat) by (cbn; lia).
  assert (Hall : Forall (has_score 0.7) Examples.steady_segments)
    by (repeat constructor; reflexivity).
  exact (proj1 (detectChangePoints_constant Examples.steady_segments 0.7 Hlen Hall)).
Defined.

(** *** Enrichment *)

Lemma flags_raised_refl segments : flags_raised (fun _ => false) segments segments.
Proof.
  split; [reflexivity|]. intros j s Hs. exists s.
  split; [exact Hs|]. split; [repeat split|]. rewrite orb_false_r. reflexivity.
Qed.

Lemma flags_raised_trans P P' a b c :
  flags_raised P a b -> flags_raised P' b c ->
  flags_raised (fun j => P j || P' j) a c.
Proof.
  intros [Hlen1 H1] [Hlen2 H2]. split; [congruence|].
  intros j s Hs.
  destruct (H1 j s Hs) as (s1 & Hs1 & (A1 & A2 & A3 & A4) & Hf1).
  destruct (H2 j s1 Hs1) as (s2 & Hs2 & (B1 & B2 & B3 & B4) & Hf2).
  exists s2. split; [exact Hs2|]. split; [repeat split; congruence|].
  rewrite Hf2, Hf1, orb_assoc. reflexivity.
Qed.

Lemma flags_raised_ext P P' a b :
  (forall j, (j < length a)%nat -> P j = P' j) ->
  flags_raised P a b -> flags_raised P' a b.
Proof.
  intros Hext [Hlen H]. split; [exact Hlen|].
  intros j s Hs. destruct (H j s Hs) as (s' & Hs' & Hsame & Hf).
  exists s'. split; [exact Hs'|]. split; [exact Hsame|].
  rewrite Hf, (Hext j); [reflexivity|]. apply lookup_lt_Some in Hs. exact Hs.
Qed.

Lemma enrich_at_spec cp enriched i :
  (0 <= i < Z.of_nat (length enriched))%Z ->
  exists out,
    enrich_at cp enriched i = Some out /\
    flags_raised (fun j => is_increase (direction cp) && (Z.of_nat j =? i)%Z) enriched out.
Proof.
  intros Hi. unfold enrich_at, at_index.
  destruct (Z.ltb_spec i 0) as [Hneg | _]; [lia|].
  destruct (lookup_lt_is_Some_2 enriched (Z.to_nat i)) as [s Hs]; [lia|].
  rewrite Hs. cbn [mbind option_bind].
  destruct (negb (flagged s) && is_increase (direction cp)) eqn:Hcond; eexists; (split; [reflexivity|]).
  - apply andb_true_iff in Hcond as [Hfl Hinc]. apply negb_true_iff in Hfl.
    split; [apply length_insert|].
    intros j t Ht. destruct (decide (j = Z.to_nat i)) as [-> | Hne].
    + rewrite Hs in Ht. injection Ht as <-.
      exists (set_flagged s). split; [apply list_lookup_insert_eq; lia|].
      split; [repeat split|]. cbn [set_flagged flagged].
      rewrite Hinc, Z2Nat.id, Z.eqb_refl, orb_true_r by lia. reflexivity.
    + exists t. split; [rewrite list_lookup_insert_ne by congruence; exact Ht|].
      split; [repeat split|].
      replace (Z.of_nat j =? i)%Z with false; [rewrite andb_false_r, orb_false_r; reflexivity|].
      symmetry. apply Z.eqb_neq. lia.
  - split; [reflexivity|]. intros j t Ht. exists t. split; [exact Ht|].
    split; [repeat split|].
    destruct (Z.eqb_spec (Z.of_nat j) i) as [Heq | _];
      [|rewrite andb_false_r, orb_false_r; reflexivity].
    assert (j = Z.to_nat i) as -> by lia. rewrite Hs in Ht. injection Ht as <-.
    apply andb_false_iff in Hcond as [Hfl | Hinc].
    + apply negb_false_iff in Hfl. rewrite Hfl. reflexivity.
    + rewrite Hinc, orb_false_r. reflexivity.
Qed.

Lemma enrich_range_spec cp turns enriched i :
  (0 <= i)%Z ->
  (turns <> O -> i + Z.of_nat turns <= Z.of_nat (length enriched))%Z ->
  exists out,
    enrich_range cp enriched i turns = Some out /\
    flags_raised (fun j => is_increase (direction cp)
                           && ((i <=? Z.of_nat j)%Z && (Z.of_nat j <? i + Z.of_nat turns)%Z))
                 enriched out.
Proof.
  revert enriched i. induction turns as [|turns IH]; intros enriched i H0 Hend.
  - exists enriched. split; [reflexivity|].
    apply (flags_raised_ext (fun _ => false)); [|apply flags_raised_refl].
    intros j _. symmetry. apply andb_false_iff. right. apply andb_false_iff.
    destruct (Z.leb_spec i (Z.of_nat j)); [right; apply Z.ltb_ge; lia | left; reflexivity].
  - cbn [enrich_range].
    specialize (Hend ltac:(discriminate)).
    destruct (enrich_at_spec cp enriched i) as (mid & -> & Hmid); [lia|].
    cbn [mbind option_bind].
    destruct (IH mid (i + 1)%Z) as (out & -> & Hout); [lia | rewrite (proj1 Hmid); lia |].
    exists out. split; [reflexivity|].
    eapply flags_raised_ext; [|exact (flags_raised_trans _ _ _ _ _ Hmid Hout)].
    intros j _. cbv beta. destruct (is_increase (direction cp)); [|reflexivity].
    cbn [andb].
    destruct (Z.eqb_spec (Z.of_nat j) i), (Z.leb_spec (i + 1) (Z.of_nat j)),
      (Z.ltb_spec (Z.of_nat j) (i + 1 + Z.of_nat turns)),
      (Z.leb_spec i (Z.of_nat j)), (Z.ltb_spec (Z.of_nat j) (i + Z.of_nat (S turns)));
      cbn; try reflexivity; lia.
Qed.

Lemma enrich_one_spec radiusSegments enriched cp :
  exists out,
    enrich_one radiusSegments enriched cp = Some out /\
    flags_raised (fun j => is_increase (direction cp) && within_radius radiusSegments cp j)
                 enriched out.
Proof.
  unfold enrich_one.
  remember (Z.max 0 (cp_segmentIndex cp - radiusSegments)) as start eqn:Hstart.
  remember (Z.min (Z.of_nat (length enriched) - 1) (cp_segmentIndex cp + radiusSegments))
    as end_ eqn:Hend.
  destruct (enrich_range_spec cp (Z.to_nat (end_ - start + 1)) enriched start)
    as (out & Hout & Hflags); [lia | lia |].
  exists out. split; [exact Hout|].
  eapply flags_raised_ext; [|exact Hflags].
  intros j Hj. cbv beta. unfold within_radius.
  destruct (is_increase (direction cp)); [|reflexivity]. cbn [andb].
  destruct (Z.leb_spec start (Z.of_nat j)),
    (Z.ltb_spec (Z.of_nat j) (start + Z.of_nat (Z.to_nat (end_ - start + 1)))),
    (Z.leb_spec (cp_segmentIndex cp - radiusSegments) (Z.of_nat j)),
    (Z.leb_spec (Z.of_nat j) (cp_segmentIndex cp + radiusSegments));
    cbn; try reflexivity; lia.
Qed.

Lemma enrich_all_spec radiusSegments cps enriched :
  exists out,
    enrich_all radiusSegments enriched cps = Some out /\
    flags_raised
      (fun j => existsb (fun cp => is_increase (direction cp)
                                   && within_radius radiusSegments cp j) cps)
      enriched out.
Proof.
  revert enriched. induction cps as [|cp cps IH]; intros enriched.
  - exists enriched. split; [reflexivity | apply flags_raised_refl].
  - cbn [enrich_all].
    destruct (enrich_one_spec radiusSegments enriched cp) as (mid & -> & Hmid).
    cbn [mbind option_bind].
    destruct (IH mid) as (out & -> & Hout).
    exists out. split; [reflexivity|].
    exact (flags_raised_trans _ _ _ _ _ Hmid Hout).
Qed.

(** C9.  [enrichSegmentsWithChangePoints] returns (it never throws) a
    list of the same length in which every segment keeps its index, start
    time, end time and authenticity score; a flagged segment stays
    flagged, and an unflagged one becomes flagged exactly when its
    position lies within the radius of a change point of direction
    "increase". *)
Theorem enrichSegmentsWithChangePoints_only_flags
    (segments : list SegmentAuthenticity) (cps : list ChangePoint) (radiusSegments : Z) :
  exists out,
    enrichSegmentsWithChangePoints segments cps radiusSegments = Some out /\
    length out = length segments /\
    forall j s, segments !! j = Some s ->
      exists s', out !! j = Some s' /\
        segmentIndex s' = segmentIndex s /\ startTime s' = startTime s /\
        endTime s' = endTime s /\ authenticityScore s' = authenticityScore s /\
        (flagged s = true -> flagged s' = true) /\
        (flagged s = false ->
           (flagged s' = true <->
            exists cp, cp ∈ cps /\ direction cp = increase /\
              (cp_segmentIndex cp - radiusSegments <= Z.of_nat j
               <= cp_segmentIndex cp + radiusSegments)%Z)).
Proof.
  destruct (enrich_all_spec radiusSegments cps segments) as (out & Hout & Hlen & Hflags).
  exists out. split; [exact Hout|]. split; [exact Hlen|].
  intros j s Hs. destruct (Hflags j s Hs) as (s' & Hs' & (A1 & A2 & A3 & A4) & Hf).
  exists s'. repeat (split; [assumption|]). split.
  - intros Hfl. rewrite Hf, Hfl. reflexivity.
  - intros Hfl. rewrite Hf, Hfl. cbn [orb]. rewrite existsb_exists. split.
    + intros (cp & Hin & Hcond). apply andb_true_iff in Hcond as [Hinc Hrad].
      apply andb_true_iff in Hrad as [Hlo Hhi].
      exists cp. split; [apply list_elem_of_In, Hin|].
      split; [destruct (direction cp); [reflexivity | discriminate]|]. lia.
    + intros (cp & Hin & Hdir & Hlo & Hhi). exists cp.
      split; [apply list_elem_of_In, Hin|].
      rewrite Hdir. cbn [is_increase andb]. unfold within_radius.
      apply andb_true_iff. split; lia.
Qed.

End ChangeProps.

(** ** Pipeline orchestrator *)

Module PipelineProps.

Import Pipeline ConfidenceManager ChangeDetector Spec.

(** *** The identifiers each extractor emits *)

Lemma optional_sublist (c : bool) (sig : DetectionSignalOutput) :
  ids (if c then [sig] else []) `sublist_of` [id sig].
Proof. destruct c; [reflexivity | apply sublist_nil_l]. Qed.

Lemma ids_app a b : ids (a ++ b) = ids a ++ ids b.
Proof. apply map_app. Qed.

Lemma distinct_of_sublist allowed signals :
  NoDup allowed -> ids signals `sublist_of` allowed -> distinct_within allowed signals.
Proof.
  intros Hnd Hsub. split.
  - eapply sublist_NoDup; eassumption.
  - intros x Hx. eapply sublist_subseteq; eassumption.
Qed.

Lemma image_ids_NoDup : NoDup image_ids.
Proof. apply (bool_decide_unpack _). vm_compute. exact I. Qed.

Lemma video_ids_NoDup : NoDup video_ids.
Proof. apply (bool_decide_unpack _). vm_compute. exact I. Qed.

Lemma audio_ids_NoDup : NoDup audio_ids.
Proof. apply (bool_decide_unpack _). vm_compute. exact I. Qed.

Section Extractors.

Variable P : Platform.

Lemma metadata_signals_ids scan :
  ids (ImageDetector.metadata_signals scan)
    `sublist_of` ["meta-exif-stripped"; "meta-edited"; "meta-recompression"].
Proof.
  unfold ImageDetector.metadata_signals. rewrite !ids_app.
  apply (sublist_app _ [_] _ [_; _]); [apply optional_sublist|].
  apply (sublist_app _ [_] _ [_]); apply optional_sublist.
Qed.

Lemma analyzeImage_ids pixels w h buffer enableTexture :
  distinct_within image_ids
    (ImageDetector.image_signals (analyzeImage P pixels w h buffer enableTexture)).
Proof.
  apply distinct_of_sublist; [apply image_ids_NoDup|].
  unfold analyzeImage, ImageDetector.analyzeImage. cbn [ImageDetector.image_signals].
  rewrite !ids_app.
  apply (sublist_app _ [_; _; _] _ [_; _; _]); [apply metadata_signals_ids|].
  apply (sublist_app _ [_] _ [_; _]); [apply optional_sublist|].
  apply (sublist_app _ [_] _ [_]); [apply optional_sublist|].
  destruct enableTexture; [apply optional_sublist | apply sublist_nil_l].
Qed.

Lemma analyzeImageFromBuffer_ids buffer :
  distinct_within image_ids
    (ImageDetector.image_signals (analyzeImageFromBuffer P buffer)).
Proof.
  apply distinct_of_sublist; [apply image_ids_NoDup|].
  unfold analyzeImageFromBuffer, ImageDetector.analyzeImageFromBuffer.
  cbn [ImageDetector.image_signals].
  rewrite <- (app_nil_r (ids _)).
  apply (sublist_app _ [_; _; _] [] [_; _; _]); [apply metadata_signals_ids | apply sublist_nil_l].
Qed.

Lemma analyzeVideo_ids frames enableTexture enableOpticalFlow :
  distinct_within video_ids
    (VideoDetector.video_signals (analyzeVideo P frames enableTexture enableOpticalFlow)).
Proof.
  apply distinct_of_sublist; [apply video_ids_NoDup|].
  unfold analyzeVideo, VideoDetector.analyzeVideo. cbn [VideoDetector.video_signals].
  rewrite !ids_app.
  apply (sublist_app _ [_] _ [_; _; _]).
  { destruct (frames !! _); [apply optional_sublist | apply sublist_nil_l]. }
  apply (sublist_app _ [_] _ [_; _]); [apply optional_sublist|].
  apply (sublist_app _ [_] _ [_]); [|apply optional_sublist].
  destruct (enableOpticalFlow && _); [apply optional_sublist | apply sublist_nil_l].
Qed.

Lemma analyzeAudio_ids samples :
  distinct_within audio_ids (AudioDetector.audio_signals (analyzeAudio P samples)).
Proof.
  apply distinct_of_sublist; [apply audio_ids_NoDup|].
  unfold analyzeAudio, AudioDetector.analyzeAudio. cbn [AudioDetector.audio_signals].
  unfold AudioDetector.audio_signals_of. rewrite !ids_app.
  apply (sublist_app _ [_] _ [_; _]); [apply optional_sublist|].
  apply (sublist_app _ [_] _ [_]); apply optional_sublist.
Qed.

End Extractors.

(** *** Merging and pushing signals *)

Lemma merge_fold_distinct news signals existingIds :
  (forall x, x ∈ existingIds <-> x ∈ ids signals) ->
  NoDup (ids signals) ->
  let out := fold_left merge_step news (signals, existingIds) in
  NoDup (ids (fst out)) /\
  forall x, x ∈ ids (fst out) -> x ∈ ids signals \/ x ∈ ids news.
Proof.
  revert signals existingIds.
  induction news as [|sig news IH]; intros signals existingIds Hset Hnd; cbn [fold_left].
  - split; [exact Hnd | intros x Hx; left; exact Hx].
  - destruct (bool_decide (id sig ∈ existingIds)) eqn:Hin.
    + replace (merge_step (signals, existingIds) sig) with (signals, existingIds)
        by (unfold merge_step; cbn [fst snd]; rewrite Hin; reflexivity).
      destruct (IH signals existingIds Hset Hnd) as [Hnd' Hsub].
      split; [exact Hnd'|]. intros x Hx.
      destruct (Hsub x Hx) as [H | H]; [left; exact H | right; cbn; right; exact H].
    + replace (merge_step (signals, existingIds) sig)
        with (signals ++ [sig], ({[ id sig ]} ∪ existingIds : gset string))
        by (unfold merge_step; cbn [fst snd]; rewrite Hin; reflexivity).
      apply bool_decide_eq_false in Hin.
      destruct (IH (signals ++ [sig]) ({[ id sig ]} ∪ existingIds)) as [Hnd' Hsub].
      * intros x. rewrite ids_app, elem_of_app, elem_of_union, elem_of_singleton, Hset.
        cbn. rewrite list_elem_of_singleton. tauto.
      * rewrite ids_app. apply NoDup_app. split; [exact Hnd|]. split.
        -- intros x Hx Hx'. cbn in Hx'. apply list_elem_of_singleton in Hx'. subst x.
           apply Hin, Hset, Hx.
        -- apply NoDup_singleton.
      * split; [exact Hnd'|]. intros x Hx.
        destruct (Hsub x Hx) as [H | H]; [|right; cbn; right; exact H].
        rewrite ids_app in H. apply elem_of_app in H as [H | H]; [left; exact H|].
        right. cbn in H. apply list_elem_of_singleton in H. subst x. cbn. left.
Qed.

Lemma merge_signals_distinct allowed signals news :
  distinct_within allowed signals ->
  (forall x, x ∈ ids news -> x ∈ allowed) ->
  distinct_within allowed (merge_signals signals news).
Proof.
  intros [Hnd Hsub] Hnews. unfold merge_signals.
  destruct (merge_fold_distinct news signals (list_to_set (map id signals))) as [Hnd' Hsub'];
    [intros x; apply elem_of_list_to_set | exact Hnd |].
  split; [exact Hnd'|]. intros x Hx.
  destruct (Hsub' x Hx) as [H | H]; [apply Hsub, H | apply Hnews, H].
Qed.

Lemma push_signals_distinct allowed allowed' signals news :
  NoDup (allowed ++ allowed') ->
  distinct_within allowed signals ->
  distinct_within allowed' news ->
  distinct_within (allowed ++ allowed') (signals ++ news).
Proof.
  intros Hdisj [Hnd Hsub] [Hnd' Hsub']. apply NoDup_app in Hdisj as (_ & Hdisj & _).
  split.
  - rewrite ids_app. apply NoDup_app. split; [exact Hnd|]. split; [|exact Hnd'].
    intros x Hx Hx'. exact (Hdisj x (Hsub x Hx) (Hsub' x Hx')).
  - intros x. rewrite ids_app, !elem_of_app. intros [H | H]; [left; apply Hsub, H | right; apply Hsub', H].
Qed.

Lemma distinct_within_weaken allowed allowed' signals :
  (forall x, x ∈ allowed -> x ∈ allowed') ->
  distinct_within allowed signals -> distinct_within allowed' signals.
Proof. intros Hsub [Hnd Hin]. split; [exact Hnd | intros x Hx; apply Hsub, Hin, Hx]. Qed.

(** *** The run *)

Section Runs.

Variable P : Platform.

(** With the stability counter at its default 0, the early-exit branch
    of [evaluateEscalation] is never taken. *)
Lemma escalate_no_early_exit Math_random level vector :
  ConfidenceManager.earlyExit (escalate P Math_random level vector) = false.
Proof.
  unfold escalate. destruct (scoreFeatureVector P vector) as [[[rawScore p] rl] rs].
  unfold evaluateEscalation.
  change (Fin 0 >=? Fin 3)%js with false. rewrite andb_false_r.
  repeat match goal with
         | |- context [if ?c then _ else _] => destruct c
         end; reflexivity.
Qed.

Lemma level1_image_earlyExit route st :
  run_earlyExit (level1_image P route st) = run_earlyExit st.
Proof. unfold level1_image. destruct (is_image _); reflexivity. Qed.

Lemma level1_video_earlyExit route st :
  run_earlyExit (level1_video P route st) = run_earlyExit st.
Proof. unfold level1_video. destruct (if is_video _ then _ else _); reflexivity. Qed.

Lemma level1_audio_earlyExit route st :
  run_earlyExit (level1_audio P route st) = run_earlyExit st.
Proof. unfold level1_audio. destruct (if is_audio _ then _ else _); reflexivity. Qed.

Lemma level1_earlyExit route random1 st :
  run_earlyExit (level1 P route random1 st) = run_earlyExit st.
Proof.
  unfold level1. rewrite escalate_no_early_exit.
  destruct (shouldEscalate _ && _); cbn [with_level run_earlyExit];
    rewrite level1_audio_earlyExit, level1_video_earlyExit, level1_image_earlyExit;
    reflexivity.
Qed.

Lemma level2_image_earlyExit route st :
  run_earlyExit (level2_image P route st) = run_earlyExit st.
Proof. unfold level2_image. destruct (if is_image _ then _ else _); reflexivity. Qed.

Lemma level2_video_earlyExit route st :
  run_earlyExit (level2_video P route st) = run_earlyExit st.
Proof. unfold level2_video. destruct (if is_video _ then _ else _); reflexivity. Qed.

Lemma level2_audio_earlyExit route st :
  run_earlyExit (level2_audio P route st) = run_earlyExit st.
Proof. unfold level2_audio. destruct (audioBuffer route); reflexivity. Qed.

Lemma level2_earlyExit route random2 st :
  run_earlyExit (level2 P route random2 st) = run_earlyExit st.
Proof.
  unfold level2. destruct (negb _ && _); [|reflexivity].
  rewrite escalate_no_early_exit.
  destruct (shouldEscalate _); cbn [with_level run_earlyExit];
    rewrite level2_audio_earlyExit, level2_video_earlyExit, level2_image_earlyExit;
    reflexivity.
Qed.

Lemma level3_video_earlyExit route st :
  run_earlyExit (level3_video P route st) = run_earlyExit st.
Proof.
  unfold level3_video. destruct (if is_video _ then _ else _); [|reflexivity].
  destruct (3 <=? _)%nat; reflexivity.
Qed.

(** The change-detection step always returns: the enrichment never
    throws. *)
Lemma level3_cusum_returns st :
  exists st',
    level3_cusum P st = Some st' /\
    run_earlyExit st' = run_earlyExit st /\
    (run_signals st' = run_signals st \/
     exists count, run_signals st' = run_signals st ++ [cusum_signal P count]).
Proof.
  unfold level3_cusum. destruct (3 <=? _)%nat; [|eexists; repeat split; left; reflexivity].
  destruct (0 <? _)%nat; [|eexists; repeat split; left; reflexivity].
  destruct (ChangeProps.enrich_all_spec default_radius
              (detectChangePoints (run_segments st) default_allowance default_threshold)
              (run_segments st)) as (out & Hout & _).
  unfold enrichSegmentsWithChangePoints. rewrite Hout. cbn [mbind option_bind].
  eexists. split; [reflexivity|]. split; [reflexivity|]. right. eexists. reflexivity.
Qed.

(** *** Signals stay distinct, stage by stage *)

Lemma level1_image_signals route st :
  run_signals st = [] ->
  distinct_within image_ids (run_signals (level1_image P route st)).
Proof.
  intros Hempty. unfold level1_image.
  destruct (is_image _); [|rewrite Hempty; split; [constructor | intros x Hx; inversion Hx]].
  cbn [run_signals]. rewrite Hempty. cbn [app].
  destruct (imageData route); [apply analyzeImage_ids | apply analyzeImageFromBuffer_ids].
Qed.

Lemma image_video_NoDup : NoDup (image_ids ++ video_ids).
Proof. apply (bool_decide_unpack _). vm_compute. exact I. Qed.

Lemma extractor_ids_NoDup : NoDup ((image_ids ++ video_ids) ++ audio_ids).
Proof. apply (bool_decide_unpack _). vm_compute. exact I. Qed.

Lemma result_ids_NoDup : NoDup (((image_ids ++ video_ids) ++ audio_ids) ++ [cusum_id]).
Proof. apply (bool_decide_unpack _). vm_compute. exact I. Qed.

Lemma level1_video_signals route st :
  distinct_within image_ids (run_signals st) ->
  distinct_within (image_ids ++ video_ids) (run_signals (level1_video P route st)).
Proof.
  intros Hst. unfold level1_video.
  destruct (if is_video _ then _ else _).
  - cbn [run_signals]. apply push_signals_distinct;
      [apply image_video_NoDup | exact Hst | apply analyzeVideo_ids].
  - eapply distinct_within_weaken; [|exact Hst]. intros x Hx. apply elem_of_app. left. exact Hx.
Qed.

Lemma level1_audio_signals route st :
  run_signals (level1_audio P route st) = run_signals st.
Proof. unfold level1_audio. destruct (if is_audio _ then _ else _); reflexivity. Qed.

Lemma level1_signals route random1 st :
  run_signals st = [] ->
  distinct_within (image_ids ++ video_ids) (run_signals (level1 P route random1 st)).
Proof.
  intros Hempty.
  assert (H : distinct_within (image_ids ++ video_ids)
                (run_signals (level1_audio P route (level1_video P route (level1_image P route st))))).
  { rewrite level1_audio_signals. apply level1_video_signals, level1_image_signals, Hempty. }
  unfold level1. destruct (ConfidenceManager.earlyExit _); [exact H|].
  destruct (shouldEscalate _ && _); exact H.
Qed.

Lemma level2_image_signals route st :
  distinct_within (image_ids ++ video_ids) (run_signals st) ->
  distinct_within (image_ids ++ video_ids) (run_signals (level2_image P route st)).
Proof.
  intros Hst. unfold level2_image.
  destruct (if is_image _ then _ else _); [|exact Hst].
  cbn [run_signals]. apply merge_signals_distinct; [exact Hst|].
  intros x Hx. apply elem_of_app. left. exact (proj2 (analyzeImage_ids P _ _ _ _ _) x Hx).
Qed.

Lemma level2_video_signals route st :
  distinct_within (image_ids ++ video_ids) (run_signals st) ->
  distinct_within (image_ids ++ video_ids) (run_signals (level2_video P route st)).
Proof.
  intros Hst. unfold level2_video.
  destruct (if is_video _ then _ else _); [|exact Hst].
  cbn [run_signals]. apply merge_signals_distinct; [exact Hst|].
  intros x Hx. apply elem_of_app. right. exact (proj2 (analyzeVideo_ids P _ _ _) x Hx).
Qed.

Lemma level2_audio_signals route st :
  distinct_within (image_ids ++ video_ids) (run_signals st) ->
  distinct_within ((image_ids ++ video_ids) ++ audio_ids)
    (run_signals (level2_audio P route st)).
Proof.
  intros Hst. unfold level2_audio. destruct (audioBuffer route).
  - cbn [run_signals]. apply push_signals_distinct;
      [apply extractor_ids_NoDup | exact Hst | apply analyzeAudio_ids].
  - eapply distinct_within_weaken; [|exact Hst]. intros x Hx. apply elem_of_app. left. exact Hx.
Qed.

Lemma level2_signals route random2 st :
  distinct_within (image_ids ++ video_ids) (run_signals st) ->
  distinct_within ((image_ids ++ video_ids) ++ audio_ids)
    (run_signals (level2 P route random2 st)).
Proof.
  intros Hst. unfold level2. destruct (negb _ && _).
  - assert (H : distinct_within ((image_ids ++ video_ids) ++ audio_ids)
                  (run_signals (level2_audio P route (level2_video P route (level2_image P route st)))))
      by (apply level2_audio_signals, level2_video_signals, level2_image_signals, Hst).
    destruct (ConfidenceManager.earlyExit _); [exact H|].
    destruct (shouldEscalate _); exact H.
  - eapply distinct_within_weaken; [|exact Hst]. intros x Hx. apply elem_of_app. left. exact Hx.
Qed.

Lemma level3_video_signals route st :
  distinct_within ((image_ids ++ video_ids) ++ audio_ids) (run_signals st) ->
  distinct_within ((image_ids ++ video_ids) ++ audio_ids)
    (run_signals (level3_video P route st)).
Proof.
  intros Hst. unfold level3_video.
  destruct (if is_video _ then _ else _); [|exact Hst].
  destruct (3 <=? _)%nat; [|exact Hst].
  cbn [run_signals]. apply merge_signals_distinct; [exact Hst|].
  intros x Hx. apply elem_of_app. left. apply elem_of_app. right.
  exact (proj2 (analyzeVideo_ids P _ _ _) x Hx).
Qed.

Lemma level3_signals route st :
  distinct_within ((image_ids ++ video_ids) ++ audio_ids) (run_signals st) ->
  exists st',
    level3 P route st = Some st' /\
    run_earlyExit st' = run_earlyExit st /\
    NoDup (ids (run_signals st')).
Proof.
  intros Hst. unfold level3. destruct (negb _ && _).
  - destruct (level3_cusum_returns (level3_video P route st)) as (st' & Hret & Hexit & Hsig).
    exists st'. split; [exact Hret|]. split; [rewrite Hexit; apply level3_video_earlyExit|].
    pose proof (level3_video_signals route st Hst) as Hv.
    destruct Hsig as [-> | [count ->]]; [apply Hv|].
    refine (proj1 (push_signals_distinct _ [cusum_id] _ [cusum_signal P count]
                     result_ids_NoDup Hv _)).
    split; [apply NoDup_singleton | intros x Hx; exact Hx].
  - exists st. split; [reflexivity|]. split; [reflexivity | apply Hst].
Qed.

(** C8.  [runPipeline] returns, and the identifiers of the signals in
    its result are pairwise distinct, for every route (any media type,
    with or without pixel data, frames or audio), every start level and
    both random draws. *)
Theorem runPipeline_signal_ids_distinct
    (route : MediaRouteDecision) (random1 random2 startTime now : number) :
  exists result,
    runPipeline P route random1 random2 startTime now = Some result /\
    NoDup (map id (signals result)).
Proof.
  unfold runPipeline.
  destruct (level3_signals route (level2 P route random2 (level1 P route random1 (initial route))))
    as (st & Hret & _ & Hnd).
  { apply level2_signals, level1_signals. reflexivity. }
  rewrite Hret. cbn [mbind option_bind]. eexists. split; [reflexivity|].
  unfold assemble. destruct (scoreFeatureVector P _) as [[[raw p] rl] rs].
  exact Hnd.
Qed.

(** C10.  Both escalation checks of [runPipeline] call
    [evaluateEscalation] with the stability counter at its default 0, for
    which the decision never has [earlyExit = true]; so the result of
    [runPipeline] always has [earlyExit = false]. *)
Theorem runPipeline_never_early_exit
    (route : MediaRouteDecision) (random1 random2 startTime now : number) :
  (forall Math_random level vector,
      ConfidenceManager.earlyExit (escalate P Math_random level vector) = false) /\
  exists result,
    runPipeline P route random1 random2 startTime now = Some result /\
    Pipeline.earlyExit result = false.
Proof.
  split; [apply escalate_no_early_exit|].
  unfold runPipeline.
  destruct (level3_signals route (level2 P route random2 (level1 P route random1 (initial route))))
    as (st & Hret & Hexit & _).
  { apply level2_signals, level1_signals. reflexivity. }
  rewrite Hret. cbn [mbind option_bind]. eexists. split; [reflexivity|].
  unfold assemble. destruct (scoreFeatureVector P _) as [[[raw p] rl] rs].
  cbn [Pipeline.earlyExit]. rewrite Hexit, level2_earlyExit, level1_earlyExit. reflexivity.
Qed.

End Runs.

End PipelineProps.

(** ** Audio extractor *)

Module AudioProps.

Import AudioDetector.

Lemma frames_of_short (samples : list number) frameSize hopSize :
  (length samples < frameSize)%nat -> frames_of samples frameSize hopSize = [].
Proof.
  intros Hshort. unfold frames_of, Arr.windows. cbn [Arr.window_starts].
  destruct (Nat.leb_spec (0 + frameSize) (length samples)) as [Hle | _]; [lia | reflexivity].
Qed.

Section Audio.

Variable Math_cos : number -> number.
Variable Math_sin : number -> number.
Variable Math_sqrt : number -> number.
Variable Math_log : number -> number.
Variable Math_exp : number -> number.
Variable Math_PI : number.
Variable toFixed : number -> nat -> string.

Lemma computeSTFT_short (samples : list number) frameSize hopSize :
  (length samples < frameSize)%nat ->
  computeSTFT Math_cos Math_sin Math_sqrt Math_PI samples frameSize hopSize = [].
Proof. intros Hshort. unfold computeSTFT. rewrite frames_of_short by exact Hshort. reflexivity. Qed.

(** C7, as the code has it.  On samples shorter than one analysis frame
    no frame is formed; [computeEnergyTransition] returns [etk = 0] and
    [computePitchMetrics] returns [pvss = 0], but
    [computeSpectralFlatness] divides the empty sum by the number of
    frames, 0, and returns [frd = NaN], not 0.  No audio signal is
    generated from such samples. *)
Theorem short_audio_metrics (samples : list number) (sampleRate : N) (frameSize : nat) :
  (length samples < frameSize)%nat ->
  computeEnergyTransition Math_cos Math_sin Math_sqrt Math_PI samples frameSize
    = {| EnergyTransitionMetrics.etk := Fin 0; EnergyTransitionMetrics.energyDeltas := [] |} /\
  computePitchMetrics Math_sqrt samples sampleRate frameSize
    = {| PitchMetrics.pvss := Fin 0; PitchMetrics.pitchContour := [] |} /\
  computeSpectralFlatness Math_cos Math_sin Math_sqrt Math_log Math_exp Math_PI samples frameSize
    = {| SpectralFlatnessMetrics.frd := NaN; SpectralFlatnessMetrics.flatnessValues := [] |} /\
  ((length samples < 1024)%nat ->
   audio_signals
     (analyzeAudio Math_cos Math_sin Math_sqrt Math_log Math_exp Math_PI toFixed
        samples sampleRate) = []).
Proof.
  intros Hshort. split; [|split; [|split]].
  - unfold computeEnergyTransition. rewrite computeSTFT_short by exact Hshort. reflexivity.
  - unfold computePitchMetrics. rewrite frames_of_short by exact Hshort. reflexivity.
  - unfold computeSpectralFlatness. rewrite computeSTFT_short by exact Hshort. reflexivity.
  - intros H1024. unfold analyzeAudio, computeEnergyTransition, computePitchMetrics,
      computeSpectralFlatness.
    rewrite !computeSTFT_short, frames_of_short by lia. reflexivity.
Qed.

End Audio.

(** The degenerate input run through the model. *)
Lemma short_audio_metrics_witness :
  SpectralFlatnessMetrics.frd
    (computeSpectralFlatness Approx.cos Approx.sin Approx.sqrt Approx.log Approx.exp
       Approx.PI Examples.short_silence 1024) = NaN /\
  EnergyTransitionMetrics.etk
    (computeEnergyTransition Approx.cos Approx.sin Approx.sqrt Approx.PI
       Examples.short_silence 1024) = Fin 0.
Proof.
  assert (Hshort : (length Examples.short_silence < 1024)%nat) by (vm_compute; lia).
  destruct (short_audio_metrics Approx.cos Approx.sin Approx.sqrt Approx.log Approx.exp
              Approx.PI Approx.toFixed Examples.short_silence 44100 1024 Hshort)
    as (Hetk & _ & Hfrd & _).
  rewrite Hfrd, Hetk. split; reflexivity.
Defined.

End AudioProps.

(** ** Video extractor *)

Module VideoProps.

Import VideoDetector Spec.



Lemma adjacent_length (f : number -> number -> number) (xs : list number) :
  length (Arr.adjacent f xs) = pred (length xs).
Proof.
  unfold Arr.adjacent. rewrite length_zip_with.
  destruct xs as [|x xs]; cbn [tail length]; lia.
Qed.




Section Flow.

Variable Math_sqrt : number -> number.





End Flow.



End VideoProps.

(* ===================================================================== *)
(** * Further properties of the code                                      *)
(* ===================================================================== *)

(** ** Confidence manager, further *)

Module ConfidenceMore.

Import ConfidenceManager Notions.

Section Escalation.

Variable toFixed : number -> nat -> string.
Variable String_of_number : number -> string.

(** X1.  Every decision of [evaluateEscalation] is coherent: it names a
    next level exactly when it escalates, that level is the one right
    after the current level, an escalating decision is never an early
    exit, and at Level 3 it never escalates. *)
Theorem evaluateEscalation_coherent
    (Math_random : number) (currentLevel : AnalysisLevel)
    (rawScore fakeProbability : number) (vector : AMAFFeatureVector)
    (stableFrameCount : number) :
  let decision :=
    evaluateEscalation toFixed String_of_number Math_random currentLevel
      rawScore fakeProbability vector stableFrameCount in
  match nextLevel decision with
  | Some next =>
      shouldEscalate decision = true /\ earlyExit decision = false /\
      follows currentLevel next
  | None => shouldEscalate decision = false
  end /\
  (currentLevel = level3_temporal_crossmodal -> shouldEscalate decision = false).
Proof.
  cbv zeta. unfold evaluateEscalation.
  destruct ((_ || _) && _); [cbn; split; [reflexivity | intros _; reflexivity]|].
  destruct currentLevel; cbn [is_level1 is_level2 is_level3 andb];
    repeat match goal with
           | |- context [if ?c then _ else _] => destruct c
           end;
    cbn; (split; [|intros H; first [discriminate H | reflexivity]]);
    try reflexivity; (split; [reflexivity|]); (split; [reflexivity|]);
    unfold follows; tauto.
Qed.

(** X2.  In the ambiguous zone, a probability in [0.25, 0.75], Level 1
    escalates to Level 2 and Level 2 to Level 3, whatever the random draw
    and the stability counter. *)
Theorem evaluateEscalation_ambiguous
    (Math_random : number) (currentLevel next : AnalysisLevel)
    (rawScore fakeProbability : number) (vector : AMAFFeatureVector)
    (stableFrameCount : number) :
  ambiguous fakeProbability ->
  follows currentLevel next ->
  let decision :=
    evaluateEscalation toFixed String_of_number Math_random currentLevel
      rawScore fakeProbability vector stableFrameCount in
  shouldEscalate decision = true /\ nextLevel decision = Some next /\
  earlyExit decision = false.
Proof.
  intros [Hlo Hhi] Hnext. cbv zeta. unfold evaluateEscalation.
  destruct fakeProbability as [q| | |]; try discriminate.
  cbn [ge le gt lt] in *. qprop.
  assert (H95 : Qltb 0.95 q = false) by (apply JSFacts.Qltb_ge; lra).
  assert (H05 : Qltb q 0.05 = false) by (apply JSFacts.Qltb_ge; lra).
  assert (H25 : Qle_bool 0.25 q = true) by (apply Qle_bool_iff; lra).
  assert (H75 : Qle_bool q 0.75 = true) by (apply Qle_bool_iff; lra).
  rewrite H95, H05, H25, H75. cbn [orb andb].
  destruct Hnext as [[-> ->] | [-> ->]]; cbn; repeat split.
Qed.

(** X3.  Outside the ambiguous zone a decision escalates only on the
    random draw: if the draw is not below 0.2 and the probability is
    below 0.25 or above 0.75, the decision does not escalate. *)
Theorem evaluateEscalation_confident_stays
    (Math_random : number) (currentLevel : AnalysisLevel)
    (rawScore fakeProbability : number) (vector : AMAFFeatureVector)
    (stableFrameCount : number) :
  (Math_random <? Fin 0.2)%js = false ->
  (fakeProbability <? Fin 0.25)%js = true \/ (fakeProbability >? Fin 0.75)%js = true ->
  shouldEscalate
    (evaluateEscalation toFixed String_of_number Math_random currentLevel
       rawScore fakeProbability vector stableFrameCount) = false.
Proof.
  intros Hdraw Hp. unfold evaluateEscalation.
  destruct ((_ || _) && _); [reflexivity|]. rewrite Hdraw.
  assert (Hamb : (fakeProbability >=? Fin 0.25)%js && (fakeProbability <=? Fin 0.75)%js = false).
  { destruct fakeProbability as [q| | |]; try reflexivity; cbn [ge le gt lt] in *.
    - apply andb_false_iff. destruct Hp as [Hp | Hp]; qprop.
      + left. apply not_true_iff_false. rewrite Qle_bool_iff. lra.
      + right. apply not_true_iff_false. rewrite Qle_bool_iff. lra. }
  rewrite Hamb. cbn [orb]. rewrite !andb_false_r. reflexivity.
Qed.

End Escalation.

Lemma evaluateEscalation_ambiguous_witness :
  nextLevel
    (evaluateEscalation Approx.toFixed Approx.String_of_number (Fin 0.9)
       level1_lightweight (Fin 0.4) (Fin 0.5) Examples.empty_vector (Fin 7))
  = Some level2_deep_spatial.
Proof.
  refine (proj1 (proj2 (evaluateEscalation_ambiguous Approx.toFixed Approx.String_of_number
                   (Fin 0.9) level1_lightweight level2_deep_spatial (Fin 0.4) (Fin 0.5)
                   Examples.empty_vector (Fin 7) _ _))).
  - split; reflexivity.
  - left. split; reflexivity.
Defined.

Lemma evaluateEscalation_confident_stays_witness :
  shouldEscalate
    (evaluateEscalation Approx.toFixed Approx.String_of_number (Fin 0.5)
       level1_lightweight (Fin 0) (Fin 0.1) Examples.empty_vector (Fin 0)) = false.
Proof.
  apply evaluateEscalation_confident_stays; [reflexivity | left; reflexivity].
Defined.

(** X4.  [determineStartLevel] never starts at Level 3; audio always
    starts at Level 2 and an unknown media type at Level 1, whatever the
    file size; an image starts at Level 2 exactly when it is smaller than
    500000 bytes. *)
Theorem determineStartLevel_cases (mediaType : DetectedMediaType) (fileSize : number) :
  determineStartLevel mediaType fileSize <> level3_temporal_crossmodal /\
  determineStartLevel audio fileSize = level2_deep_spatial /\
  determineStartLevel unknown fileSize = level1_lightweight /\
  determineStartLevel video fileSize = level1_lightweight /\
  (determineStartLevel image fileSize = level2_deep_spatial <->
   (fileSize <? Fin 500000)%js = true).
Proof.
  unfold determineStartLevel. split; [|split; [|split; [|split]]].
  - destruct mediaType; cbn; repeat match goal with
      | |- context [if ?c then _ else _] => destruct c
      end; discriminate.
  - reflexivity.
  - reflexivity.
  - cbn [is_image is_video is_audio andb].
    destruct (fileSize >? Fin 20000000)%js; reflexivity.
  - cbn [is_image is_video is_audio andb].
    destruct (fileSize <? Fin 500000)%js; split; congruence.
Qed.


End ConfidenceMore.

(** ** Change detector, further *)

Module ChangeMore.

Import ChangeDetector Spec ChangeNotions.

Lemma positions_snoc cps cp : positions (cps ++ [cp]) = positions cps ++ [cp_segmentIndex cp].
Proof. unfold positions. rewrite map_app. reflexivity. Qed.

Lemma cusum_push_invariant segments threshold i st segment value dir :
  cusum_invariant segments threshold i st ->
  segments !! i = Some segment ->
  (value >? threshold)%js = true ->
  let cps :=
    changePoints st ++ [{| timestamp := startTime segment; cp_segmentIndex := Z.of_nat i;
                           cusumValue := value; direction := dir |}] in
  Forall (well_formed_change_point segments threshold) cps /\
  Forall (fun z => (z < Z.of_nat (S i))%Z) (positions cps) /\
  StronglySorted Z.lt (positions cps) /\
  (length cps <= S i)%nat.
Proof.
  intros (Hwf & Hlt & Hsorted & _ & Hlen) Hseg Hvalue cps. subst cps.
  rewrite positions_snoc. cbn [cp_segmentIndex]. repeat split.
  - apply Forall_app. split; [exact Hwf|]. constructor; [|constructor].
    exists i, segment. cbn. repeat split; assumption.
  - apply Forall_app. split.
    + eapply Forall_impl; [exact Hlt|]. cbn. intros z Hz. lia.
    + constructor; [lia | constructor].
  - apply StronglySorted_app_2; [|exact Hsorted | repeat constructor].
    intros x1 x2 Hx1 Hx2. apply list_elem_of_singleton in Hx2. subst x2.
    rewrite Forall_forall in Hlt. apply Hlt, Hx1.
  - rewrite length_app. cbn. lia.
Qed.

Lemma cusum_step_invariant segments mean allowance threshold i st segment :
  cusum_invariant segments threshold i st ->
  segments !! i = Some segment ->
  cusum_invariant segments threshold (S i) (cusum_step mean allowance threshold st i segment).
Proof.
  intros Hinv Hseg.
  pose proof Hinv as (Hwf & Hlt & Hsorted & Hflag & Hlen).
  assert (Hweak : Forall (fun z => (z < Z.of_nat (S i))%Z) (positions (changePoints st)))
    by (eapply Forall_impl; [exact Hlt|]; cbn; intros z Hz; lia).
  assert (Hflag' : forall x, x ∈ alreadyFlagged st -> (x < S i)%nat)
    by (intros x Hx; specialize (Hflag x Hx); lia).
  assert (Hflag'' : forall x, x ∈ ({[ i ]} ∪ alreadyFlagged st : gset nat) -> (x < S i)%nat).
  { intros x Hx. apply elem_of_union in Hx as [Hx | Hx];
      [apply elem_of_singleton in Hx; lia | apply Hflag', Hx]. }
  unfold cusum_step.
  set (upper := Math_max (Fin 0) _). set (lower := Math_max (Fin 0) _).
  destruct ((upper >? threshold)%js && negb (bool_decide (i ∈ alreadyFlagged st))) eqn:Hup.
  - apply andb_true_iff in Hup as [Hup _].
    cbn [cusumUpper cusumLower changePoints alreadyFlagged].
    replace (bool_decide (i ∈ ({[ i ]} ∪ alreadyFlagged st : gset nat))) with true
      by (symmetry; apply bool_decide_eq_true; set_solver).
    rewrite andb_false_r.
    destruct (cusum_push_invariant segments threshold i st segment upper increase Hinv Hseg Hup)
      as (H1 & H2 & H3 & H4).
    repeat split; assumption.
  - cbn [cusumUpper cusumLower changePoints alreadyFlagged].
    destruct ((lower >? threshold)%js && negb (bool_decide (i ∈ alreadyFlagged st))) eqn:Hlo.
    + apply andb_true_iff in Hlo as [Hlo _].
      cbn [cusumUpper cusumLower changePoints alreadyFlagged].
      destruct (cusum_push_invariant segments threshold i st segment lower decrease Hinv Hseg Hlo)
        as (H1 & H2 & H3 & H4).
      repeat split; assumption.
    + unfold cusum_invariant. cbn [cusumUpper cusumLower changePoints alreadyFlagged].
      split; [exact Hwf|]. split; [exact Hweak|]. split; [exact Hsorted|].
      split; [exact Hflag' | lia].
Qed.

Lemma cusum_loop_invariant segments mean allowance threshold rest i st :
  cusum_invariant segments threshold i st ->
  (forall k segment, rest !! k = Some segment -> segments !! (i + k)%nat = Some segment) ->
  cusum_invariant segments threshold (i + length rest)
    (cusum_loop mean allowance threshold st i rest).
Proof.
  revert i st. induction rest as [|segment rest IH]; intros i st Hinv Hrest.
  - cbn. rewrite Nat.add_0_r. exact Hinv.
  - cbn [cusum_loop length]. replace (i + S (length rest))%nat with (S i + length rest)%nat by lia.
    apply IH.
    + apply cusum_step_invariant; [exact Hinv|].
      specialize (Hrest O segment eq_refl). rewrite Nat.add_0_r in Hrest. exact Hrest.
    + intros k s Hk. specialize (Hrest (S k) s Hk).
      replace (S i + k)%nat with (i + S k)%nat by lia. exact Hrest.
Qed.

(** X6.  Whatever the scores, allowance and threshold, the change points
    [detectChangePoints] returns sit at strictly increasing positions of
    the segment list (so no position carries two of them, not even one
    of each direction), each carries the start time of its segment and a
    statistic above the threshold, and there are at most as many as
    segments. *)
Theorem detectChangePoints_well_formed
    (segments : list SegmentAuthenticity) (allowance threshold : number) :
  let cps := detectChangePoints segments allowance threshold in
  StronglySorted Z.lt (positions cps) /\
  Forall (well_formed_change_point segments threshold) cps /\
  (length cps <= length segments)%nat.
Proof.
  cbv zeta. unfold detectChangePoints.
  destruct (length segments <? 3)%nat.
  - repeat split; [constructor | constructor | cbn; lia].
  - destruct (cusum_loop_invariant segments (scores_mean segments) allowance threshold
                segments 0 cusum_init) as (Hwf & _ & Hsorted & _ & Hlen).
    + repeat split; try constructor. intros x Hx. cbn in Hx. set_solver.
    + intros k segment Hk. exact Hk.
    + repeat split; assumption.
Qed.

(** *** Enrichment *)

Lemma same_segment (s s' : SegmentAuthenticity) :
  same_but_flagged s s' -> flagged s' = flagged s -> s' = s.
Proof.
  destruct s, s'. unfold same_but_flagged. cbn. intros (-> & -> & -> & ->) ->. reflexivity.
Qed.

Lemma flags_raised_fixed P (segments out : list SegmentAuthenticity) :
  flags_raised P segments out ->
  (forall j s, segments !! j = Some s -> flagged s || P j = flagged s) ->
  out = segments.
Proof.
  intros [Hlen Hflags] Hfix. apply list_eq. intros j.
  destruct (segments !! j) as [s|] eqn:Hs.
  - destruct (Hflags j s Hs) as (s' & -> & Hsame & Hfl).
    f_equal. apply same_segment; [exact Hsame|]. rewrite Hfl. apply Hfix, Hs.
  - apply lookup_ge_None in Hs. apply lookup_ge_None. lia.
Qed.

(** X7.  Change points of direction "decrease" never flag anything:
    with no "increase" change point in the list,
    [enrichSegmentsWithChangePoints] returns the segments unchanged. *)
Theorem enrichSegmentsWithChangePoints_decrease_only
    (segments : list SegmentAuthenticity) (cps : list ChangePoint) (radiusSegments : Z) :
  no_increase cps ->
  enrichSegmentsWithChangePoints segments cps radiusSegments = Some segments.
Proof.
  intros Hdec.
  destruct (ChangeProps.enrich_all_spec radiusSegments cps segments) as (out & Hout & Hflags).
  unfold enrichSegmentsWithChangePoints. rewrite Hout. f_equal.
  apply (flags_raised_fixed _ _ _ Hflags). intros j s _.
  replace (existsb _ cps) with false; [apply orb_false_r|].
  symmetry. apply not_true_iff_false. rewrite existsb_exists.
  intros (cp & Hin & Hcond). unfold no_increase in Hdec. rewrite Forall_forall in Hdec.
  rewrite (Hdec cp) in Hcond by (apply list_elem_of_In, Hin). discriminate Hcond.
Qed.

Lemma enrichSegmentsWithChangePoints_decrease_only_witness :
  enrichSegmentsWithChangePoints Examples.steady_segments
    [{| timestamp := Fin 5; cp_segmentIndex := 1; cusumValue := Fin 0.6;
        direction := decrease |}] default_radius
  = Some Examples.steady_segments.
Proof.
  apply enrichSegmentsWithChangePoints_decrease_only. repeat constructor.
Defined.

(** X8.  Enriching is idempotent: enriching the enriched segments again
    with the same change points and radius changes nothing. *)
Theorem enrichSegmentsWithChangePoints_idempotent
    (segments : list SegmentAuthenticity) (cps : list ChangePoint) (radiusSegments : Z) :
  exists out,
    enrichSegmentsWithChangePoints segments cps radiusSegments = Some out /\
    enrichSegmentsWithChangePoints out cps radiusSegments = Some out.
Proof.
  destruct (ChangeProps.enrich_all_spec radiusSegments cps segments)
    as (out & Hout & Hlen & Hflags).
  destruct (ChangeProps.enrich_all_spec radiusSegments cps out) as (out' & Hout' & Hflags').
  exists out. unfold enrichSegmentsWithChangePoints. split; [exact Hout|].
  rewrite Hout'. f_equal.
  apply (flags_raised_fixed _ _ _ Hflags'). intros j s' Hs'.
  assert (Hj : (j < length segments)%nat) by (rewrite <- Hlen; eapply lookup_lt_Some, Hs').
  destruct (lookup_lt_is_Some_2 segments j Hj) as [s Hs].
  destruct (Hflags j s Hs) as (t & Ht & _ & Hfl).
  rewrite Hs' in Ht. injection Ht as <-.
  rewrite Hfl. destruct (flagged s), (existsb _ cps); reflexivity.
Qed.

End ChangeMore.

(** ** Scoring engine, further *)

Module ScoringMore.

Import ScoringEngine Spec ScoringNotions JSFacts.

Lemma Qred_zero q : q == 0 -> Qred q = 0.
Proof. intros H. rewrite (Qred_complete q 0 H). reflexivity. Qed.

Lemma baseline_shape key :
  exists m s,
    mean (FEATURE_BASELINES key) = Fin m /\
    Math_max (std (FEATURE_BASELINES key)) (Fin 1e-6) = Fin s /\ 0 < s.
Proof. destruct key; do 2 eexists; (split; [reflexivity | split; reflexivity]). Qed.

Lemma zscore_sign (q m s : Q) :
  0 < s ->
  (q <= m -> Qred (Qred (q - m) / s) <= 0) /\
  (m <= q -> 0 <= Qred (Qred (q - m) / s)) /\
  (m < q -> 0 < Qred (Qred (q - m) / s)) /\
  (q < m -> Qred (Qred (q - m) / s) < 0).
Proof.
  intros Hs. rewrite !Qred_correct.
  assert (Hinv : 0 < / s) by (apply Qinv_lt_0_compat; exact Hs).
  unfold Qdiv. repeat split; intros H; nra.
Qed.

Lemma Math_max_0_nonpos z : z <= 0 -> Math_max (Fin 0) (Fin z) = Fin 0.
Proof.
  intros Hz. unfold Math_max. cbn [lt].
  replace (Qltb 0 z) with false; [reflexivity|]. symmetry. apply Qltb_ge. exact Hz.
Qed.


Lemma normalizeFeature_normal key value :
  normal_side key value -> normalizeFeature key value = Fin 0.
Proof.
  unfold normal_side, normalizeFeature.
  destruct (baseline_shape key) as (m & s & -> & -> & Hs).
  destruct (higherIsSuspicious (FEATURE_BASELINES key));
    destruct value as [q| | |]; intros H; try discriminate H; cbn [ge le] in H; qprop.
  - cbn [sub div]. rewrite Qeqb_false_pos by exact Hs.
    apply Math_max_0_nonpos. apply (zscore_sign q m s Hs). exact H.
  - cbn [sub div]. replace (Qltb s 0) with false by (symmetry; apply Qltb_ge; lra).
    reflexivity.
  - cbn [sub div neg]. rewrite Qeqb_false_pos by exact Hs. cbn [neg].
    apply Math_max_0_nonpos. rewrite Qred_correct.
    pose proof (proj1 (proj2 (zscore_sign q m s Hs)) H). lra.
  - cbn [sub div]. replace (Qltb s 0) with false by (symmetry; apply Qltb_ge; lra).
    reflexivity.
Qed.




Lemma all_normal_fold vector keys acc :
  all_normal vector ->
  fst acc = Fin 0 -> (snd acc = Fin 0 \/ pos_fin (snd acc)) ->
  let out := fold_left (ensemble_step vector) keys acc in
  fst out = Fin 0 /\ (snd out = Fin 0 \/ pos_fin (snd out)).
Proof.
  intros Hnormal. revert acc.
  induction keys as [|key keys IH]; intros [weightedSum totalWeight] Hws Htw; [split; assumption|].
  cbn [fold_left]. apply IH; unfold ensemble_step;
    destruct (slot vector key) as [value|] eqn:Hslot; cbn [fst snd] in *; try assumption.
  - rewrite (normalizeFeature_normal key value (Hnormal key value Hslot)). subst weightedSum.
    destruct (ScoringProps.weight_pos key) as (w & -> & Hw). cbn [mul add].
    rewrite (Qred_zero (0 * w)) by ring. reflexivity.
  - right. apply add_pos_fin; [exact Htw | apply ScoringProps.weight_pos].
Qed.

Section Calibrated.

Variable Math_exp : number -> number.

(** X10.  A vector whose populated slots all lie on the normal side of
    their baselines scores exactly 0, however many slots are populated,
    and so gets the same calibrated probability as the empty vector. *)
Theorem computeEnsembleScore_all_normal (vector : AMAFFeatureVector) :
  all_normal vector ->
  computeEnsembleScore vector = Fin 0 /\
  plattScale Math_exp (computeEnsembleScore vector) = plattScale Math_exp (Fin 0).
Proof.
  intros Hnormal.
  assert (Hscore : computeEnsembleScore vector = Fin 0).
  { unfold computeEnsembleScore, ensemble_sums.
    destruct (all_normal_fold vector baseline_keys (Fin 0, Fin 0) Hnormal)
      as [Hws Htw]; [reflexivity | left; reflexivity |].
    destruct (fold_left _ _ _) as [weightedSum totalWeight]. cbn [fst snd] in *.
    subst weightedSum. destruct Htw as [-> | (w & -> & Hw)]; [reflexivity|].
    destruct (Fin w >? Fin 0)%js; [|reflexivity].
    cbn [div]. rewrite Qeqb_false_pos by exact Hw.
    rewrite (Qred_zero (0 / w)); [reflexivity|]. unfold Qdiv. ring. }
  rewrite Hscore. split; reflexivity.
Qed.

Lemma plattScale_in_unit rawScore :
  nonneg (Math_exp (- (Fin 2.5 * rawScore + Fin (-1.0)))%js) ->
  in_unit_interval (plattScale Math_exp rawScore).
Proof.
  unfold plattScale, plattScale_with, nonneg, in_unit_interval.
  destruct (Math_exp _) as [e| | |]; intros He; try discriminate He.
  - cbn [le] in He. qprop. cbn [add div].
    assert (Hpos : 0 < Qred (1 + e)) by (rewrite Qred_correct; lra).
    rewrite Qeqb_false_pos by exact Hpos. cbn [le].
    rewrite !Qle_bool_iff, !Qred_correct.
    split; [apply Qle_shift_div_l; lra | apply Qle_shift_div_r; lra].
  - split; reflexivity.
Qed.

(** X11.  Whenever [Math.exp] returns a non-negative number for the
    exponent (an infinity allowed), the calibrated probability
    [plattScale(rawScore)] lies between 0 and 1. *)
Theorem plattScale_unit_interval (rawScore : number) :
  nonneg (Math_exp (- (Fin 2.5 * rawScore + Fin (-1.0)))%js) ->
  in_unit_interval (plattScale Math_exp rawScore).
Proof. apply plattScale_in_unit. Qed.

Lemma classifyRisk_score_range p :
  in_unit_interval p ->
  exists z : Z, snd (classifyRisk p) = of_Z z /\ (0 <= z <= 100)%Z.
Proof.
  intros [Hlo Hhi]. destruct p as [q| | |]; try discriminate.
  cbn [le] in Hlo, Hhi. qprop.
  destruct (ScoringProps.classifyRisk_score_near q (conj Hlo Hhi)) as (z & Hz & Hrange & _).
  exists z. split; assumption.
Qed.

(** X12.  The scoring pass composes: whenever [Math.exp] returns a
    non-negative number for the exponent, the risk score computed from
    the calibrated probability of a vector is a whole number between 0
    and 100. *)
Theorem risk_score_is_percentage (vector : AMAFFeatureVector) :
  nonneg (Math_exp (- (Fin 2.5 * computeEnsembleScore vector + Fin (-1.0)))%js) ->
  exists z : Z,
    snd (classifyRisk (plattScale Math_exp (computeEnsembleScore vector))) = of_Z z /\
    (0 <= z <= 100)%Z.
Proof. intros Hexp. apply classifyRisk_score_range, plattScale_in_unit, Hexp. Qed.

End Calibrated.

Lemma computeEnsembleScore_all_normal_witness :
  computeEnsembleScore
    {| hfer := Some (Fin 0.4); svd := Some (Fin 0.1); pdi := None; tiis := None;
       fav := None; etk := Some (Fin 1); pvss := None; frd := None |} = Fin 0.
Proof.
  refine (proj1 (computeEnsembleScore_all_normal Approx.exp _ _)).
  intros key value Hslot. destruct key; cbn in Hslot; try discriminate Hslot;
    injection Hslot as <-; reflexivity.
Defined.

Lemma plattScale_unit_interval_witness :
  in_unit_interval (plattScale Approx.exp (Fin 1)).
Proof. apply plattScale_unit_interval. vm_compute. reflexivity. Defined.

Lemma risk_score_is_percentage_witness :
  exists z : Z,
    snd (classifyRisk (plattScale Approx.exp (computeEnsembleScore Examples.full_vector)))
    = of_Z z /\ (0 <= z <= 100)%Z.
Proof. apply risk_score_is_percentage. vm_compute. reflexivity. Defined.

End ScoringMore.

(** ** Audio: frames and short recordings *)

Module AudioMore.

Import Arr AudioDetector AudioNotions.

Lemma window_starts_length fuel extent size hop start :
  (0 < hop)%nat -> (extent < start + fuel * hop)%nat ->
  length (window_starts fuel extent size hop start)
  = if (start + size <=? extent)%nat then S ((extent - size - start) / hop) else O.
Proof.
  intros Hhop. revert start.
  induction fuel as [|fuel IH]; intros start Hfuel; cbn [window_starts].
  - destruct (Nat.leb_spec (start + size) extent); [lia | reflexivity].
  - destruct (Nat.leb_spec (start + size) extent) as [Hfit | Hout]; [|reflexivity].
    cbn [length]. rewrite IH by lia. f_equal.
    destruct (Nat.leb_spec (start + hop + size) extent) as [Hnext | Hlast].
    + replace (extent - size - start)%nat with ((extent - size - (start + hop)) + 1 * hop)%nat
        by lia.
      rewrite Nat.div_add by lia. lia.
    + rewrite Nat.div_small by lia. reflexivity.
Qed.

Lemma frames_of_length (samples : list number) frameSize hopSize :
  (0 < hopSize)%nat ->
  length (frames_of samples frameSize hopSize)
  = frame_count (length samples) frameSize hopSize.
Proof.
  intros Hhop. unfold frames_of, windows, frame_count.
  rewrite window_starts_length by nia.
  cbn [Nat.add]. rewrite Nat.sub_0_r. reflexivity.
Qed.

Lemma frame_count_bound n frameSize hopSize k :
  (0 < hopSize)%nat -> (n < frameSize + k * hopSize)%nat ->
  (frame_count n frameSize hopSize <= k)%nat.
Proof.
  intros Hhop Hn. unfold frame_count.
  destruct (Nat.leb_spec frameSize n) as [Hfit | Hout]; [|lia].
  assert (H : ((n - frameSize) / hopSize < k)%nat)
    by (apply Nat.Div0.div_lt_upper_bound; nia).
  lia.
Qed.

Section Audio.

Variable Math_cos : number -> number.
Variable Math_sin : number -> number.
Variable Math_sqrt : number -> number.
Variable Math_log : number -> number.
Variable Math_exp : number -> number.
Variable Math_PI : number.
Variable toFixed : number -> nat -> string.

Lemma computeSTFT_length samples frameSize hopSize :
  (0 < hopSize)%nat ->
  length (computeSTFT Math_cos Math_sin Math_sqrt Math_PI samples frameSize hopSize)
  = frame_count (length samples) frameSize hopSize.
Proof.
  intros Hhop. unfold computeSTFT. rewrite length_map. apply frames_of_length, Hhop.
Qed.

(** X20.  With a positive whole hop and an even frame size,
    [computeSTFT] returns one spectrum per whole frame that fits in the
    samples (a trailing partial frame is dropped, and nothing is returned
    when the samples are shorter than a frame), each of [frameSize / 2]
    bins.  So, for an even frame size, [computeSpectralFlatness] has one
    flatness value per frame and [computeEnergyTransition] one energy
    delta fewer than frames, the frames being half a frame apart. *)
Theorem computeSTFT_shape (samples : list number) (frameSize hopSize : nat) :
  (0 < hopSize)%nat ->
  (2 <= frameSize)%nat ->
  Nat.even frameSize = true ->
  let frames := frame_count (length samples) frameSize in
  length (computeSTFT Math_cos Math_sin Math_sqrt Math_PI samples frameSize hopSize)
  = frames hopSize /\
  Forall (fun spectrum => length spectrum = (frameSize / 2)%nat)
    (computeSTFT Math_cos Math_sin Math_sqrt Math_PI samples frameSize hopSize) /\
  length (SpectralFlatnessMetrics.flatnessValues
            (computeSpectralFlatness Math_cos Math_sin Math_sqrt Math_log Math_exp Math_PI
               samples frameSize))
  = frames (frameSize / 2)%nat /\
  length (EnergyTransitionMetrics.energyDeltas
            (computeEnergyTransition Math_cos Math_sin Math_sqrt Math_PI samples frameSize))
  = pred (frames (frameSize / 2)%nat).
Proof.
  intros Hhop Hsize _. cbv zeta.
  assert (Hhalf : (0 < frameSize / 2)%nat)
    by (apply Nat.div_str_pos; lia).
  split; [apply computeSTFT_length, Hhop|]. split; [|split].
  - unfold computeSTFT. apply Forall_forall. intros spectrum Hin.
    apply list_elem_of_In, in_map_iff in Hin as (start & <- & _).
    unfold frame_spectrum. rewrite length_map, length_seq. reflexivity.
  - unfold computeSpectralFlatness. cbn [SpectralFlatnessMetrics.flatnessValues].
    rewrite length_map. apply computeSTFT_length, Hhalf.
  - unfold computeEnergyTransition. cbn [EnergyTransitionMetrics.energyDeltas].
    rewrite VideoProps.adjacent_length, length_map, computeSTFT_length by exact Hhalf.
    reflexivity.
Qed.

Lemma kurtosis_few (values : list number) :
  (length values < 4)%nat -> kurtosis values = Fin 0.
Proof.
  intros Hfew. unfold kurtosis.
  destruct (Nat.ltb_spec (length values) 4) as [_ | H]; [reflexivity | lia].
Qed.

Lemma computeEnergyTransition_few samples frameSize :
  (2 <= frameSize)%nat ->
  (length samples < frameSize + 4 * (frameSize / 2))%nat ->
  EnergyTransitionMetrics.etk
    (computeEnergyTransition Math_cos Math_sin Math_sqrt Math_PI samples frameSize) = Fin 0.
Proof.
  intros Hsize Hfew.
  assert (Hhalf : (0 < frameSize / 2)%nat) by (apply Nat.div_str_pos; lia).
  unfold computeEnergyTransition. cbn [EnergyTransitionMetrics.etk].
  rewrite kurtosis_few; [reflexivity|].
  rewrite VideoProps.adjacent_length, length_map, computeSTFT_length by exact Hhalf.
  pose proof (frame_count_bound (length samples) frameSize (frameSize / 2) 4 Hhalf Hfew).
  lia.
Qed.

Lemma computePitchMetrics_few samples sampleRate frameSize :
  (2 <= frameSize)%nat ->
  (length samples < frameSize + 3 * (frameSize / 2))%nat ->
  let pitch := computePitchMetrics Math_sqrt samples sampleRate frameSize in
  PitchMetrics.pvss pitch = Fin 0 /\
  (length (filter (fun p => (p >? Fin 0)%js = true) (PitchMetrics.pitchContour pitch)) <= 3)%nat.
Proof.
  intros Hsize Hfew. cbv zeta.
  assert (Hhalf : (0 < frameSize / 2)%nat) by (apply Nat.div_str_pos; lia).
  pose proof (frame_count_bound (length samples) frameSize (frameSize / 2) 3 Hhalf Hfew)
    as Hcount.
  rewrite <- frames_of_length in Hcount by exact Hhalf.
  unfold computePitchMetrics.
  set (pitchContour := map _ (frames_of samples frameSize (frameSize / 2))).
  assert (Hvalid : (length (filter (fun p => (p >? Fin 0)%js = true) pitchContour) <= 3)%nat).
  { etransitivity; [apply length_filter|]. unfold pitchContour. rewrite length_map. exact Hcount. }
  destruct (Nat.ltb_spec (length (filter (fun p => (p >? Fin 0)%js = true) pitchContour)) 4)
    as [_ | H]; [|lia].
  cbn [PitchMetrics.pvss PitchMetrics.pitchContour]. split; [reflexivity | exact Hvalid].
Qed.

(** X21.  A recording of fewer than 3072 samples yields fewer than five
    energy frames and at most one pitch frame: [analyzeAudio] then returns
    [etk = 0] and [pvss = 0] whatever the samples and the sample rate, and
    raises neither the energy signal nor the pitch signal; the only signal
    it can raise is the spectral-flatness one. *)
Theorem analyzeAudio_few_frames (samples : list number) (sampleRate : N) :
  (length samples < 3072)%nat ->
  let result :=
    analyzeAudio Math_cos Math_sin Math_sqrt Math_log Math_exp Math_PI toFixed
      samples sampleRate in
  EnergyTransitionMetrics.etk (energyTransition result) = Fin 0 /\
  PitchMetrics.pvss (pitch result) = Fin 0 /\
  (audio_signals result = [] \/
   audio_signals result
   = [frd_signal toFixed (SpectralFlatnessMetrics.frd (spectralFlatness result))]).
Proof.
  intros Hfew. cbv zeta.
  assert (Hetk : EnergyTransitionMetrics.etk
                   (computeEnergyTransition Math_cos Math_sin Math_sqrt Math_PI samples 1024)
                 = Fin 0)
    by (apply computeEnergyTransition_few; [lia | exact Hfew]).
  destruct (computePitchMetrics_few samples sampleRate 2048) as [Hpvss Hvalid];
    [lia | cbn; lia |].
  unfold analyzeAudio.
  cbn [energyTransition pitch spectralFlatness audio_signals].
  split; [exact Hetk|]. split; [exact Hpvss|].
  unfold audio_signals_of. rewrite Hetk, Hpvss.
  change (Fin 0 >? Fin 5)%js with false. cbn [app].
  destruct (Nat.ltb_spec 10 (length (filter (fun p => (p >? Fin 0)%js = true)
              (PitchMetrics.pitchContour (computePitchMetrics Math_sqrt samples sampleRate 2048)))))
    as [H | _]; [lia|].
  rewrite andb_false_r. cbn [app].
  destruct (_ >? Fin 0.5)%js; [right | left]; reflexivity.
Qed.

(** On fewer samples than one frame [analyzeAudio] returns these metrics. *)
Lemma analyzeAudio_short (samples : list number) (sampleRate : N) :
  (length samples < 1024)%nat ->
  let result :=
    analyzeAudio Math_cos Math_sin Math_sqrt Math_log Math_exp Math_PI toFixed
      samples sampleRate in
  EnergyTransitionMetrics.etk (energyTransition result) = Fin 0 /\
  PitchMetrics.pvss (pitch result) = Fin 0 /\
  SpectralFlatnessMetrics.frd (spectralFlatness result) = NaN /\
  audio_signals result = [].
Proof.
  intros Hshort. cbv zeta.
  unfold analyzeAudio, computeEnergyTransition, computePitchMetrics, computeSpectralFlatness.
  rewrite !AudioProps.computeSTFT_short, AudioProps.frames_of_short by lia.
  repeat split.
Qed.

End Audio.

Lemma computeSTFT_shape_witness :
  length (computeSTFT Approx.cos Approx.sin Approx.sqrt Approx.PI Examples.short_silence 4 2)
  = frame_count (length Examples.short_silence) 4 2 /\
  Forall (fun spectrum => length spectrum = (4 / 2)%nat)
    (computeSTFT Approx.cos Approx.sin Approx.sqrt Approx.PI Examples.short_silence 4 2) /\
  length (SpectralFlatnessMetrics.flatnessValues
            (computeSpectralFlatness Approx.cos Approx.sin Approx.sqrt Approx.log Approx.exp
               Approx.PI Examples.short_silence 4))
  = frame_count (length Examples.short_silence) 4 (4 / 2) /\
  length (EnergyTransitionMetrics.energyDeltas
            (computeEnergyTransition Approx.cos Approx.sin Approx.sqrt Approx.PI
               Examples.short_silence 4))
  = pred (frame_count (length Examples.short_silence) 4 (4 / 2)).
Proof.
  apply (computeSTFT_shape Approx.cos Approx.sin Approx.sqrt Approx.log Approx.exp Approx.PI
           Examples.short_silence 4 2); [lia | lia | reflexivity].
Defined.

Lemma analyzeAudio_few_frames_witness :
  let result :=
    analyzeAudio Approx.cos Approx.sin Approx.sqrt Approx.log Approx.exp Approx.PI
      Approx.toFixed Examples.short_silence 44100 in
  EnergyTransitionMetrics.etk (energyTransition result) = Fin 0 /\
  PitchMetrics.pvss (pitch result) = Fin 0 /\
  (audio_signals result = [] \/
   audio_signals result
   = [frd_signal Approx.toFixed (SpectralFlatnessMetrics.frd (spectralFlatness result))]).
Proof.
  apply analyzeAudio_few_frames. vm_compute. lia.
Defined.

End AudioMore.

(** ** Pipeline: what a run reports *)

Module PipelineMore.

Import Pipeline ConfidenceManager ChangeDetector Spec PipelineNotions.

(** *** Merging keeps what is there *)

Lemma merge_fold_prefix news signals existingIds :
  (forall x, x ∈ existingIds <-> x ∈ ids signals) ->
  exists added,
    fst (fold_left merge_step news (signals, existingIds)) = signals ++ added /\
    added `sublist_of` news /\
    (forall sig, sig ∈ added -> id sig ∉ ids signals) /\
    (forall sig, sig ∈ news -> id sig ∈ ids (signals ++ added)).
Proof.
  revert signals existingIds.
  induction news as [|sig news IH]; intros signals existingIds Hset; cbn [fold_left].
  - exists []. rewrite app_nil_r. split; [reflexivity|]. split; [constructor|].
    split; intros sig Hsig; inversion Hsig.
  - destruct (bool_decide (id sig ∈ existingIds)) eqn:Hin.
    + replace (merge_step (signals, existingIds) sig) with (signals, existingIds)
        by (unfold merge_step; cbn [fst snd]; rewrite Hin; reflexivity).
      apply bool_decide_eq_true in Hin.
      destruct (IH signals existingIds Hset) as (added & Heq & Hsub & Hnew & Hall).
      exists added. split; [exact Heq|]. split; [apply sublist_cons, Hsub|].
      split; [exact Hnew|]. intros sig' Hsig'.
      apply elem_of_cons in Hsig' as [-> | Hsig']; [|apply Hall, Hsig'].
      rewrite PipelineProps.ids_app. apply elem_of_app. left. apply Hset, Hin.
    + replace (merge_step (signals, existingIds) sig)
        with (signals ++ [sig], ({[ id sig ]} ∪ existingIds : gset string))
        by (unfold merge_step; cbn [fst snd]; rewrite Hin; reflexivity).
      apply bool_decide_eq_false in Hin.
      destruct (IH (signals ++ [sig]) ({[ id sig ]} ∪ existingIds))
        as (added & Heq & Hsub & Hnew & Hall).
      { intros x. rewrite PipelineProps.ids_app, elem_of_app, elem_of_union, elem_of_singleton, Hset.
        cbn. rewrite list_elem_of_singleton. tauto. }
      exists (sig :: added). rewrite <- app_assoc in Heq, Hall. cbn [app] in Heq, Hall.
      split; [exact Heq|]. split; [apply sublist_skip, Hsub|]. split.
      * intros sig' Hsig' Hold. apply elem_of_cons in Hsig' as [-> | Hsig'].
        -- apply Hin, Hset, Hold.
        -- apply (Hnew sig' Hsig'). rewrite PipelineProps.ids_app. apply elem_of_app. left. exact Hold.
      * intros sig' Hsig'. apply elem_of_cons in Hsig' as [-> | Hsig']; [|apply Hall, Hsig'].
        rewrite PipelineProps.ids_app. apply elem_of_app. right. cbn. left.
Qed.

(** X13.  The merge loop of Levels 2 and 3 never touches what is already
    collected: the merged list is the old list followed by some of the new
    signals, in their order; a new signal is added only under an
    identifier the old list does not have, and every identifier of a new
    signal is present afterwards. *)
Theorem merge_signals_first_wins (signals news : list DetectionSignalOutput) :
  exists added,
    merge_signals signals news = signals ++ added /\
    added `sublist_of` news /\
    (forall sig, sig ∈ added -> id sig ∉ ids signals) /\
    (forall sig, sig ∈ news -> id sig ∈ ids (merge_signals signals news)).
Proof.
  unfold merge_signals.
  destruct (merge_fold_prefix news signals (list_to_set (map id signals)))
    as (added & Heq & Hsub & Hnew & Hall); [intros x; apply elem_of_list_to_set|].
  exists added. rewrite Heq. repeat split; assumption.
Qed.

(** *** What each stage leaves alone *)

Ltac split_run :=
  repeat match goal with
         | |- context [if ?c then _ else _] => destruct c
         | |- context [match ?c with Some _ => _ | None => _ end] => destruct c
         end.

Section Stages.

Variable P : Platform.

Lemma with_level_late st level exit : late_findings (with_level st level exit) = late_findings st.
Proof. reflexivity. Qed.

Lemma with_level_findings st level exit : findings (with_level st level exit) = findings st.
Proof. reflexivity. Qed.

Lemma level1_image_late route st : late_findings (level1_image P route st) = late_findings st.
Proof. unfold level1_image. split_run; reflexivity. Qed.

Lemma level1_video_late route st : late_findings (level1_video P route st) = late_findings st.
Proof. unfold level1_video. split_run; reflexivity. Qed.

Lemma level1_audio_late route st : late_findings (level1_audio P route st) = late_findings st.
Proof. unfold level1_audio. split_run; reflexivity. Qed.

Lemma level2_image_late route st : late_findings (level2_image P route st) = late_findings st.
Proof. unfold level2_image. split_run; reflexivity. Qed.

Lemma level2_video_late route st : late_findings (level2_video P route st) = late_findings st.
Proof. unfold level2_video. split_run; reflexivity. Qed.

Lemma level2_audio_late route st : late_findings (level2_audio P route st) = late_findings st.
Proof. unfold level2_audio. split_run; reflexivity. Qed.

Lemma level1_late route random1 st : late_findings (level1 P route random1 st) = late_findings st.
Proof.
  unfold level1. split_run; rewrite ?with_level_late;
    rewrite level1_audio_late, level1_video_late, level1_image_late; reflexivity.
Qed.

Lemma level2_late route random2 st : late_findings (level2 P route random2 st) = late_findings st.
Proof.
  unfold level2. split_run; rewrite ?with_level_late;
    rewrite ?level2_audio_late, ?level2_video_late, ?level2_image_late; reflexivity.
Qed.

Lemma level1_image_level route st : run_currentLevel (level1_image P route st) = run_currentLevel st.
Proof. unfold level1_image. split_run; reflexivity. Qed.

Lemma level1_video_level route st : run_currentLevel (level1_video P route st) = run_currentLevel st.
Proof. unfold level1_video. split_run; reflexivity. Qed.

Lemma level1_audio_level route st : run_currentLevel (level1_audio P route st) = run_currentLevel st.
Proof. unfold level1_audio. split_run; reflexivity. Qed.

Lemma level2_image_level route st : run_currentLevel (level2_image P route st) = run_currentLevel st.
Proof. unfold level2_image. split_run; reflexivity. Qed.

Lemma level2_video_level route st : run_currentLevel (level2_video P route st) = run_currentLevel st.
Proof. unfold level2_video. split_run; reflexivity. Qed.

Lemma level2_audio_level route st : run_currentLevel (level2_audio P route st) = run_currentLevel st.
Proof. unfold level2_audio. split_run; reflexivity. Qed.

Lemma level3_video_level route st : run_currentLevel (level3_video P route st) = run_currentLevel st.
Proof. unfold level3_video. split_run; reflexivity. Qed.

(** Level 1 leaves the level alone or moves it from 1 to 2. *)
Lemma level1_level route random1 st :
  (depth (run_currentLevel st) <= depth (run_currentLevel (level1 P route random1 st)))%nat.
Proof.
  unfold level1. rewrite PipelineProps.escalate_no_early_exit.
  destruct (shouldEscalate _ && is_level1 _) eqn:Hup; cbn [with_level run_currentLevel].
  - apply andb_true_iff in Hup as [_ Hup].
    rewrite level1_audio_level, level1_video_level, level1_image_level in Hup.
    destruct (run_currentLevel st); [cbn; lia | discriminate Hup | discriminate Hup].
  - rewrite level1_audio_level, level1_video_level, level1_image_level. lia.
Qed.

(** Level 2 leaves the level alone or moves it to 3. *)
Lemma level2_level route random2 st :
  (depth (run_currentLevel st) <= depth (run_currentLevel (level2 P route random2 st)))%nat.
Proof.
  unfold level2. destruct (negb _ && _); [|lia].
  rewrite PipelineProps.escalate_no_early_exit.
  destruct (shouldEscalate _); cbn [with_level run_currentLevel].
  - destruct (run_currentLevel st); cbn; lia.
  - rewrite level2_audio_level, level2_video_level, level2_image_level. lia.
Qed.

End Stages.

(** *** The Level 3 block *)

Lemma cusum_id_fresh : cusum_id ∉ (image_ids ++ video_ids) ++ audio_ids.
Proof. apply (bool_decide_unpack _). vm_compute. exact I. Qed.

Lemma detectChangePoints_in_range segments allowance threshold :
  Forall (points_into segments) (detectChangePoints segments allowance threshold).
Proof.
  unfold detectChangePoints. destruct (length segments <? 3)%nat; [constructor|].
  destruct (ChangeMore.cusum_loop_invariant segments (scores_mean segments) allowance threshold
              segments 0 cusum_init) as (Hwf & _).
  - repeat split; try constructor. intros x Hx. cbn in Hx. set_solver.
  - intros k segment Hk. exact Hk.
  - eapply Forall_impl; [exact Hwf|]. cbn.
    intros cp (i & segment & Hi & Hseg & _). apply lookup_lt_Some in Hseg.
    unfold points_into. lia.
Qed.

Section Results.

Variable P : Platform.

Lemma level3_cusum_outcome st :
  run_changePoints st = [] ->
  cusum_id ∉ ids (run_signals st) ->
  exists st',
    level3_cusum P st = Some st' /\
    run_featureVector st' = run_featureVector st /\
    run_currentLevel st' = run_currentLevel st /\
    run_opticalFlowMetrics st' = run_opticalFlowMetrics st /\
    (run_changePoints st' <> [] <-> cusum_id ∈ ids (run_signals st')) /\
    (run_changePoints st' <> [] -> (3 <= length (run_segments st'))%nat) /\
    Forall (points_into (run_segments st')) (run_changePoints st').
Proof.
  intros Hcps Hfresh. unfold level3_cusum.
  destruct (3 <=? length (run_segments st))%nat eqn:H3.
  - apply Nat.leb_le in H3.
    pose proof (detectChangePoints_in_range (run_segments st) default_allowance default_threshold)
      as Hrange.
    destruct (detectChangePoints (run_segments st) default_allowance default_threshold)
      as [|cp cps] eqn:Hdetect.
    + cbn [length Nat.ltb Nat.leb]. eexists. split; [reflexivity|].
      cbn [run_featureVector run_currentLevel run_opticalFlowMetrics run_changePoints
           run_signals run_segments].
      repeat split; try (intros H; contradiction); try constructor.
    + cbn [length Nat.ltb Nat.leb].
      destruct (ChangeProps.enrich_all_spec default_radius (cp :: cps) (run_segments st))
        as (out & Hout & Hlen & _).
      unfold enrichSegmentsWithChangePoints. rewrite Hout. cbn [mbind option_bind].
      eexists. split; [reflexivity|].
      cbn [run_featureVector run_currentLevel run_opticalFlowMetrics run_changePoints
           run_signals run_segments].
      split; [reflexivity|]. split; [reflexivity|]. split; [reflexivity|]. split; [|split].
      * split; [|intros _; discriminate].
        intros _. rewrite PipelineProps.ids_app. apply elem_of_app. right. cbn. left.
      * intros _. rewrite Hlen. exact H3.
      * eapply Forall_impl; [exact Hrange|]. cbn. unfold points_into. rewrite Hlen. tauto.
  - exists st. split; [reflexivity|]. rewrite Hcps.
    repeat split; try (intros H; contradiction); try constructor.
Qed.

Lemma level3_video_flow route st :
  late_findings st = ([], None, None) ->
  let st' := level3_video P route st in
  run_changePoints st' = [] /\
  (fav (run_featureVector st') <> None <-> long_video route) /\
  fav (run_featureVector st') = option_map OpticalFlowMetrics.fav (run_opticalFlowMetrics st').
Proof.
  intros Hlate. injection Hlate as Hcps Hfav Hflow. cbv zeta. unfold level3_video.
  assert (Hskip : ~ long_video route ->
            run_changePoints st = [] /\
            (fav (run_featureVector st) <> None <-> long_video route) /\
            fav (run_featureVector st)
            = option_map OpticalFlowMetrics.fav (run_opticalFlowMetrics st)).
  { intros Hshort. rewrite Hcps, Hfav, Hflow. split; [reflexivity|]. split; [|reflexivity].
    split; [intros H; contradiction | intros H; contradiction]. }
  destruct (mediaType route) eqn:Hmt; cbn [is_video];
    try (apply Hskip; intros [H _]; congruence).
  destruct (frames route) as [frames|] eqn:Hframes;
    [|apply Hskip; intros (_ & fr & H & _); congruence].
  destruct (3 <=? length frames)%nat eqn:H3.
  - cbn [run_changePoints run_featureVector run_opticalFlowMetrics].
    unfold analyzeVideo, VideoDetector.analyzeVideo. cbn [VideoDetector.opticalFlow].
    rewrite H3. cbn [andb set_fav fav option_map]. split; [exact Hcps|]. split; [|reflexivity].
    split; [|intros _; discriminate]. intros _. split; [exact Hmt|].
    exists frames. split; [exact Hframes | apply Nat.leb_le, H3].
  - apply Hskip. intros (_ & fr & H & Hlen). rewrite Hframes in H. injection H as <-.
    apply Nat.leb_gt in H3. lia.
Qed.

Lemma is_level3_spec level : is_level3 level = true <-> level = level3_temporal_crossmodal.
Proof. destruct level; cbn; split; intros H; try reflexivity; discriminate H. Qed.

(** What the three blocks leave behind, for every route and both draws. *)
Lemma run_outcome route random1 random2 :
  let st2 := level2 P route random2 (level1 P route random1 (initial route)) in
  exists st,
    level3 P route st2 = Some st /\
    run_currentLevel st = run_currentLevel st2 /\
    (run_changePoints st <> [] <-> cusum_id ∈ ids (run_signals st)) /\
    (run_changePoints st <> [] ->
       run_currentLevel st = level3_temporal_crossmodal /\
       (3 <= length (run_segments st))%nat) /\
    Forall (points_into (run_segments st)) (run_changePoints st) /\
    (fav (run_featureVector st) <> None <->
       long_video route /\ run_currentLevel st = level3_temporal_crossmodal) /\
    fav (run_featureVector st) = option_map OpticalFlowMetrics.fav (run_opticalFlowMetrics st).
Proof.
  intros st2.
  assert (Hexit : run_earlyExit st2 = false)
    by (unfold st2; rewrite PipelineProps.level2_earlyExit, PipelineProps.level1_earlyExit;
        reflexivity).
  assert (Hlate : late_findings st2 = ([], None, None))
    by (unfold st2; rewrite level2_late, level1_late; reflexivity).
  assert (Hsig : distinct_within ((image_ids ++ video_ids) ++ audio_ids) (run_signals st2))
    by (apply PipelineProps.level2_signals, PipelineProps.level1_signals; reflexivity).
  unfold level3. rewrite Hexit. cbn [negb andb].
  destruct (is_level3 (run_currentLevel st2)) eqn:Hl3.
  - apply is_level3_spec in Hl3.
    destruct (level3_video_flow route st2 Hlate) as (Hcps & Hfav & Hflow).
    destruct (level3_cusum_outcome (level3_video P route st2) Hcps)
      as (st & Hret & Hvec & Hlevel & Hmetrics & Hiff & Hlen & Hrange).
    { intros Hin.
      apply cusum_id_fresh, (proj2 (PipelineProps.level3_video_signals P route st2 Hsig)), Hin. }
    rewrite level3_video_level in Hlevel.
    exists st. split; [exact Hret|]. split; [exact Hlevel|]. split; [exact Hiff|].
    split; [intros H; split; [rewrite Hlevel; exact Hl3 | apply Hlen, H]|].
    split; [exact Hrange|]. rewrite Hvec, Hmetrics, Hlevel. split; [|exact Hflow].
    rewrite Hfav. split; [intros H; split; [exact H | exact Hl3] | intros [H _]; exact H].
  - injection Hlate as Hcps Hfav Hflow.
    exists st2. split; [reflexivity|]. split; [reflexivity|]. rewrite Hcps, Hfav, Hflow.
    split.
    { split; [intros H; contradiction|]. intros Hin. exfalso.
      apply cusum_id_fresh, (proj2 Hsig), Hin. }
    split; [intros H; contradiction|]. split; [constructor|]. split; [|reflexivity].
    split; [intros H; contradiction|]. intros [_ H]. apply is_level3_spec in H.
    rewrite H in Hl3. discriminate Hl3.
Qed.

Lemma assemble_fields startTime now st :
  let result := assemble P startTime now st in
  Pipeline.featureVector result = run_featureVector st /\
  Pipeline.signals result = run_signals st /\
  Pipeline.segments result = run_segments st /\
  Pipeline.changePoints result = run_changePoints st /\
  Pipeline.analysisLevel result = run_currentLevel st /\
  Pipeline.opticalFlowMetrics result = run_opticalFlowMetrics st /\
  Pipeline.fakeProbability result
  = ScoringEngine.plattScale (Math_exp P) (ScoringEngine.computeEnsembleScore (run_featureVector st)).
Proof.
  cbv zeta. unfold assemble, scoreFeatureVector.
  destruct (ScoringEngine.classifyRisk _) as [riskLevel riskScore]. repeat split.
Qed.

(** X14.  In every result of [runPipeline], the change-point list is
    non-empty exactly when the signal "cusum-changepoints" is reported;
    this happens only at Level 3 and with at least three segments; and
    every change point names a position of the reported segment list. *)
Theorem runPipeline_change_points
    (route : MediaRouteDecision) (random1 random2 startTime now : number) :
  exists result,
    runPipeline P route random1 random2 startTime now = Some result /\
    (Pipeline.changePoints result <> [] <-> cusum_id ∈ ids (Pipeline.signals result)) /\
    (Pipeline.changePoints result <> [] ->
       Pipeline.analysisLevel result = level3_temporal_crossmodal /\
       (3 <= length (Pipeline.segments result))%nat) /\
    Forall (points_into (Pipeline.segments result)) (Pipeline.changePoints result).
Proof.
  destruct (run_outcome route random1 random2) as (st & Hret & _ & Hiff & Hlevel & Hrange & _).
  unfold runPipeline. rewrite Hret. cbn [mbind option_bind].
  eexists. split; [reflexivity|].
  destruct (assemble_fields startTime now st) as (_ & -> & -> & -> & -> & _).
  split; [exact Hiff|]. split; [exact Hlevel | exact Hrange].
Qed.

(** X15.  The [fav] slot of the result is populated exactly when the
    route is a video of at least three frames and the run reached Level 3;
    it then holds the [fav] of the reported optical-flow metrics, which
    are absent otherwise. *)
Theorem runPipeline_fav_only_at_level3
    (route : MediaRouteDecision) (random1 random2 startTime now : number) :
  exists result,
    runPipeline P route random1 random2 startTime now = Some result /\
    (fav (Pipeline.featureVector result) <> None <->
       long_video route /\ analysisLevel result = level3_temporal_crossmodal) /\
    fav (Pipeline.featureVector result) = option_map OpticalFlowMetrics.fav (Pipeline.opticalFlowMetrics result).
Proof.
  destruct (run_outcome route random1 random2) as (st & Hret & _ & _ & _ & _ & Hfav & Hflow).
  unfold runPipeline. rewrite Hret. cbn [mbind option_bind].
  eexists. split; [reflexivity|].
  destruct (assemble_fields startTime now st) as (-> & _ & _ & _ & -> & -> & _).
  split; [exact Hfav | exact Hflow].
Qed.

(** X16.  The level reported in the result is never below the level
    [determineStartLevel] chose: the blocks only ever move the level up. *)
Theorem runPipeline_level_never_drops
    (route : MediaRouteDecision) (random1 random2 startTime now : number) :
  exists result,
    runPipeline P route random1 random2 startTime now = Some result /\
    (depth (determineStartLevel (mediaType route) (fileSize route))
     <= depth (Pipeline.analysisLevel result))%nat.
Proof.
  destruct (run_outcome route random1 random2) as (st & Hret & Hlevel & _).
  unfold runPipeline. rewrite Hret. cbn [mbind option_bind].
  eexists. split; [reflexivity|].
  destruct (assemble_fields startTime now st) as (_ & _ & _ & _ & -> & _).
  rewrite Hlevel.
  etransitivity; [|apply level2_level]. etransitivity; [|apply level1_level].
  reflexivity.
Qed.

(** *** Routes that carry little *)

Lemma level1_findings route random1 st :
  findings (level1 P route random1 st)
  = findings (level1_audio P route (level1_video P route (level1_image P route st))).
Proof. unfold level1. split_run; reflexivity. Qed.

Lemma level2_findings route random2 st :
  findings (level2 P route random2 st) = findings st \/
  run_currentLevel st <> level1_lightweight /\
  run_currentLevel (level2 P route random2 st) <> level1_lightweight /\
  findings (level2 P route random2 st)
  = findings (level2_audio P route (level2_video P route (level2_image P route st))).
Proof.
  unfold level2. destruct (negb _ && _) eqn:Hrun; [|left; reflexivity].
  apply andb_true_iff in Hrun as [_ Hrun]. right.
  assert (Hst : run_currentLevel st <> level1_lightweight)
    by (intros H; rewrite H in Hrun; discriminate Hrun).
  split; [exact Hst|]. rewrite PipelineProps.escalate_no_early_exit.
  destruct (shouldEscalate _); cbn [with_level run_currentLevel].
  - split; [discriminate | reflexivity].
  - rewrite level2_audio_level, level2_video_level, level2_image_level.
    split; [exact Hst | reflexivity].
Qed.

Lemma level3_nothing route st :
  run_segments st = [] -> level3_video P route st = st ->
  exists st', level3 P route st = Some st' /\ findings st' = findings st /\
              run_currentLevel st' = run_currentLevel st.
Proof.
  intros Hseg Hvideo. unfold level3. destruct (negb _ && _).
  - rewrite Hvideo. unfold level3_cusum. rewrite Hseg. cbn [length Nat.leb].
    exists st. repeat split.
  - exists st. repeat split.
Qed.

Lemma findings_segments st st' : findings st = findings st' -> run_segments st = run_segments st'.
Proof. intros H. exact (f_equal (fun t => snd (fst (fst (fst t)))) H). Qed.

Lemma assemble_findings startTime now st st' :
  findings st = findings st' ->
  let result := assemble P startTime now st in
  Pipeline.featureVector result = run_featureVector st' /\
  Pipeline.signals result = run_signals st' /\
  Pipeline.segments result = run_segments st' /\
  Pipeline.changePoints result = run_changePoints st' /\
  Pipeline.fakeProbability result
  = ScoringEngine.plattScale (Math_exp P)
      (ScoringEngine.computeEnsembleScore (run_featureVector st')).
Proof.
  intros H. cbv zeta.
  destruct (assemble_fields startTime now st) as (-> & -> & -> & -> & _ & _ & ->).
  unfold findings in H. injection H as Hv Hs Hseg Hcp _ _ _ _ _ _ _.
  rewrite Hv, Hs, Hseg, Hcp. repeat split.
Qed.

(** X17.  A route with nothing to analyze (not an image, no audio buffer,
    no frame) goes through all the blocks without a finding: the result has
    the all-null feature vector, no signal, segment or change point, and
    the probability [plattScale 0], whatever the start level and the
    draws. *)
Theorem runPipeline_no_payload
    (route : MediaRouteDecision) (random1 random2 startTime now : number) :
  no_payload route ->
  exists result,
    runPipeline P route random1 random2 startTime now = Some result /\
    Pipeline.featureVector result = Examples.empty_vector /\
    Pipeline.signals result = [] /\
    Pipeline.segments result = [] /\
    Pipeline.changePoints result = [] /\
    Pipeline.fakeProbability result = ScoringEngine.plattScale (Math_exp P) (Fin 0).
Proof.
  intros (Himg & Haud & Hframes).
  assert (Hnone : (if is_video (mediaType route) then some_frames route else None) = None).
  { unfold some_frames. destruct (frames route) as [[|f fs]|]; [| contradiction |];
      destruct (is_video _); reflexivity. }
  assert (H1 : forall st,
             level1_audio P route (level1_video P route (level1_image P route st)) = st).
  { intros st. unfold level1_audio, level1_video, level1_image.
    rewrite Himg, Haud, Hnone. destruct (is_audio _); reflexivity. }
  assert (H2 : forall st,
             level2_audio P route (level2_video P route (level2_image P route st)) = st).
  { intros st. unfold level2_audio, level2_video, level2_image.
    rewrite Himg, Haud, Hnone. reflexivity. }
  assert (H3 : forall st, level3_video P route st = st).
  { intros st. unfold level3_video.
    destruct (frames route) as [[|f fs]|]; [| contradiction |];
      destruct (is_video _); reflexivity. }
  set (st1 := level1 P route random1 (initial route)).
  assert (Hst1 : findings st1 = findings (initial route))
    by (unfold st1; rewrite level1_findings, H1; reflexivity).
  set (st2 := level2 P route random2 st1).
  assert (Hst2 : findings st2 = findings (initial route)).
  { unfold st2. destruct (level2_findings route random2 st1) as [-> | (_ & _ & ->)];
      [exact Hst1 | rewrite H2; exact Hst1]. }
  destruct (level3_nothing route st2) as (st3 & Hret & Hst3 & _);
    [rewrite (findings_segments _ _ Hst2); reflexivity | apply H3 |].
  unfold runPipeline. fold st1. fold st2. rewrite Hret. cbn [mbind option_bind].
  eexists. split; [reflexivity|].
  rewrite Hst2 in Hst3.
  destruct (assemble_findings startTime now st3 (initial route) Hst3)
    as (-> & -> & -> & -> & ->).
  repeat split.
Qed.

Lemma findings_fields st st' :
  findings st = findings st' ->
  run_featureVector st = run_featureVector st' /\
  run_signals st = run_signals st' /\
  run_segments st = run_segments st' /\
  run_changePoints st = run_changePoints st'.
Proof.
  intros H. split; [|split; [|split]].
  - exact (f_equal (fun t => fst (fst (fst (fst (fst t))))) H).
  - exact (f_equal (fun t => snd (fst (fst (fst (fst t))))) H).
  - exact (f_equal (fun t => snd (fst (fst (fst t)))) H).
  - exact (f_equal (fun t => snd (fst (fst t))) H).
Qed.

Lemma level1_audio_run route samples st :
  mediaType route = audio ->
  audioBuffer route = Some samples ->
  run_featureVector (level1_audio P route st)
  = set_etk (run_featureVector st)
      (EnergyTransitionMetrics.etk (computeEnergyTransition P samples)) /\
  run_signals (level1_audio P route st) = run_signals st /\
  run_segments (level1_audio P route st) = run_segments st /\
  run_changePoints (level1_audio P route st) = run_changePoints st.
Proof.
  intros Hmt Hbuf. unfold level1_audio. rewrite Hmt, Hbuf. cbn [is_audio].
  split; [reflexivity|]. split; [reflexivity|]. split; reflexivity.
Qed.

Lemma level2_audio_run route samples st :
  audioBuffer route = Some samples ->
  run_featureVector (level2_audio P route st)
  = set_frd
      (set_pvss
         (set_etk (run_featureVector st)
            (EnergyTransitionMetrics.etk
               (AudioDetector.energyTransition (analyzeAudio P samples))))
         (PitchMetrics.pvss (AudioDetector.pitch (analyzeAudio P samples))))
      (SpectralFlatnessMetrics.frd (AudioDetector.spectralFlatness (analyzeAudio P samples))) /\
  run_signals (level2_audio P route st)
  = run_signals st ++ AudioDetector.audio_signals (analyzeAudio P samples) /\
  run_segments (level2_audio P route st) = run_segments st /\
  run_changePoints (level2_audio P route st) = run_changePoints st.
Proof.
  intros Hbuf. unfold level2_audio. rewrite Hbuf.
  split; [reflexivity|]. split; [reflexivity|]. split; reflexivity.
Qed.

(** The run of an audio route with a decoded buffer. *)
Lemma audio_run (route : MediaRouteDecision) (samples : list number) (random1 random2 : number) :
  mediaType route = audio ->
  audioBuffer route = Some samples ->
  exists st,
    level3 P route (level2 P route random2 (level1 P route random1 (initial route))) = Some st /\
    run_featureVector st
    = {| hfer := None; svd := None; pdi := None; tiis := None; fav := None;
         etk := Some (EnergyTransitionMetrics.etk
                        (AudioDetector.energyTransition (analyzeAudio P samples)));
         pvss := Some (PitchMetrics.pvss (AudioDetector.pitch (analyzeAudio P samples)));
         frd := Some (SpectralFlatnessMetrics.frd
                        (AudioDetector.spectralFlatness (analyzeAudio P samples))) |} /\
    run_signals st = AudioDetector.audio_signals (analyzeAudio P samples) /\
    run_segments st = [] /\
    run_changePoints st = [] /\
    run_currentLevel st <> level1_lightweight.
Proof.
  intros Hmt Hbuf.
  assert (Hi1 : forall st, level1_image P route st = st)
    by (intros st; unfold level1_image; rewrite Hmt; reflexivity).
  assert (Hv1 : forall st, level1_video P route st = st)
    by (intros st; unfold level1_video; rewrite Hmt; reflexivity).
  assert (Hi2 : forall st, level2_image P route st = st)
    by (intros st; unfold level2_image; rewrite Hmt; reflexivity).
  assert (Hv2 : forall st, level2_video P route st = st)
    by (intros st; unfold level2_video; rewrite Hmt; reflexivity).
  assert (Hv3 : forall st, level3_video P route st = st)
    by (intros st; unfold level3_video; rewrite Hmt; reflexivity).
  assert (Hstart : run_currentLevel (initial route) = level2_deep_spatial)
    by (cbn [initial run_currentLevel]; unfold determineStartLevel; rewrite Hmt; reflexivity).
  set (st1 := level1 P route random1 (initial route)).
  assert (Hst1 : findings st1 = findings (level1_audio P route (initial route)))
    by (unfold st1; rewrite level1_findings, Hi1, Hv1; reflexivity).
  assert (Hlevel1 : run_currentLevel st1 = level2_deep_spatial).
  { unfold st1, level1. rewrite PipelineProps.escalate_no_early_exit.
    rewrite Hi1, Hv1, level1_audio_level, Hstart.
    cbn [is_level1]. rewrite andb_false_r. rewrite level1_audio_level. exact Hstart. }
  assert (Hexit1 : run_earlyExit st1 = false)
    by (unfold st1; rewrite PipelineProps.level1_earlyExit; reflexivity).
  set (st2 := level2 P route random2 st1).
  assert (Hst2 : findings st2 = findings (level2_audio P route st1) /\
                 run_currentLevel st2 <> level1_lightweight).
  { unfold st2, level2. rewrite Hexit1, Hlevel1. cbn [negb andb is_level2 orb].
    rewrite PipelineProps.escalate_no_early_exit, Hi2, Hv2.
    destruct (shouldEscalate _); cbn [with_level run_currentLevel].
    - split; [reflexivity | discriminate].
    - split; [reflexivity|]. rewrite level2_audio_level, Hlevel1. discriminate. }
  destruct Hst2 as [Hst2 Hlevel2].
  destruct (findings_fields _ _ Hst1) as (Hvec1 & Hsig1 & Hseg1 & Hcp1).
  destruct (level1_audio_run route samples (initial route) Hmt Hbuf)
    as (Hvec0 & Hsig0 & Hseg0 & Hcp0).
  rewrite Hvec0 in Hvec1. rewrite Hsig0 in Hsig1. rewrite Hseg0 in Hseg1. rewrite Hcp0 in Hcp1.
  destruct (findings_fields _ _ Hst2) as (Hvec2 & Hsig2 & Hseg2 & Hcp2).
  destruct (level2_audio_run route samples st1 Hbuf) as (Hvec & Hsig & Hseg & Hcp).
  rewrite Hvec, Hvec1 in Hvec2. rewrite Hsig, Hsig1 in Hsig2.
  rewrite Hseg, Hseg1 in Hseg2. rewrite Hcp, Hcp1 in Hcp2.
  destruct (level3_nothing route st2) as (st3 & Hret & Hst3 & Hlevel3);
    [exact Hseg2 | apply Hv3 |].
  destruct (findings_fields _ _ Hst3) as (Hvec3 & Hsig3 & Hseg3 & Hcp3).
  exists st3. fold st1. fold st2. split; [exact Hret|].
  rewrite Hvec3, Hsig3, Hseg3, Hcp3, Hlevel3, Hvec2, Hsig2, Hseg2, Hcp2.
  split; [reflexivity|]. split; [reflexivity|]. split; [reflexivity|].
  split; [reflexivity | exact Hlevel2].
Qed.


(** X18.  An audio route with a decoded buffer always gets the whole audio
    suite, whatever the file size and the draws: the result carries the
    three audio metrics of [analyzeAudio] and exactly its signals, leaves
    the five visual slots null, is reported at Level 2 or 3, and has no
    segment and no change point, so change detection never runs on audio. *)
Theorem runPipeline_audio
    (route : MediaRouteDecision) (samples : list number)
    (random1 random2 startTime now : number) :
  mediaType route = audio ->
  audioBuffer route = Some samples ->
  exists result,
    runPipeline P route random1 random2 startTime now = Some result /\
    Pipeline.featureVector result
    = {| hfer := None; svd := None; pdi := None; tiis := None; fav := None;
         etk := Some (EnergyTransitionMetrics.etk
                        (AudioDetector.energyTransition (analyzeAudio P samples)));
         pvss := Some (PitchMetrics.pvss (AudioDetector.pitch (analyzeAudio P samples)));
         frd := Some (SpectralFlatnessMetrics.frd
                        (AudioDetector.spectralFlatness (analyzeAudio P samples))) |} /\
    Pipeline.signals result = AudioDetector.audio_signals (analyzeAudio P samples) /\
    Pipeline.segments result = [] /\
    Pipeline.changePoints result = [] /\
    Pipeline.analysisLevel result <> level1_lightweight.
Proof.
  intros Hmt Hbuf.
  destruct (audio_run route samples random1 random2 Hmt Hbuf)
    as (st & Hret & Hv & Hs & Hseg & Hcp & Hlevel).
  unfold runPipeline. rewrite Hret. cbn [mbind option_bind].
  eexists. split; [reflexivity|].
  destruct (assemble_fields startTime now st) as (-> & -> & -> & -> & -> & _).
  repeat split; assumption.
Qed.

Lemma assemble_risk startTime now st :
  let result := assemble P startTime now st in
  Pipeline.riskLevel result = fst (ScoringEngine.classifyRisk (Pipeline.fakeProbability result)) /\
  Pipeline.riskScore result = snd (ScoringEngine.classifyRisk (Pipeline.fakeProbability result)).
Proof.
  cbv zeta. unfold assemble, scoreFeatureVector.
  destruct (ScoringEngine.classifyRisk _) as [riskLevel riskScore].
  split; reflexivity.
Qed.

(** X22.  An audio recording shorter than one analysis frame (1024
    samples) goes through the whole pipeline with [frd = NaN] in its
    feature vector; as [Math.exp(NaN)] is NaN, the result has the
    probability NaN and the risk score NaN, every threshold test on it
    fails and the risk level is the lowest one; no signal is reported. *)
Theorem runPipeline_short_audio
    (route : MediaRouteDecision) (samples : list number)
    (random1 random2 startTime now : number) :
  mediaType route = audio ->
  audioBuffer route = Some samples ->
  (length samples < 1024)%nat ->
  Math_exp P NaN = NaN ->
  exists result,
    runPipeline P route random1 random2 startTime now = Some result /\
    Pipeline.featureVector result
    = {| hfer := None; svd := None; pdi := None; tiis := None; fav := None;
         etk := Some (Fin 0); pvss := Some (Fin 0); frd := Some NaN |} /\
    Pipeline.fakeProbability result = NaN /\
    Pipeline.riskLevel result = low /\
    Pipeline.riskScore result = NaN /\
    Pipeline.signals result = [].
Proof.
  intros Hmt Hbuf Hshort Hexp.
  destruct (audio_run route samples random1 random2 Hmt Hbuf)
    as (st & Hret & Hv & Hs & _).
  destruct (AudioMore.analyzeAudio_short (Math_cos P) (Math_sin P) (Math_sqrt P) (Math_log P)
              (Math_exp P) (Math_PI P) (toFixed P) samples AudioDetector.default_sampleRate
              Hshort) as (Hetk & Hpvss & Hfrd & Hsig).
  unfold analyzeAudio in Hv, Hs. rewrite Hetk, Hpvss, Hfrd in Hv. rewrite Hsig in Hs.
  unfold runPipeline. rewrite Hret. cbn [mbind option_bind].
  eexists. split; [reflexivity|].
  destruct (assemble_risk startTime now st) as (-> & ->).
  destruct (assemble_fields startTime now st) as (-> & -> & _ & _ & _ & _ & ->).
  rewrite Hv, Hs.
  replace (ScoringEngine.computeEnsembleScore _) with NaN by reflexivity.
  unfold ScoringEngine.plattScale, ScoringEngine.plattScale_with.
  cbn [mul add neg]. rewrite Hexp. repeat split.
Qed.

(** X19.  An image whose pixels could not be decoded is scored on the
    two constants of the buffer-only fallback ([hfer] 0.5 and [svd] 0),
    which lie on the normal side of their baselines: whatever the metadata
    scan finds and whatever the file size and the draws, its probability
    is [plattScale 0], and its signals are the metadata signals alone. *)
Theorem runPipeline_image_without_pixels
    (route : MediaRouteDecision) (random1 random2 startTime now : number) :
  mediaType route = image ->
  imageData route = None ->
  audioBuffer route = None ->
  exists result,
    runPipeline P route random1 random2 startTime now = Some result /\
    Pipeline.featureVector result
    = {| hfer := Some (Fin 0.5); svd := Some (Fin 0); pdi := None; tiis := None;
         fav := None; etk := None; pvss := None; frd := None |} /\
    Pipeline.signals result
    = ImageDetector.metadata_signals (scanImageMetadata P (rawBuffer route)) /\
    Pipeline.fakeProbability result = ScoringEngine.plattScale (Math_exp P) (Fin 0).
Proof.
  intros Hmt Himg Hbuf.
  set (st0 := level1_image P route (initial route)).
  assert (H1 : level1_audio P route (level1_video P route st0) = st0)
    by (unfold level1_audio, level1_video; rewrite Hmt; reflexivity).
  assert (H2 : forall st,
             level2_audio P route (level2_video P route (level2_image P route st)) = st).
  { intros st. unfold level2_audio, level2_video, level2_image.
    rewrite Hmt, Himg, Hbuf. reflexivity. }
  assert (H3 : forall st, level3_video P route st = st)
    by (intros st; unfold level3_video; rewrite Hmt; reflexivity).
  set (st1 := level1 P route random1 (initial route)).
  assert (Hst1 : findings st1 = findings st0)
    by (unfold st1; rewrite level1_findings; fold st0; rewrite H1; reflexivity).
  set (st2 := level2 P route random2 st1).
  assert (Hst2 : findings st2 = findings st0).
  { unfold st2. destruct (level2_findings route random2 st1) as [-> | (_ & _ & ->)];
      [exact Hst1 | rewrite H2; exact Hst1]. }
  assert (Hseg : run_segments st0 = [])
    by (unfold st0, level1_image; rewrite Hmt; reflexivity).
  destruct (level3_nothing route st2) as (st3 & Hret & Hst3 & _);
    [rewrite (findings_segments _ _ Hst2); exact Hseg | apply H3 |].
  unfold runPipeline. fold st1. fold st2. rewrite Hret. cbn [mbind option_bind].
  eexists. split; [reflexivity|].
  rewrite Hst2 in Hst3.
  destruct (assemble_findings startTime now st3 st0 Hst3) as (-> & -> & _ & _ & ->).
  unfold st0, level1_image. rewrite Hmt, Himg. cbn [is_image run_featureVector run_signals].
  repeat split.
Qed.

End Results.

Lemma runPipeline_no_payload_witness :
  exists result,
    runPipeline Fixtures.platform (Fixtures.route_of unknown None)
      (Fin 0.5) (Fin 0.5) (Fin 0) (Fin 1) = Some result /\
    Pipeline.featureVector result = Examples.empty_vector /\
    Pipeline.signals result = [] /\
    Pipeline.segments result = [] /\
    Pipeline.changePoints result = [] /\
    Pipeline.fakeProbability result = ScoringEngine.plattScale Approx.exp (Fin 0).
Proof.
  apply (runPipeline_no_payload Fixtures.platform). repeat split.
Defined.

Lemma runPipeline_audio_witness :
  exists result,
    runPipeline Fixtures.platform (Fixtures.route_of audio (Some Examples.short_silence))
      (Fin 0.5) (Fin 0.5) (Fin 0) (Fin 1) = Some result /\
    Pipeline.featureVector result
    = {| hfer := None; svd := None; pdi := None; tiis := None; fav := None;
         etk := Some (EnergyTransitionMetrics.etk
                        (AudioDetector.energyTransition
                           (analyzeAudio Fixtures.platform Examples.short_silence)));
         pvss := Some (PitchMetrics.pvss
                         (AudioDetector.pitch
                            (analyzeAudio Fixtures.platform Examples.short_silence)));
         frd := Some (SpectralFlatnessMetrics.frd
                        (AudioDetector.spectralFlatness
                           (analyzeAudio Fixtures.platform Examples.short_silence))) |} /\
    Pipeline.signals result
    = AudioDetector.audio_signals (analyzeAudio Fixtures.platform Examples.short_silence) /\
    Pipeline.segments result = [] /\
    Pipeline.changePoints result = [] /\
    Pipeline.analysisLevel result <> level1_lightweight.
Proof.
  apply (runPipeline_audio Fixtures.platform); reflexivity.
Defined.

Lemma runPipeline_image_without_pixels_witness :
  exists result,
    runPipeline Fixtures.platform (Fixtures.route_of image None)
      (Fin 0.5) (Fin 0.5) (Fin 0) (Fin 1) = Some result /\
    Pipeline.featureVector result
    = {| hfer := Some (Fin 0.5); svd := Some (Fin 0); pdi := None; tiis := None;
         fav := None; etk := None; pvss := None; frd := None |} /\
    Pipeline.signals result
    = ImageDetector.metadata_signals
        (scanImageMetadata Fixtures.platform (rawBuffer (Fixtures.route_of image None))) /\
    Pipeline.fakeProbability result = ScoringEngine.plattScale Approx.exp (Fin 0).
Proof.
  apply (runPipeline_image_without_pixels Fixtures.platform); reflexivity.
Defined.

Lemma runPipeline_short_audio_witness :
  exists result,
    runPipeline Fixtures.platform (Fixtures.route_of audio (Some Examples.short_silence))
      (Fin 0.5) (Fin 0.5) (Fin 0) (Fin 1) = Some result /\
    Pipeline.featureVector result
    = {| hfer := None; svd := None; pdi := None; tiis := None; fav := None;
         etk := Some (Fin 0); pvss := Some (Fin 0); frd := Some NaN |} /\
    Pipeline.fakeProbability result = NaN /\
    Pipeline.riskLevel result = low /\
    Pipeline.riskScore result = NaN /\
    Pipeline.signals result = [].
Proof.
  apply (runPipeline_short_audio Fixtures.platform _ Examples.short_silence);
    try reflexivity.
  vm_compute. lia.
Defined.

End PipelineMore.

(** ** Video: the block search *)

Module VideoMore.

Import VideoDetector VideoNotions.

Lemma lt_irrefl a : (a <? a)%js = false.
Proof.
  destruct a as [q| | |]; try reflexivity. cbn [lt]. apply JSFacts.Qltb_ge. lra.
Qed.

Lemma lt_trans a b c : (a <? b)%js = true -> (b <? c)%js = true -> (a <? c)%js = true.
Proof.
  destruct a as [x| | |], b as [y| | |], c as [z| | |]; cbn [lt]; try discriminate;
    try reflexivity.
  intros Hxy Hyz. qprop. apply JSFacts.Qltb_lt. lra.
Qed.

Lemma nested_fold_pairs {A B C} (step : A -> B * C -> A) (xs : list B) (ys : list C) (init : A) :
  fold_left (fun acc y => fold_left (fun acc x => step acc (x, y)) xs acc) ys init
  = fold_left step (flat_map (fun y => map (fun x => (x, y)) xs) ys) init.
Proof.
  assert (Hrow : forall y acc,
             fold_left step (map (fun x => (x, y)) xs) acc
             = fold_left (fun acc x => step acc (x, y)) xs acc).
  { intros y. induction xs as [|x xs IHx]; intros acc; [reflexivity|]. cbn. apply IHx. }
  revert init. induction ys as [|y ys IH]; intros init; [reflexivity|].
  cbn [fold_left flat_map]. rewrite fold_left_app, Hrow. apply IH.
Qed.

Lemma fold_left_prefix_invariant {A B} (f : A -> B -> A) (I : list B -> A -> Prop)
    (l : list B) (a : A) :
  I [] a ->
  (forall done x acc, I done acc -> I (done ++ [x]) (f acc x)) ->
  I l (fold_left f l a).
Proof.
  intros Hinit Hstep.
  assert (H : forall done acc, I done acc -> I (done ++ l) (fold_left f l acc)).
  { induction l as [|x l IH]; intros done acc Hacc; cbn [fold_left].
    - rewrite app_nil_r. exact Hacc.
    - replace (done ++ x :: l) with ((done ++ [x]) ++ l) by (rewrite <- app_assoc; reflexivity).
      apply IH, Hstep, Hacc. }
  apply (H [] a Hinit).
Qed.

Lemma best_match_candidates curr prev w h blockSize bx by_ :
  best_match curr prev w h blockSize bx by_
  = fold_left (consider curr prev w h blockSize bx by_) (candidates 4) (PosInf, 0%Z, 0%Z).
Proof.
  unfold best_match, candidates.
  rewrite <- (nested_fold_pairs (consider curr prev w h blockSize bx by_)).
  reflexivity.
Qed.

Lemma in_frame_test w h blockSize bx by_ dx dy :
  (Z.of_nat by_ + dy <? 0)%Z || (Z.of_nat h <? Z.of_nat by_ + dy + Z.of_nat blockSize)%Z
  || (Z.of_nat bx + dx <? 0)%Z || (Z.of_nat w <? Z.of_nat bx + dx + Z.of_nat blockSize)%Z
  = false <-> in_frame w h blockSize bx by_ dx dy.
Proof.
  unfold in_frame. rewrite !orb_false_iff, !Z.ltb_ge. tauto.
Qed.

Lemma consider_invariant curr prev w h blockSize bx by_ done c best :
  search_invariant curr prev w h blockSize bx by_ done best ->
  search_invariant curr prev w h blockSize bx by_ (done ++ [c])
    (consider curr prev w h blockSize bx by_ best c).
Proof.
  destruct best as [[bestDist bestDx] bestDy], c as [dx dy].
  unfold search_invariant. intros [Hbest Hmin].
  unfold consider. cbn [fst snd].
  destruct ((Z.of_nat by_ + dy <? 0)%Z || _ || _ || _) eqn:Htest.
  - split.
    + destruct Hbest as [H | (Hin & H)]; [left; exact H | right].
      split; [apply elem_of_app; left; exact Hin | exact H].
    + intros dx' dy' Hin Hframe. apply elem_of_app in Hin as [Hin | Hin];
        [apply Hmin; assumption|].
      apply list_elem_of_singleton in Hin. injection Hin as -> ->.
      apply in_frame_test in Hframe. rewrite Hframe in Htest. discriminate Htest.
  - apply in_frame_test in Htest.
    fold (candidate_sad curr prev w blockSize bx by_ dx dy).
    destruct (candidate_sad curr prev w blockSize bx by_ dx dy <? bestDist)%js eqn:Hless.
    + split.
      * right. split; [apply elem_of_app; right; apply list_elem_of_singleton; reflexivity|].
        split; [exact Htest | reflexivity].
      * intros dx' dy' Hin Hframe. apply elem_of_app in Hin as [Hin | Hin].
        -- specialize (Hmin dx' dy' Hin Hframe).
           destruct (candidate_sad curr prev w blockSize bx by_ dx' dy'
                     <? candidate_sad curr prev w blockSize bx by_ dx dy)%js eqn:Hcmp;
             [|reflexivity].
           rewrite (lt_trans _ _ _ Hcmp Hless) in Hmin. discriminate Hmin.
        -- apply list_elem_of_singleton in Hin. injection Hin as -> ->. apply lt_irrefl.
    + split.
      * destruct Hbest as [H | (Hin & H)]; [left; exact H | right].
        split; [apply elem_of_app; left; exact Hin | exact H].
      * intros dx' dy' Hin Hframe. apply elem_of_app in Hin as [Hin | Hin];
          [apply Hmin; assumption|].
        apply list_elem_of_singleton in Hin. injection Hin as -> ->. exact Hless.
Qed.

Lemma displacements_range d : d ∈ displacements 4 <-> in_range 4 d.
Proof.
  unfold in_range. change (displacements 4) with [-4; -3; -2; -1; 0; 1; 2; 3; 4]%Z.
  rewrite !elem_of_cons, elem_of_nil. lia.
Qed.

Lemma candidates_range dx dy : (dx, dy) ∈ candidates 4 <-> in_range 4 dx /\ in_range 4 dy.
Proof.
  unfold candidates. rewrite list_elem_of_In, in_flat_map. split.
  - intros (y & Hy & Hin). apply in_map_iff in Hin as (x & Heq & Hx). injection Heq as -> ->.
    split; apply displacements_range, list_elem_of_In; assumption.
  - intros [Hx Hy]. exists dy. split; [apply list_elem_of_In, displacements_range, Hy|].
    apply in_map_iff. exists dx. split; [reflexivity|].
    apply list_elem_of_In, displacements_range, Hx.
Qed.

(** X23.  The block search of [computeOpticalFlow] is a minimum
    search.  For every block it returns a displacement within
    four pixels each way; unless no candidate was accepted (distance
    still [Infinity], displacement (0, 0)), the moved block lies inside
    the frame and the distance is its sum of absolute differences; and no
    candidate inside the frame has a strictly smaller sum. *)
Theorem best_match_minimal (curr prev : list number) (w h blockSize bx by_ : nat) :
  let '(bestDist, bestDx, bestDy) := best_match curr prev w h blockSize bx by_ in
  in_range 4 bestDx /\ in_range 4 bestDy /\
  (bestDist = PosInf /\ bestDx = 0%Z /\ bestDy = 0%Z \/
   in_frame w h blockSize bx by_ bestDx bestDy /\
   bestDist = candidate_sad curr prev w blockSize bx by_ bestDx bestDy) /\
  (forall dx dy,
      in_range 4 dx -> in_range 4 dy -> in_frame w h blockSize bx by_ dx dy ->
      (candidate_sad curr prev w blockSize bx by_ dx dy <? bestDist)%js = false).
Proof.
  rewrite best_match_candidates.
  pose proof (fold_left_prefix_invariant (consider curr prev w h blockSize bx by_)
                (search_invariant curr prev w h blockSize bx by_)
                (candidates 4) (PosInf, 0%Z, 0%Z)) as Hinv.
  destruct (fold_left _ (candidates 4) _) as [[bestDist bestDx] bestDy].
  destruct Hinv as [Hbest Hmin].
  - split; [left; repeat split|]. intros dx dy Hin. inversion Hin.
  - intros done c acc. apply consider_invariant.
  - assert (Hrange : in_range 4 bestDx /\ in_range 4 bestDy).
    { destruct Hbest as [(_ & -> & ->) | (Hin & _)];
        [unfold in_range; lia | apply candidates_range, Hin]. }
    split; [apply Hrange|]. split; [apply Hrange|]. split.
    + destruct Hbest as [H | (_ & H)]; [left; exact H | right; exact H].
    + intros dx dy Hdx Hdy. apply Hmin, candidates_range. split; assumption.
Qed.

(** *** The frames handed to the optical flow *)

Lemma ceil_succ m s :
  (0 < s)%nat ->
  ((S m + s - 1) / s = (m + s - 1) / s + (if Nat.eqb (m mod s) 0 then 1 else 0))%nat.
Proof.
  intros Hs.
  pose proof (Nat.div_mod_eq m s) as Hm.
  pose proof (Nat.mod_upper_bound m s ltac:(lia)) as Hr.
  set (q := (m / s)%nat) in *. set (r := (m mod s)%nat) in *.
  replace (S m + s - 1)%nat with (r + (q + 1) * s)%nat by nia.
  rewrite Nat.div_add, (Nat.div_small r s) by lia.
  destruct (Nat.eqb_spec r 0) as [Hz | Hnz].
  - replace (m + s - 1)%nat with ((s - 1) + q * s)%nat by nia.
    rewrite Nat.div_add, (Nat.div_small (s - 1) s) by lia. lia.
  - replace (m + s - 1)%nat with ((r - 1) + (q + 1) * s)%nat by nia.
    rewrite Nat.div_add, (Nat.div_small (r - 1) s) by lia. lia.
Qed.

Lemma strided_frames_sublist (stride k : nat) (frames : list ImageData) :
  omap (fun '(i, frame) => if Nat.eqb (i mod stride) 0 then Some frame else None)
       (imap (fun i frame => ((i + k)%nat, frame)) frames)
  `sublist_of` frames.
Proof.
  revert k. induction frames as [|frame frames IH]; intros k; [constructor|].
  cbn [imap].
  rewrite (imap_ext _ (fun i frame => ((i + S k)%nat, frame)))
    by (intros i x _; cbn; f_equal; lia).
  cbn [omap list_omap Nat.add]. destruct (Nat.eqb (k mod stride) 0);
    [apply sublist_skip, IH | apply sublist_cons, IH].
Qed.

Lemma strided_frames_length (stride k : nat) (frames : list ImageData) :
  (0 < stride)%nat ->
  (length (omap (fun '(i, frame) => if Nat.eqb (i mod stride) 0 then Some frame else None)
             (imap (fun i frame => ((i + k)%nat, frame)) frames))
   + (k + stride - 1) / stride
   = (k + length frames + stride - 1) / stride)%nat.
Proof.
  intros Hs. revert k. induction frames as [|frame frames IH]; intros k.
  - cbn. rewrite Nat.add_0_r. reflexivity.
  - cbn [imap length].
    rewrite (imap_ext _ (fun i frame => ((i + S k)%nat, frame)))
      by (intros i x _; cbn; f_equal; lia).
    cbn [omap list_omap Nat.add]. specialize (IH (S k)).
    replace (k + S (length frames) + stride - 1)%nat
      with (S k + length frames + stride - 1)%nat by lia.
    rewrite <- IH, (ceil_succ k stride Hs).
    destruct (Nat.eqb (k mod stride) 0); cbn [length]; lia.
Qed.

Lemma subsample_offset frames :
  subsample frames
  = omap (fun '(i, frame) =>
            if Nat.eqb (i mod ((length frames + 9) / 10)) 0 then Some frame else None)
         (imap (fun i frame => ((i + 0)%nat, frame)) frames).
Proof.
  unfold subsample. cbv zeta. f_equal. apply imap_ext. intros i x _. f_equal. lia.
Qed.

Lemma subsample_size frames :
  (10 < length frames)%nat ->
  subsample frames `sublist_of` frames /\
  (6 <= length (subsample frames) <= 10)%nat /\
  head (subsample frames) = head frames.
Proof.
  intros Hlong. split; [|split].
  - rewrite subsample_offset. apply strided_frames_sublist.
  - rewrite subsample_offset.
    set (stride := ((length frames + 9) / 10)%nat).
    assert (Hlo : (length frames <= 10 * stride)%nat).
    { unfold stride. pose proof (Nat.div_mod_eq (length frames + 9) 10).
      pose proof (Nat.mod_upper_bound (length frames + 9) 10 ltac:(lia)). lia. }
    assert (Hhi : (10 * stride <= length frames + 9)%nat)
      by (unfold stride; apply Nat.Div0.mul_div_le).
    assert (Hs : (0 < stride)%nat) by lia.
    pose proof (strided_frames_length stride 0 frames Hs) as Hlen.
    rewrite (Nat.div_small (0 + stride - 1) stride) in Hlen by lia.
    rewrite Nat.add_0_r in Hlen. rewrite Hlen. cbn [Nat.add]. split.
    + apply Nat.div_le_lower_bound; lia.
    + assert (H : ((length frames + stride - 1) / stride < 11)%nat)
        by (apply Nat.Div0.div_lt_upper_bound; lia).
      lia.
  - destruct frames as [|frame frames]; [reflexivity|].
    unfold subsample. cbv zeta. cbn [imap omap list_omap]. rewrite Nat.Div0.mod_0_l. reflexivity.
Qed.

Section Video.

Variable Math_sqrt : number -> number.
Variable toFixed : number -> nat -> string.
Variable String_of_nat : nat -> string.
Variable computeFrequencyMetrics : list Z -> nat -> nat -> FrequencyMetrics.t.
Variable computeTextureMetrics : list Z -> nat -> nat -> TextureMetrics.t.
Variable computeTemporalIdentity : list ImageData -> TemporalIdentityMetrics.t.
Variable computeSegmentAuthenticity : list ImageData -> list SegmentAuthenticity.

(** X24.  With optical flow enabled and at least three frames,
    [analyzeVideo] computes the flow on a selection of the frames, in
    their order and starting with the first: all of them up to ten
    frames, and between six and ten of them beyond.  The selection always
    has at least three frames, so the short-input exit of
    [computeOpticalFlow] is never taken from here. *)
Theorem analyzeVideo_flow_input (frames : list ImageData) (enableTexture : bool) :
  (3 <= length frames)%nat ->
  exists subset,
    opticalFlow
      (analyzeVideo Math_sqrt toFixed String_of_nat computeFrequencyMetrics
         computeTextureMetrics computeTemporalIdentity computeSegmentAuthenticity
         frames enableTexture true)
    = Some (computeOpticalFlow Math_sqrt subset default_blockSize) /\
    subset `sublist_of` frames /\
    (3 <= length subset <= 10)%nat /\
    head subset = head frames /\
    ((length frames <= 10)%nat -> subset = frames) /\
    ((10 < length frames)%nat -> (6 <= length subset)%nat).
Proof.
  intros Hlen. unfold analyzeVideo. cbn [opticalFlow andb].
  destruct (Nat.leb_spec 3 (length frames)) as [_ | H]; [|lia].
  destruct (Nat.ltb_spec 10 (length frames)) as [Hlong | Hshort].
  - destruct (subsample_size frames Hlong) as (Hsub & Hsize & Hhead).
    exists (subsample frames). split; [reflexivity|]. split; [exact Hsub|].
    split; [lia|]. split; [exact Hhead|]. split; [lia | intros _; lia].
  - exists frames. split; [reflexivity|]. split; [reflexivity|].
    split; [lia|]. split; [reflexivity|]. split; [reflexivity | lia].
Qed.

End Video.

Lemma analyzeVideo_flow_input_witness :
  exists subset,
    opticalFlow
      (analyzeVideo Approx.sqrt Approx.toFixed Approx.String_of_nat
         (Pipeline.computeFrequencyMetrics Fixtures.platform)
         (Pipeline.computeTextureMetrics Fixtures.platform)
         (Pipeline.computeTemporalIdentity Fixtures.platform)
         (Pipeline.computeSegmentAuthenticity Fixtures.platform)
         Examples.shifting_column true true)
    = Some (computeOpticalFlow Approx.sqrt subset default_blockSize) /\
    subset `sublist_of` Examples.shifting_column /\
    (3 <= length subset <= 10)%nat /\
    head subset = head Examples.shifting_column /\
    ((length Examples.shifting_column <= 10)%nat -> subset = Examples.shifting_column) /\
    ((10 < length Examples.shifting_column)%nat -> (6 <= length subset)%nat).
Proof.
  apply analyzeVideo_flow_input. cbn. lia.
Defined.

End VideoMore.

(** ** Image: the metadata scan *)

Module ImageMore.

Import ImageDetector ImageMetadata Spec.

Lemma byte_bits_nonneg bytes i : bytes_ok bytes -> (0 <= byte_bits bytes i)%Z.
Proof.
  intros Hok. unfold byte_bits, byte. destruct (i <? 0)%Z; [cbn; lia|].
  destruct (bytes !! Z.to_nat i) as [b|] eqn:Hb; [|cbn; lia].
  unfold bytes_ok in Hok. rewrite Forall_forall in Hok.
  specialize (Hok b (list_elem_of_lookup_2 _ _ _ Hb)). cbn. lia.
Qed.

Lemma scan_app1_ends bytes :
  bytes_ok bytes ->
  forall fuel offset,
    (Z.of_nat (length bytes) - 4 - offset <= Z.of_nat fuel)%Z ->
    exists r, scan_app1 fuel bytes offset = Some r /\ app1_result bytes offset r.
Proof.
  intros Hok. induction fuel as [|fuel IH]; intros offset Hfuel.
  - cbn [scan_app1].
    destruct (Z.ltb_spec offset (Z.of_nat (length bytes) - 4)); [lia|].
    exists None. split; [reflexivity | exact I].
  - cbn [scan_app1].
    destruct (Z.ltb_spec offset (Z.of_nat (length bytes) - 4)) as [Hin | _];
      [|exists None; split; [reflexivity | exact I]].
    destruct (byte_is bytes offset 255) eqn:Hff.
    + destruct (byte_is bytes (offset + 1) 225) eqn:He1.
      * exists (Some offset). split; [reflexivity|]. cbn. repeat split; try assumption; lia.
      * assert (Hseg : (0 <= Z.lor (Z.shiftl (byte_bits bytes (offset + 2)) 8)
                                 (byte_bits bytes (offset + 3)))%Z).
        { apply Z.lor_nonneg. split; [apply Z.shiftl_nonneg|]; apply byte_bits_nonneg, Hok. }
        destruct (IH (offset + 2 + Z.lor (Z.shiftl (byte_bits bytes (offset + 2)) 8)
                                        (byte_bits bytes (offset + 3)))%Z)
          as (r & Hr & Hres); [lia|].
        exists r. split; [exact Hr|]. destruct r as [found|]; [|exact I].
        cbn in *. destruct Hres as (Hrange & Hmarker). split; [lia | exact Hmarker].
    + destruct (IH (offset + 1)%Z) as (r & Hr & Hres); [lia|].
      exists r. split; [exact Hr|]. destruct r as [found|]; [|exact I].
      cbn in *. destruct Hres as (Hrange & Hmarker). split; [lia | exact Hmarker].
Qed.

(** [find_app1] is the same loop with the two ways of finding nothing
    merged. *)
Lemma find_app1_scan bytes fuel offset :
  find_app1 fuel bytes offset = default None (scan_app1 fuel bytes offset).
Proof.
  revert offset. induction fuel as [|fuel IH]; intros offset; cbn [find_app1 scan_app1].
  - destruct (offset <? _)%Z; reflexivity.
  - destruct (offset <? _)%Z; [|reflexivity].
    destruct (byte_is bytes offset 255); [|apply IH].
    destruct (byte_is bytes (offset + 1) 225); [reflexivity | apply IH].
Qed.

(** X25.  The scan for the APP1 marker terminates: on a buffer of bytes,
    started at offset 2 or anywhere from 0 on, the loop ends within
    [bytes.length] turns of its body, never for want of turns; what
    [find_app1] returns with that many turns is what the loop ends with:
    nothing, or the offset of a marker [0xFF 0xE1] at or after the start
    and within the bounds of the loop. *)
Theorem find_app1_terminates (bytes : list Z) (offset : Z) :
  bytes_ok bytes ->
  (0 <= offset)%Z ->
  exists r,
    scan_app1 (length bytes) bytes offset = Some r /\
    find_app1 (length bytes) bytes offset = r /\
    app1_result bytes offset r.
Proof.
  intros Hok Hoffset.
  destruct (scan_app1_ends bytes Hok (length bytes) offset) as (r & Hr & Hres); [lia|].
  exists r. split; [exact Hr|]. split; [|exact Hres].
  rewrite find_app1_scan, Hr. reflexivity.
Qed.

Lemma find_app1_terminates_witness :
  exists r,
    scan_app1 (length (exif_jpeg [0; 16; 69; 120; 105; 102]%Z))
      (exif_jpeg [0; 16; 69; 120; 105; 102]%Z) 2 = Some r /\
    find_app1 (length (exif_jpeg [0; 16; 69; 120; 105; 102]%Z))
      (exif_jpeg [0; 16; 69; 120; 105; 102]%Z) 2 = r /\
    app1_result (exif_jpeg [0; 16; 69; 120; 105; 102]%Z) 2 r.
Proof.
  apply find_app1_terminates; [|lia].
  unfold bytes_ok, exif_jpeg. repeat constructor; lia.
Defined.

(** X26.  A buffer that starts with neither the JPEG nor the PNG
    signature (a WebP, GIF, BMP or TIFF file, or an empty buffer) is never
    looked into: nothing is found, and the signals are exactly the one
    signal "meta-exif-stripped". *)
Theorem analyzeImageMetadata_other_formats (buffer : list Z) :
  is_jpeg buffer = false ->
  is_png buffer = false ->
  analyzeImageMetadata buffer
  = {| exifPresent := false; hasBeenEdited := false; compressionAnomalies := false;
       softwareUsed := None |} /\
  ids (metadata_signals (analyzeImageMetadata buffer)) = ["meta-exif-stripped"].
Proof.
  intros Hjpeg Hpng.
  assert (Hscan : analyzeImageMetadata buffer
                  = {| exifPresent := false; hasBeenEdited := false;
                       compressionAnomalies := false; softwareUsed := None |}).
  { unfold analyzeImageMetadata. rewrite Hjpeg, Hpng. reflexivity. }
  split; [exact Hscan|]. rewrite Hscan. reflexivity.
Qed.

Lemma analyzeImageMetadata_other_formats_witness :
  analyzeImageMetadata (codes "RIFF")
  = {| exifPresent := false; hasBeenEdited := false; compressionAnomalies := false;
       softwareUsed := None |} /\
  ids (metadata_signals (analyzeImageMetadata (codes "RIFF"))) = ["meta-exif-stripped"].
Proof. apply analyzeImageMetadata_other_formats; reflexivity. Defined.

Lemma last_match_found {A} (test : A -> bool) (l : list A) (init : option A) :
  is_Some (fold_left (fun found x => if test x then Some x else found) l init)
  <-> is_Some init \/ exists x, x ∈ l /\ test x = true.
Proof.
  revert init. induction l as [|x l IH]; intros init; cbn [fold_left].
  - split; [intros H; left; exact H|]. intros [H | (x & Hx & _)]; [exact H | inversion Hx].
  - rewrite IH. split.
    + intros [H | (y & Hy & Htest)].
      * destruct (test x) eqn:Hx; [right; exists x; split; [left | exact Hx] | left; exact H].
      * right. exists y. split; [right; exact Hy | exact Htest].
    + intros [H | (y & Hy & Htest)].
      * left. destruct (test x); [eexists; reflexivity | exact H].
      * apply elem_of_cons in Hy as [-> | Hy].
        -- left. rewrite Htest. eexists. reflexivity.
        -- right. exists y. split; assumption.
Qed.

Lemma exif_jpeg_scan rest :
  (3 <= length rest)%nat ->
  is_jpeg (exif_jpeg rest) = true /\
  is_png (exif_jpeg rest) = false /\
  find_app1 (length (exif_jpeg rest)) (exif_jpeg rest) 2 = Some 2%Z /\
  toLowerCase (slice (exif_jpeg rest) 2 (Nat.min (2 + 500) (length (exif_jpeg rest))))
  = exif_window rest.
Proof.
  intros Hlen. split; [reflexivity|]. split; [reflexivity|]. split.
  - unfold exif_jpeg. cbn [length find_app1].
    destruct (Z.ltb_spec 2 (Z.of_nat (S (S (S (S (length rest))))) - 4)) as [_ | H]; [|lia].
    reflexivity.
  - unfold exif_window, slice, exif_jpeg. f_equal. cbn [length drop].
    destruct (Nat.le_ge_cases 502 (S (S (S (S (length rest)))))) as [Hle | Hge].
    + rewrite Nat.min_l by exact Hle. reflexivity.
    + rewrite Nat.min_r by exact Hge.
      rewrite !take_ge; [reflexivity | cbn [length]; lia | cbn [length]; lia].
Qed.

(** X27.  In a JPEG whose APP1 segment follows the start-of-image
    marker, the scan reports EXIF as present, and the image as edited
    exactly when the first 500 bytes from the marker on contain, in any
    letter case, one of the eight names of [softwareMatches].  One of them
    is "AI": any such segment with the letters "ai" in it (in "Thailand",
    say) is reported as edited and raises the signal "meta-edited". *)
Theorem analyzeImageMetadata_exif_software (rest : list Z) :
  (3 <= length rest)%nat ->
  let scan := analyzeImageMetadata (exif_jpeg rest) in
  exifPresent scan = true /\
  (hasBeenEdited scan = true <->
   exists sw, sw ∈ softwareMatches /\
              includes (exif_window rest) (toLowerCase (codes sw)) = true) /\
  (includes (exif_window rest) (codes "ai") = true ->
   hasBeenEdited scan = true /\ "meta-edited" ∈ ids (metadata_signals scan)).
Proof.
  intros Hlen. cbv zeta.
  destruct (exif_jpeg_scan rest Hlen) as (Hjpeg & Hpng & Hfind & Hwindow).
  assert (Hedited : hasBeenEdited (analyzeImageMetadata (exif_jpeg rest)) = true <->
            exists sw, sw ∈ softwareMatches /\
                       includes (exif_window rest) (toLowerCase (codes sw)) = true).
  { unfold analyzeImageMetadata. rewrite Hjpeg, Hpng, Hfind.
    cbn [hasBeenEdited andb orb]. rewrite orb_false_r, bool_decide_eq_true.
    change (Z.to_nat 2) with 2%nat. unfold detect_software. rewrite Hwindow.
    rewrite (last_match_found
               (fun sw => includes (exif_window rest) (toLowerCase (codes sw)))).
    split; [intros [[x Hx] | H]; [discriminate Hx | exact H] | intros H; right; exact H]. }
  split; [|split; [exact Hedited|]].
  - unfold analyzeImageMetadata. rewrite Hjpeg, Hpng, Hfind. reflexivity.
  - intros Hai.
    assert (H : hasBeenEdited (analyzeImageMetadata (exif_jpeg rest)) = true).
    { apply Hedited. exists "AI". split; [|exact Hai].
      apply list_elem_of_In. cbn. tauto. }
    split; [exact H|]. unfold metadata_signals. rewrite H.
    rewrite !PipelineProps.ids_app. apply elem_of_app. right. apply elem_of_app. left.
    cbn. left.
Qed.

Lemma analyzeImageMetadata_exif_software_witness :
  let scan := analyzeImageMetadata (exif_jpeg (0 :: 16 :: codes "Exif Thailand")%Z) in
  exifPresent scan = true /\
  (hasBeenEdited scan = true <->
   exists sw, sw ∈ softwareMatches /\
              includes (exif_window (0 :: 16 :: codes "Exif Thailand")%Z)
                (toLowerCase (codes sw)) = true) /\
  (includes (exif_window (0 :: 16 :: codes "Exif Thailand")%Z) (codes "ai") = true ->
   hasBeenEdited scan = true /\ "meta-edited" ∈ ids (metadata_signals scan)).
Proof. apply analyzeImageMetadata_exif_software. vm_compute. lia. Defined.

End ImageMore.
